(** * cnc-tools: the extrusion table scripts

    A shallow embedding of the three batch scripts under [tools/]:
    - [clean_extrusions.py]  (row filter and normalizer),
    - [fill_3050_prices.py]  (price backfill, short to long scaling),
    - [update_xlsx_from_csv.py] (spreadsheet sync with per-mm rates),
    followed by the properties of the specification that were checked
    against them.

    Conventions.  A Python [str] is a Rocq [string]; each character stands
    for one code point below 256.  A row is a [list string], a table a list
    of rows.  Python dictionaries whose iteration order is observed are
    association lists in insertion order; the others are [gmap]s.  Python
    floats are IEEE binary64 values, modelled by [spec_float] with the
    operations of [SpecFloat] at precision 53 and maximal exponent 1024. *)

From Stdlib Require Import ZArith Ascii String List Lia SpecFloat.
From stdpp Require Import gmap strings list sorting.

Local Open Scope Z_scope.
Local Open Scope nat_scope.

(** ** Python string primitives *)

Module PyStr.

(** [str.isspace] on one code point below 256 (Unicode white space). *)
Definition is_space (c : ascii) : bool :=
  let n := nat_of_ascii c in
  ((9 <=? n) && (n <=? 13)) || ((28 <=? n) && (n <=? 32))
  || (n =? 133) || (n =? 160).

(** Line boundaries recognised by [str.splitlines]. *)
Definition is_linebreak (c : ascii) : bool :=
  let n := nat_of_ascii c in
  ((10 <=? n) && (n <=? 13)) || ((28 <=? n) && (n <=? 30)) || (n =? 133).

Fixpoint lstrip (s : string) : string :=
  match s with
  | EmptyString => EmptyString
  | String c s' => if is_space c then lstrip s' else s
  end.

Fixpoint rstrip (s : string) : string :=
  match s with
  | EmptyString => EmptyString
  | String c s' =>
      match rstrip s' with
      | EmptyString => if is_space c then EmptyString else String c EmptyString
      | r => String c r
      end
  end.

(** [s.strip()] *)
Definition strip (s : string) : string := rstrip (lstrip s).

(** [s.split(sep)] for a separator of one character. *)
Fixpoint split (sep : ascii) (s : string) : list string :=
  match s with
  | EmptyString => [EmptyString]
  | String c s' =>
      if Ascii.eqb c sep then EmptyString :: split sep s'
      else match split sep s' with
           | [] => [String c EmptyString]
           | w :: ws => String c w :: ws
           end
  end.

(** [sep.join(l)] *)
Definition join (sep : string) (l : list string) : string :=
  String.concat sep l.

(** [sub in s] *)
Fixpoint contains (sub s : string) : bool :=
  String.prefix sub s
  || match s with
     | EmptyString => false
     | String _ s' => contains sub s'
     end.

(** [s.endswith(suf)] *)
Fixpoint endswith (suf s : string) : bool :=
  String.eqb s suf
  || match s with
     | EmptyString => false
     | String _ s' => endswith suf s'
     end.

(** [s.replace(old, new)]: every non-overlapping occurrence, scanning from
    the left.  [skip] counts the characters of a matched occurrence that
    are still to be passed over. *)
Fixpoint replace_from (old new s : string) (skip : nat) : string :=
  match s with
  | EmptyString => EmptyString
  | String c s' =>
      match skip with
      | S k => replace_from old new s' k
      | O =>
          if String.prefix old s
          then new +:+ replace_from old new s' (String.length old - 1)
          else String c (replace_from old new s' 0)
      end
  end.

Fixpoint intersperse (new s : string) : string :=
  match s with
  | EmptyString => new
  | String c s' => new +:+ String c (intersperse new s')
  end.

Definition replace (old new s : string) : string :=
  match old with
  | EmptyString => intersperse new s
  | _ => replace_from old new s 0
  end.

(** [c.isdigit()] on one code point below 256: the decimal digits and the
    superscripts one, two and three. *)
Definition is_digit_char (c : ascii) : bool :=
  let n := nat_of_ascii c in
  ((48 <=? n) && (n <=? 57)) || (n =? 178) || (n =? 179) || (n =? 185).

Fixpoint all_chars (p : ascii -> bool) (s : string) : bool :=
  match s with
  | EmptyString => true
  | String c s' => p c && all_chars p s'
  end.

(** [s.isdigit()] *)
Definition isdigit (s : string) : bool :=
  match s with
  | EmptyString => false
  | _ => all_chars is_digit_char s
  end.

(** [s.splitlines()]; a carriage return followed by a line feed is one
    boundary, and a final boundary opens no further line. *)
Fixpoint splitlines (s : string) : list string :=
  match s with
  | EmptyString => []
  | String c s' =>
      if is_linebreak c then
        match s' with
        | String c' s'' =>
            if Ascii.eqb c "013" && Ascii.eqb c' "010"
            then EmptyString :: splitlines s''
            else EmptyString :: splitlines s'
        | EmptyString => [EmptyString]
        end
      else match splitlines s' with
           | [] => [String c EmptyString]
           | l :: ls => String c l :: ls
           end
  end.

(** A string that [lstrip] leaves alone: empty, or starting with a
    character that is not white space. *)
Definition starts_nonspace (s : string) : bool :=
  match s with
  | EmptyString => true
  | String c _ => negb (is_space c)
  end.

(** [l[-1]] of a non-empty list of strings and [l[:-1]]. *)
Definition last_item (l : list string) : string := List.last l EmptyString.
Definition all_but_last (l : list string) : list string := removelast l.

End PyStr.

Import PyStr.

(** ** The base profile key utilities *)

(** [make_key_from_sku] of [clean_extrusions.py]. *)
Definition make_key_from_sku (sku : string) : string :=
  let parts := split "-" sku in
  if match parts with [] => false | _ => isdigit (last_item parts) end
  then join "-" (all_but_last parts)
  else join "-" (all_but_last parts).

(** [sku_base] of [update_xlsx_from_csv.py]. *)
Definition sku_base (sku : string) : string :=
  let parts := split "-" sku in
  if length parts <=? 1 then sku
  else join "-" (all_but_last parts).

(** [length_token] of [update_xlsx_from_csv.py]. *)
Definition length_token (sku : string) : string :=
  last_item (split "-" sku).

(** ** Rows, tables and ordered dictionaries *)

Abbreviation row := (list string).
Abbreviation table := (list (list string)).

(** [r[i]] for an index that is in range wherever the scripts use it. *)
Definition field (i : nat) (r : row) : string := nth i r EmptyString.

(** A [dict] with string keys whose iteration order (insertion order) is
    observed. *)
Module ODict.
Section WithValue.
Context {V : Type}.

Definition t := list (string * V).

Fixpoint get (k : string) (d : t) : option V :=
    match d with
    | [] => None
    | (k', v) :: d' => if String.eqb k' k then Some v else get k d'
    end.

Definition mem (k : string) (d : t) : bool :=
    match get k d with Some _ => true | None => false end.

  (** [d[k] = v]: a present key keeps its position. *)
Fixpoint set (k : string) (v : V) (d : t) : t :=
    match d with
    | [] => [(k, v)]
    | (k', v') :: d' =>
        if String.eqb k' k then (k', v) :: d' else (k', v') :: set k v d'
    end.

Definition keys (d : t) : list string := map fst d.
End WithValue.
Arguments t : clear implicits.
End ODict.

(** ** The row filter and normalizer ([clean_extrusions.py]) *)

Definition ALLOWED : list string := ["500"; "1000"; "1500"; "3050"].

Definition allowed (tok : string) : bool := existsb (String.eqb tok) ALLOWED.

Definition COMMA : ascii := ",".
Definition TAB : ascii := "009".
Definition NL : string := String "010" EmptyString.

Definition parse_line_csv (line : string) : row := split COMMA (strip line).

(** [[p for p in line.split('\t')]] of [clean_txt]. *)
Definition parse_line_txt (line : string) : row := split TAB line.

Record scan_state := {
  kept : list row;
  base_has_3050 : gmap string bool;
  base_first_row : ODict.t row
}.

Definition scan_init : scan_state :=
  {| kept := []; base_has_3050 := ∅; base_first_row := [] |}.

(** One turn of the first loop of [clean_csv] (and of [clean_txt], whose
    loop body is the same), on the fields of one line. *)
Definition scan_step (st : scan_state) (parts : row) : scan_state :=
  if length parts <? 3 then st
  else
    let sku := strip (field 2 parts) in
    if contains "TAP1" sku || contains "TAP2" sku then st
    else
      let last := last_item (split "-" sku) in
      if negb (allowed last) then st
      else
        let base := make_key_from_sku sku in
        {| kept := kept st ++ [parts];
           base_has_3050 :=
             if String.eqb last "3050"
             then <[base := true]> (base_has_3050 st)
             else base_has_3050 st;
           base_first_row :=
             if ODict.mem base (base_first_row st)
             then base_first_row st
             else ODict.set base parts (base_first_row st) |}.

Definition scan (rows : list row) : scan_state :=
  fold_left scan_step rows scan_init.

(** [while len(new_parts) < 7: new_parts.append('')] *)
Definition pad7 (r : row) : row := r ++ repeat EmptyString (7 - length r).

Definition blank_numeric (r : row) : row :=
  <[6 := EmptyString]> (<[5 := EmptyString]>
    (<[4 := EmptyString]> (<[3 := EmptyString]> r))).

(** The row built in the second loop of [clean_csv]. *)
Definition new_3050_row_csv (base : string) (first_parts : row) : row :=
  let new_parts := <[2 := base +:+ "-3050"]> (pad7 first_parts) in
  if 7 <=? length new_parts then blank_numeric new_parts else new_parts.

(** The row built in the second loop of [clean_txt] (no length test). *)
Definition new_3050_row_txt (base : string) (first_parts : row) : row :=
  blank_numeric (<[2 := base +:+ "-3050"]> (pad7 first_parts)).

(** [base_has_3050.get(base, False)] *)
Definition has_3050 (m : gmap string bool) (base : string) : bool :=
  default false (m !! base).

(** The second loop: one placeholder per base without a 3050 row, in the
    insertion order of [base_first_row]. *)
Definition add_missing (mk : string -> row -> row) (st : scan_state) : list row :=
  fold_left
    (fun acc kv =>
       if negb (has_3050 (base_has_3050 st) (fst kv))
       then acc ++ [mk (fst kv) (snd kv)] else acc)
    (base_first_row st) (kept st).

(** The key of [kept.sort(key=lambda p: (p[1], p[2]))] and the order of
    Python tuples of strings. *)
Definition sort_key (p : row) : string * string := (field 1 p, field 2 p).

Definition key_leb (a b : string * string) : bool :=
  match String.compare (fst a) (fst b) with
  | Lt => true
  | Gt => false
  | Eq => String.leb (snd a) (snd b)
  end.

(** [list.sort] is stable; so is this insertion sort, which puts a row in
    front of the later rows with an equal key. *)
Fixpoint insert_row (x : row) (l : list row) : list row :=
  match l with
  | [] => [x]
  | y :: l' =>
      if key_leb (sort_key x) (sort_key y) then x :: l
      else y :: insert_row x l'
  end.

Definition sort_rows (l : list row) : list row := foldr insert_row [] l.

(** [[l for l in text.splitlines() if l.strip()]] *)
Definition nonblank (l : string) : bool := negb (String.eqb (strip l) EmptyString).
Definition read_lines (text : string) : list string :=
  List.filter nonblank (splitlines text).

(** The three steps shared by [clean_csv] and [clean_txt], on the fields of
    the lines read: first loop, second loop, sort. *)
Definition clean_rows (mk : string -> row -> row) (rows : list row) : list row :=
  sort_rows (add_missing mk (scan rows)).

(** The rows [kept] of [clean_csv] after the sort, from the lines read. *)
Definition clean_csv_rows (lines : list string) : list row :=
  clean_rows new_3050_row_csv (map parse_line_csv lines).

Definition clean_txt_rows (lines : list string) : list row :=
  clean_rows new_3050_row_txt (map parse_line_txt lines).

(** The text written back by [clean_csv] and by [clean_txt], from the text
    read. *)
Definition write_lines (sep : string) (rows : list row) : string :=
  join NL (map (join sep) rows) +:+ NL.

Definition clean_csv (text : string) : string :=
  write_lines (String COMMA EmptyString) (clean_csv_rows (read_lines text)).

Definition clean_txt (text : string) : string :=
  write_lines (String TAB EmptyString) (clean_txt_rows (read_lines text)).

(** The stripped SKU, base key and length token of a row. *)
Definition row_sku (p : row) : string := strip (field 2 p).
Definition row_base (p : row) : string := make_key_from_sku (row_sku p).
Definition row_token (p : row) : string := last_item (split "-" (row_sku p)).

(** The test a row passes to be kept by the first loop. *)
Definition survives (p : row) : bool :=
  (3 <=? length p)
  && negb (contains "TAP1" (row_sku p) || contains "TAP2" (row_sku p))
  && allowed (row_token p).

(** The rows of a table that the first loop keeps. *)
Definition survivors (rows : list row) : list row := List.filter survives rows.

(** Rows of base [b] whose length token is "3050", and how many a table has. *)
Definition is_3050_of (b : string) (p : row) : bool :=
  String.eqb (row_base p) b && String.eqb (row_token p) "3050".

Definition count_3050 (b : string) (l : list row) : nat :=
  length (List.filter (is_3050_of b) l).

(** The first row of base [b] in a table. *)
Definition first_of_base (b : string) (l : list row) : option row :=
  List.find (fun p => String.eqb (row_base p) b) l.

(** Non-decreasing order of two rows by (description, SKU). *)
Definition row_le (p q : row) : Prop := key_leb (sort_key p) (sort_key q) = true.

(** ** Python floats and their conversions *)

Module PyFloat.

Local Open Scope Z_scope.

Definition prec : Z := 53.
Definition emax : Z := 1024.

Definition fmul : spec_float -> spec_float -> spec_float := SFmul prec emax.
Definition fdiv : spec_float -> spec_float -> spec_float := SFdiv prec emax.

(** The binary64 value nearest to [(-1)^neg * m * 10^e] for [m >= 0], ties
    to even; what [float()] and a float literal yield for a decimal
    numeral.  Too large a value gives an infinity, too small a zero. *)
Definition of_decimal (neg : bool) (m e : Z) : spec_float :=
  match m with
  | Zpos p =>
      if 0 <=? e
      then
        let x := binary_normalize prec emax (Zpos p * 10 ^ e) 0 false in
        if neg then SFopp x else x
      else
        let '(q, e', l) :=
          SFdiv_core_binary prec emax (Zpos p) 0 (10 ^ (- e)) 0 in
        binary_round_aux prec emax neg q e' l
  | _ => S754_zero neg
  end.

(** The float of a Python [int] (exact for the constants used here). *)
Definition of_int (n : Z) : spec_float :=
  if n <? 0 then of_decimal true (- n) 0 else of_decimal false n 0.

Definition eqb (x y : spec_float) : bool :=
  match x, y with
  | S754_zero a, S754_zero b => Bool.eqb a b
  | S754_infinity a, S754_infinity b => Bool.eqb a b
  | S754_nan, S754_nan => true
  | S754_finite a m e, S754_finite b m' e' =>
      Bool.eqb a b && Pos.eqb m m' && Z.eqb e e'
  | _, _ => false
  end.

(** *** [float(s)] *)

(** White space that [float()] strips: the ASCII white space, and the two
    white-space code points between 128 and 255, which are turned into
    blanks first.  (The separators 28 to 31 are left alone.) *)
Definition is_float_space (c : ascii) : bool :=
  let n := nat_of_ascii c in
  ((9 <=? n) && (n <=? 13) || (n =? 32) || (n =? 133) || (n =? 160))%nat.

Fixpoint lstrip_f (s : string) : string :=
  match s with
  | EmptyString => EmptyString
  | String c s' => if is_float_space c then lstrip_f s' else s
  end.

Fixpoint rstrip_f (s : string) : string :=
  match s with
  | EmptyString => EmptyString
  | String c s' =>
      match rstrip_f s' with
      | EmptyString => if is_float_space c then EmptyString else String c EmptyString
      | r => String c r
      end
  end.

Definition digit_val (c : ascii) : option Z :=
  let n := nat_of_ascii c in
  if ((48 <=? n) && (n <=? 57))%nat then Some (Z.of_nat (n - 48)) else None.

Definition is_ascii_digit (c : ascii) : bool :=
  match digit_val c with Some _ => true | None => false end.

(** Underscores are allowed between two digits only, and are dropped.
    [prev] is the character before [s]. *)
Fixpoint drop_underscores (prev : option ascii) (s : string) : option string :=
  match s with
  | EmptyString =>
      match prev with
      | Some "_"%char => None
      | _ => Some EmptyString
      end
  | String c s' =>
      if Ascii.eqb c "_" then
        match prev with
        | Some p => if is_ascii_digit p then drop_underscores (Some c) s' else None
        | None => None
        end
      else
        match prev with
        | Some "_"%char =>
            if is_ascii_digit c
            then option_map (String c) (drop_underscores (Some c) s')
            else None
        | _ => option_map (String c) (drop_underscores (Some c) s')
        end
  end.

(** The digits at the front of [s]: the number they add to [acc], how many
    they are, and the rest of [s]. *)
Fixpoint take_digits (acc : Z) (cnt : nat) (s : string) : Z * nat * string :=
  match s with
  | EmptyString => (acc, cnt, s)
  | String c s' =>
      match digit_val c with
      | Some d => take_digits (10 * acc + d) (S cnt) s'
      | None => (acc, cnt, s)
      end
  end.

Definition lower (c : ascii) : ascii :=
  let n := nat_of_ascii c in
  if ((65 <=? n) && (n <=? 90))%nat then ascii_of_nat (n + 32) else c.

Fixpoint lower_string (s : string) : string :=
  match s with
  | EmptyString => EmptyString
  | String c s' => String (lower c) (lower_string s')
  end.

(** An unsigned decimal numeral: digits, an optional point and digits (one
    digit at least), an optional exponent.  The result [(m, e)] stands for
    [m * 10^e]. *)
Definition parse_decimal (s : string) : option (Z * Z) :=
  let '(ip, n1, r1) := take_digits 0 0 s in
  let '(m, n2, r2) :=
    match r1 with
    | String "."%char r => take_digits ip 0 r
    | _ => (ip, O, r1)
    end in
  if (n1 + n2 =? 0)%nat then None
  else
    match r2 with
    | EmptyString => Some (m, - Z.of_nat n2)
    | String c r3 =>
        if Ascii.eqb c "e" || Ascii.eqb c "E" then
          let '(eneg, r4) :=
            match r3 with
            | String "-"%char r => (true, r)
            | String "+"%char r => (false, r)
            | _ => (false, r3)
            end in
          let '(ev, n3, r5) := take_digits 0 0 r4 in
          if (n3 =? 0)%nat then None
          else
            match r5 with
            | EmptyString =>
                Some (m, (if eneg then - ev else ev) - Z.of_nat n2)
            | _ => None
            end
        else None
    end.

Definition parse_unsigned (neg : bool) (s : string) : option spec_float :=
  match parse_decimal s with
  | Some (m, e) => Some (of_decimal neg m e)
  | None =>
      let w := lower_string s in
      if String.eqb w "inf" || String.eqb w "infinity"
      then Some (S754_infinity neg)
      else if String.eqb w "nan" then Some S754_nan
      else None
  end.

(** [float(s)]; [None] stands for [ValueError]. *)
Definition float_of_string (s : string) : option spec_float :=
  match drop_underscores None s with
  | None => None
  | Some s1 =>
      match rstrip_f (lstrip_f s1) with
      | String "-"%char r => parse_unsigned true r
      | String "+"%char r => parse_unsigned false r
      | r => parse_unsigned false r
      end
  end.

(** *** Decimal output *)

(** A finite non-zero float as the fraction [num / den] of its absolute
    value. *)
Definition num_of (m : positive) (e : Z) : Z :=
  if 0 <=? e then Zpos m * 2 ^ e else Zpos m.
Definition den_of (e : Z) : Z := if 0 <=? e then 1 else 2 ^ (- e).

(** [floor (num / den / 10^k)] and whether twice the remainder is below,
    at or above the divisor. *)
Definition scaled_floor (num den k : Z) : Z * comparison :=
  let n := if 0 <=? k then num else num * 10 ^ (- k) in
  let d := if 0 <=? k then den * 10 ^ k else den in
  let '(q, r) := Z.div_eucl n d in
  (q, if r =? 0 then Lt else Z.compare (2 * r) d).

Definition exact_floor (num den k : Z) : Z * bool :=
  let n := if 0 <=? k then num else num * 10 ^ (- k) in
  let d := if 0 <=? k then den * 10 ^ k else den in
  let '(q, r) := Z.div_eucl n d in (q, r =? 0).

Definition round_half_even (qc : Z * comparison) : Z :=
  match snd qc with
  | Lt => fst qc
  | Gt => fst qc + 1
  | Eq => if Z.even (fst qc) then fst qc else fst qc + 1
  end.

Definition round_half_up (qc : Z * comparison) : Z :=
  match snd qc with
  | Lt => fst qc
  | _ => fst qc + 1
  end.

(** Decimal digits of a non-negative number. *)
Definition digit_char (d : Z) : ascii := ascii_of_nat (48 + Z.to_nat d).

Fixpoint digits_fuel (fuel : nat) (n : Z) (acc : string) : string :=
  match fuel with
  | O => acc
  | S f =>
      let acc' := String (digit_char (n mod 10)) acc in
      if n <? 10 then acc' else digits_fuel f (n / 10) acc'
  end.

Definition digits_of (n : Z) : string :=
  digits_fuel (S (Z.to_nat (Z.log2 n))) n EmptyString.

(** [sign, N] printed as a number with two decimals, [N] counting
    hundredths. *)
Definition print_hundredths (neg : bool) (N : Z) : string :=
  (if neg then "-" else "")
  +:+ digits_of (N / 100) +:+ "."
  +:+ String (digit_char (N mod 100 / 10)) (String (digit_char (N mod 10)) EmptyString).

(** [format(x, '.2f')]: the exact value of [x] rounded to two decimals,
    ties to even. *)
Definition format_2f (x : spec_float) : string :=
  match x with
  | S754_nan => "nan"
  | S754_infinity s => if s then "-inf" else "inf"
  | S754_zero s => print_hundredths s 0
  | S754_finite s m e =>
      print_hundredths s
        (round_half_even (scaled_floor (num_of m e) (den_of e) (-2)))
  end.

(** [round(x, 2)]: the float nearest to the two-decimal rounding of [x]. *)
Definition round_2 (x : spec_float) : spec_float :=
  match x with
  | S754_finite s m e =>
      of_decimal s (round_half_even (scaled_floor (num_of m e) (den_of e) (-2))) (-2)
  | _ => x
  end.

(** The power of ten of the leading decimal digit of [num / den], searched
    downwards from [hi]. *)
Fixpoint leading_power (fuel : nat) (hi num den : Z) : Z :=
  match fuel with
  | O => hi
  | S f =>
      if 1 <=? fst (exact_floor num den hi) then hi
      else leading_power f (hi - 1) num den
  end.

(** [repr(x)] for a finite non-zero [x], as [(digits, exponent)]: the
    shortest decimal that [float()] reads back as [x], the one nearest to
    [x] among those of that length. *)
Fixpoint shortest_from (fuel : nat) (n : Z) (x : spec_float)
    (num den lead : Z) : Z * Z :=
  let k := lead - (n - 1) in
  let '(lo, c) := scaled_floor num den k in
  let exact := snd (exact_floor num den k) in
  let lo_ok := exact || eqb (of_decimal false lo k) x in
  let hi_ok := negb exact && eqb (of_decimal false (lo + 1) k) x in
  match fuel with
  | O => (round_half_even (lo, c), k)
  | S f =>
      if lo_ok && hi_ok then (round_half_even (lo, c), k)
      else if lo_ok then (lo, k)
      else if hi_ok then (lo + 1, k)
      else shortest_from f (n + 1) x num den lead
  end.

Definition repr_decimal (m : positive) (e : Z) : Z * Z :=
  let num := num_of m e in
  let den := den_of e in
  shortest_from 16 1 (S754_finite false m e) num den
    (leading_power 640 309 num den).

(** *** [Decimal(str(v)).quantize(Decimal("0.01"), ROUND_HALF_UP)] *)

Definition decimal_prec : Z := 28.

Definition count_digits (n : Z) : Z := Z.of_nat (String.length (digits_of n)).

(** [round2] of [fill_3050_prices.py].  [None] stands for the
    [InvalidOperation] that the default decimal context raises: for an
    infinity, and for a result of more than 28 digits. *)
Definition round2 (v : spec_float) : option string :=
  match v with
  | S754_nan => Some "NaN"%string
  | S754_infinity _ => None
  | S754_zero s => Some (print_hundredths s 0)
  | S754_finite s m e =>
      let '(d, k) := repr_decimal m e in
      if decimal_prec <? count_digits d + k + 2 then None
      else
        let N := round_half_up (scaled_floor d 1 (- 2 - k)) in
        if decimal_prec <? count_digits N then None
        else Some (print_hundredths s N)
  end.

End PyFloat.

(** ** The price backfill ([fill_3050_prices.py]) *)

(** [is_numeric] *)
Definition is_numeric (s : string) : bool :=
  match PyFloat.float_of_string s with Some _ => true | None => false end.

(** The literal [3.05]. *)
Definition RATIO : spec_float := PyFloat.of_decimal false 305 (-2).

(** [row[5].strip() if len(row) > 5 else ""] *)
Definition price_text (r : row) : string :=
  if 5 <? length r then strip (field 5 r) else EmptyString.

(** One turn of the loop that builds [price_map]. *)
Definition price_map_step (pm : gmap string spec_float) (r : row)
    : gmap string spec_float :=
  if length r <? 3 then pm
  else
    let sku := strip (field 2 r) in
    if endswith "-1000" sku then
      match PyFloat.float_of_string (price_text r) with
      | Some v => <[sku := v]> pm
      | None => pm
      end
    else pm.

Definition price_map (reader : table) : gmap string spec_float :=
  fold_left price_map_step reader ∅.

(** [while len(row) <= 5: row.append("")] *)
Definition pad6 (r : row) : row := r ++ repeat EmptyString (6 - length r).

(** What the second loop does to one row. *)
Inductive row_action :=
| Skip                       (* [continue], or nothing to do *)
| Update (new_row : row)     (* price written, [updated += 1] *)
| Missing (sku : string)     (* [missing_source.append(sku)] *)
| Raise.                     (* [round2] raised [InvalidOperation] *)

Definition fill_action (pm : gmap string spec_float) (r : row) : row_action :=
  if length r <? 3 then Skip
  else
    let sku := strip (field 2 r) in
    if negb (endswith "-3050" sku) then Skip
    else if is_numeric (price_text r) then Skip
    else
      let sku1000 := replace "-3050" "-1000" sku in
      match pm !! sku1000 with
      | Some base =>
          match PyFloat.round2 (PyFloat.fmul base RATIO) with
          | Some new_price_str => Update (<[5 := new_price_str]> (pad6 r))
          | None => Raise
          end
      | None => Missing sku
      end.

Record fill_state := {
  reader_rows : table;          (* the rows of [reader] passed so far *)
  updated : nat;
  missing_source : list string
}.

Definition fill_step (pm : gmap string spec_float) (st : option fill_state)
    (r : row) : option fill_state :=
  match st with
  | None => None
  | Some s =>
      match fill_action pm r with
      | Skip =>
          Some {| reader_rows := reader_rows s ++ [r]; updated := updated s;
                  missing_source := missing_source s |}
      | Update r' =>
          Some {| reader_rows := reader_rows s ++ [r']; updated := S (updated s);
                  missing_source := missing_source s |}
      | Missing sku =>
          Some {| reader_rows := reader_rows s ++ [r]; updated := updated s;
                  missing_source := missing_source s ++ [sku] |}
      | Raise => None
      end
  end.

(** The second loop over the whole of [reader]; [None] when the script
    stops with an exception. *)
Definition fill_rows (reader : table) : option fill_state :=
  fold_left (fill_step (price_map reader)) reader
    (Some {| reader_rows := []; updated := 0; missing_source := [] |}).

(** The table in the file once the script has ended: rewritten only after a
    run that updated a row. *)
Definition stored_after_fill (reader : table) : table :=
  match fill_rows reader with
  | Some s => if 0 <? updated s then reader_rows s else reader
  | None => reader
  end.

(** The row at the same place of [reader] after the second loop. *)
Definition row_after (pm : gmap string spec_float) (r : row) : row :=
  match fill_action pm r with
  | Update r' => r'
  | _ => r
  end.

Definition is_update (a : row_action) : bool :=
  match a with Update _ => true | _ => false end.

(** ** The spreadsheet sync ([update_xlsx_from_csv.py]) *)

(** [read_csv_rows]: the rows of the file but the empty ones. *)
Definition read_csv_rows (file : table) : table :=
  List.filter (fun r => match r with [] => false | _ => true end) file.

(** [to_float] *)
Definition to_float (s : string) : option spec_float := PyFloat.float_of_string s.

(** [to_float(r[i]) if len(r) > i else None] *)
Definition float_field (i : nat) (r : row) : option spec_float :=
  if i <? length r then to_float (field i r) else None.

Definition F1000 : spec_float := PyFloat.of_decimal false 10000 (-1).
Definition F1500 : spec_float := PyFloat.of_decimal false 15000 (-1).
Definition F3050 : spec_float := PyFloat.of_int 3050.

Record rates := {
  price_per_mm : gmap string spec_float;
  cost_per_mm : gmap string spec_float;
  first_row_for_base : ODict.t row
}.

Definition rates_init : rates :=
  {| price_per_mm := ∅; cost_per_mm := ∅; first_row_for_base := [] |}.

(** [d.setdefault(k, v)] *)
Definition setdefault {V} (k : string) (v : V) (d : ODict.t V) : ODict.t V :=
  if ODict.mem k d then d else ODict.set k v d.

Definition set_rate (m : gmap string spec_float) (base : string)
    (v : option spec_float) (len : spec_float) : gmap string spec_float :=
  match v with
  | Some x => <[base := PyFloat.fdiv x len]> m
  | None => m
  end.

(** One turn of the first loop of [main]: rates from the "-1000" rows. *)
Definition rate_step_1000 (st : rates) (r : row) : rates :=
  if length r <? 3 then st
  else
    let sku := strip (field 2 r) in
    let base := sku_base sku in
    let frb := setdefault base r (first_row_for_base st) in
    let token := length_token sku in
    if String.eqb token "1000" then
      {| price_per_mm := set_rate (price_per_mm st) base (float_field 5 r) F1000;
         cost_per_mm := set_rate (cost_per_mm st) base (float_field 6 r) F1000;
         first_row_for_base := frb |}
    else
      {| price_per_mm := price_per_mm st; cost_per_mm := cost_per_mm st;
         first_row_for_base := frb |}.

(** One turn of the second loop: the fallback to the "-1500" rows. *)
Definition rate_step_1500 (st : rates) (r : row) : rates :=
  if length r <? 3 then st
  else
    let sku := strip (field 2 r) in
    let base := sku_base sku in
    let token := length_token sku in
    if bool_decide (is_Some (price_per_mm st !! base)) then st
    else if String.eqb token "1500" then
      {| price_per_mm := set_rate (price_per_mm st) base (float_field 5 r) F1500;
         cost_per_mm := set_rate (cost_per_mm st) base (float_field 6 r) F1500;
         first_row_for_base := first_row_for_base st |}
    else st.

Definition rates_1000 (rows : table) : rates :=
  fold_left rate_step_1000 rows rates_init.

Definition rates_of (rows : table) : rates :=
  fold_left rate_step_1500 rows (rates_1000 rows).

(** [f"{round(rate * 3050, 2):.2f}"] *)
Definition scaled_text (rate : spec_float) : string :=
  PyFloat.format_2f (PyFloat.round_2 (PyFloat.fmul rate F3050)).

(** One turn of the third loop: the row as it is appended to
    [updated_rows]. *)
Definition sync_row (st : rates) (r0 : row) : row :=
  let r := pad7 r0 in
  let sku := if 2 <? length r then strip (field 2 r) else EmptyString in
  let token := if String.eqb sku EmptyString then EmptyString else length_token sku in
  let base := if String.eqb sku EmptyString then EmptyString else sku_base sku in
  if String.eqb token "3050" then
    let price := to_float (field 5 r) in
    let cost := to_float (field 6 r) in
    let ppm := price_per_mm st !! base in
    let cpm := cost_per_mm st !! base in
    let r1 :=
      match price, ppm with
      | None, Some x => <[5 := scaled_text x]> r
      | _, _ => r
      end in
    match cost, cpm with
    | None, Some x => <[6 := scaled_text x]> r1
    | _, _ => r1
    end
  else r.

(** [main]: the rows appended to the sheet, from the rows of the file. *)
Definition main (file : table) : table :=
  let rows := read_csv_rows file in
  map (sync_row (rates_of rows)) rows.

(** A row of at least three fields with base key [base] and length token
    [tok], as the loops of [main] read it. *)
Definition is_rate_row (tok base : string) (r : row) : bool :=
  (3 <=? length r)
  && String.eqb (sku_base (strip (field 2 r))) base
  && String.eqb (length_token (strip (field 2 r))) tok.

(** The placeholder rows the second loop appends, in order. *)
Definition placeholders (mk : string -> row -> row) (rows : list row) : list row :=
  map (fun kv => mk (fst kv) (snd kv))
    (List.filter
       (fun kv => negb (has_3050 (base_has_3050 (scan rows)) (fst kv)))
       (base_first_row (scan rows))).

(** ** Auxiliary notions used in the statements *)

(** A character other than the separator. *)
Definition differs (sep : ascii) (c : ascii) : bool := negb (Ascii.eqb c sep).

(** A string without a line boundary. *)
Definition no_break (s : string) : bool :=
  all_chars (fun c => negb (is_linebreak c)) s.

(** A field that survives being joined with [sep], written on a line and
    read back. *)
Definition field_ok (sep : ascii) (w : string) : bool :=
  all_chars (differs sep) w && no_break w.

Definition row_ok (sep : ascii) (p : row) : Prop :=
  Forall (fun w => field_ok sep w = true) p.

(** A row whose joined line [strip] leaves alone. *)
Definition tight_row (p : row) : Prop :=
  starts_nonspace (hd EmptyString p) = true
  /\ rstrip (last_item p) = last_item p.

(** The second loop of [main] reads a "-1500" row of a base only while the
    base has no price rate; this one test guards the price and the cost. *)
Definition fallback_open (st : rates) (base : string) (r : row) : bool :=
  is_rate_row "1500" base r
  && negb (bool_decide (is_Some (price_per_mm st !! base))).

(** A character of a printed number: a decimal digit, the point or the
    minus sign. *)
Definition number_char (c : ascii) : bool :=
  PyFloat.is_ascii_digit c || Ascii.eqb c "." || Ascii.eqb c "-".

(** A row the second loop of the backfill wants a price for: three fields
    at least, a SKU ending in "-3050", no numeric price. *)
Definition needs_price (r : row) : bool :=
  (3 <=? length r)
  && endswith "-3050" (strip (field 2 r))
  && negb (is_numeric (price_text r)).

(** Whether [price_map] has the key the second loop looks up for a row. *)
Definition has_source (pm : gmap string spec_float) (r : row) : bool :=
  match pm !! replace "-3050" "-1000" (strip (field 2 r)) with
  | Some _ => true
  | None => false
  end.

(** The numeric values in column [k] of the rows with base key [base] and
    length token [tok], in table order. *)
Definition numeric_fields (k : nat) (tok base : string) (rows : table)
    : list spec_float :=
  flat_map (fun r => if is_rate_row tok base r
                     then match float_field k r with
                          | Some x => [x]
                          | None => []
                          end
                     else []) rows.

(* ================================================================== *)
(** * Properties *)

Example split_ex : split "-" "V-20-40-1000" = ["V"; "20"; "40"; "1000"].
Proof. reflexivity. Qed.
Example splitlines_ex :
  splitlines (String "a" (String "013" (String "010" (String "010" "b"))))
  = ["a"; ""; "b"].
Proof. reflexivity. Qed.
Example replace_ex : replace "-3050" "-1000" "A-3050-3050" = "A-1000-1000".
Proof. reflexivity. Qed.

Example clean_csv_ex :
  clean_csv_rows ["2,Rail B,B-20-1000,1,2,10.00,5.00"; "x,y";
                  "1,Rail A,A-20-3050,1,2,30.00,15.00";
                  "3,Rail A,A-20-TAP1-500,1,2,3,4"; "4,Rail A,A-20-2000,,,,"]
  = [["1"; "Rail A"; "A-20-3050"; "1"; "2"; "30.00"; "15.00"];
     ["2"; "Rail B"; "B-20-1000"; "1"; "2"; "10.00"; "5.00"];
     ["2"; "Rail B"; "B-20-3050"; ""; ""; ""; ""]].
Proof. vm_compute. reflexivity. Qed.

(** ** Facts about the string primitives *)

#[local] Arguments String.append !_ _ / : simpl nomatch.

Section StringFacts.

Lemma split_not_nil sep s : split sep s <> [].
Proof.
  destruct s as [|c s]; simpl; [discriminate|].
  destruct (Ascii.eqb c sep); [discriminate|].
  destruct (split sep s); discriminate.
Qed.

Lemma prefix_empty s : String.prefix EmptyString s = true.
Proof. destruct s; reflexivity. Qed.

Lemma prefix_char c c' s :
  String.prefix (String c EmptyString) (String c' s) = Ascii.eqb c' c.
Proof.
  simpl. destruct (ascii_dec c c') as [->|Hne].
  - rewrite prefix_empty, Ascii.eqb_refl. reflexivity.
  - symmetry. apply Ascii.eqb_neq. congruence.
Qed.

(** A string without the separator is a single token, and conversely. *)
Lemma split_length_contains sep s :
  (length (split sep s) <=? 1) = negb (contains (String sep EmptyString) s).
Proof.
  induction s as [|c s IH]; [reflexivity|].
  cbn [contains split]. rewrite prefix_char.
  destruct (Ascii.eqb c sep) eqn:E; simpl.
  - pose proof (split_not_nil sep s). destruct (split sep s); [congruence|reflexivity].
  - rewrite <- IH. pose proof (split_not_nil sep s).
    destruct (split sep s); [congruence|reflexivity].
Qed.

Lemma split_no_sep sep s :
  contains (String sep EmptyString) s = false -> split sep s = [s].
Proof.
  induction s as [|c s IH]; [reflexivity|].
  cbn [contains split]. rewrite prefix_char.
  destruct (Ascii.eqb c sep); simpl; [discriminate|].
  intros H. rewrite (IH H). reflexivity.
Qed.

Lemma join_cons sep x y l :
  join sep (x :: y :: l) = x +:+ sep +:+ join sep (y :: l).
Proof. reflexivity. Qed.

Lemma append_assoc (a b c : string) : (a +:+ b) +:+ c = a +:+ (b +:+ c).
Proof. induction a; simpl; congruence. Qed.

Lemma append_nil_r (a : string) : a +:+ EmptyString = a.
Proof. induction a; simpl; congruence. Qed.

(** Joining the tokens of a string gives the string back. *)
Lemma join_split sep s : join (String sep EmptyString) (split sep s) = s.
Proof.
  unfold join.
  induction s as [|c s IH]; [reflexivity|].
  cbn [split]. destruct (Ascii.eqb c sep) eqn:E.
  - apply Ascii.eqb_eq in E. subst c.
    pose proof (split_not_nil sep s) as Hn.
    destruct (split sep s) as [|w ws]; [congruence|].
    cbn. cbn in IH. rewrite IH. reflexivity.
  - pose proof (split_not_nil sep s) as Hn.
    destruct (split sep s) as [|w ws]; [congruence|].
    destruct ws as [|w' ws]; cbn in *; rewrite IH; reflexivity.
Qed.

(** Tokens of [s + sep + t]: those of [s], then those of [t]. *)
Lemma split_app sep s t :
  split sep (s +:+ String sep t) = split sep s ++ split sep t.
Proof.
  induction s as [|c s IH]; simpl.
  - rewrite Ascii.eqb_refl. reflexivity.
  - destruct (Ascii.eqb c sep); [rewrite IH; reflexivity|].
    rewrite IH. pose proof (split_not_nil sep s).
    destruct (split sep s); [congruence|reflexivity].
Qed.

Lemma removelast_snoc {A} (l : list A) x : removelast (l ++ [x]) = l.
Proof. apply removelast_last. Qed.

Lemma last_snoc {A} (l : list A) x d : List.last (l ++ [x]) d = x.
Proof. apply last_last. Qed.

End StringFacts.

(** ** The two base-key utilities *)

Lemma make_key_from_sku_eq sku :
  make_key_from_sku sku = join "-" (all_but_last (split "-" sku)).
Proof. unfold make_key_from_sku. destruct (match split "-" sku with [] => _ | _ => _ end); reflexivity. Qed.

Lemma make_key_no_hyphen sku :
  contains "-" sku = false -> make_key_from_sku sku = EmptyString.
Proof.
  intros H. rewrite make_key_from_sku_eq, (split_no_sep _ _ H). reflexivity.
Qed.

Lemma sku_base_no_hyphen sku : contains "-" sku = false -> sku_base sku = sku.
Proof.
  intros H. unfold sku_base. rewrite split_length_contains.
  change (String "-" EmptyString) with "-"%string. rewrite H. reflexivity.
Qed.

Lemma sku_base_hyphen sku :
  contains "-" sku = true ->
  sku_base sku = join "-" (all_but_last (split "-" sku)).
Proof.
  intros H. unfold sku_base. rewrite split_length_contains.
  change (String "-" EmptyString) with "-"%string. rewrite H. reflexivity.
Qed.

(** C10, as stated, fails: the empty SKU is hyphen-free and both utilities
    return the empty string on it. *)
Lemma base_keys_agree_on_empty_sku :
  ~ (forall sku, contains "-" sku = false ->
                 make_key_from_sku sku <> sku_base sku).
Proof. intros H. apply (H EmptyString); reflexivity. Qed.

(** C10 (amended): on a SKU with a hyphen both utilities return all tokens
    but the last joined by hyphens; on a hyphen-free SKU [make_key_from_sku]
    returns the empty string and [sku_base] the SKU unchanged, so the two
    differ exactly on the non-empty hyphen-free SKUs. *)
Theorem base_keys_compared (sku : string) :
  (if contains "-" sku
   then make_key_from_sku sku = join "-" (all_but_last (split "-" sku))
        /\ sku_base sku = join "-" (all_but_last (split "-" sku))
   else make_key_from_sku sku = EmptyString /\ sku_base sku = sku)
  /\ (make_key_from_sku sku = sku_base sku
      <-> contains "-" sku = true \/ sku = EmptyString).
Proof.
  destruct (contains "-" sku) eqn:H.
  - split; [split; [apply make_key_from_sku_eq | apply sku_base_hyphen, H]|].
    rewrite make_key_from_sku_eq, (sku_base_hyphen _ H). tauto.
  - rewrite (make_key_no_hyphen _ H), (sku_base_no_hyphen _ H).
    split; [tauto|]. split; [intros <-; now right|].
    intros [Hc|He]; [discriminate|now subst].
Qed.

(** ** The sort *)

Section SortFacts.

Lemma compare_refl s : String.compare s s = Eq.
Proof.
  induction s as [|c s IH]; [reflexivity|]. simpl.
  unfold Ascii.compare. rewrite N.compare_refl. exact IH.
Qed.

Lemma leb_trans a b c :
  String.leb a b = true -> String.leb b c = true -> String.leb a c = true.
Proof.
  intros H1 H2. apply Is_true_true.
  apply Is_true_true in H1, H2.
  exact (transitivity (R := String.le) H1 H2).
Qed.

Lemma compare_Lt_leb a b : String.compare a b = Lt -> String.leb a b = true.
Proof. unfold String.leb. intros ->. reflexivity. Qed.

Lemma compare_Lt_trans a b c :
  String.compare a b = Lt -> String.compare b c = Lt -> String.compare a c = Lt.
Proof.
  intros H1 H2.
  pose proof (leb_trans _ _ _ (compare_Lt_leb _ _ H1) (compare_Lt_leb _ _ H2)) as H.
  unfold String.leb in H. destruct (String.compare a c) eqn:E; try discriminate; [|reflexivity].
  apply String.compare_eq_iff in E. subst c.
  rewrite String.compare_antisym, H1 in H2. discriminate.
Qed.

Lemma key_leb_refl k : key_leb k k = true.
Proof.
  unfold key_leb. rewrite compare_refl. unfold String.leb.
  rewrite compare_refl. reflexivity.
Qed.

Lemma key_leb_total a b : key_leb a b = false -> key_leb b a = true.
Proof.
  unfold key_leb. rewrite (String.compare_antisym (fst b) (fst a)).
  destruct (String.compare (fst a) (fst b)); simpl; try discriminate; [|reflexivity].
  intros H. destruct (String.leb_total (snd a) (snd b)); congruence.
Qed.

Lemma key_leb_trans a b c :
  key_leb a b = true -> key_leb b c = true -> key_leb a c = true.
Proof.
  unfold key_leb.
  destruct (String.compare (fst a) (fst b)) eqn:E1; try discriminate;
  destruct (String.compare (fst b) (fst c)) eqn:E2; try discriminate;
  intros H1 H2.
  - apply String.compare_eq_iff in E1, E2. rewrite E1, E2, compare_refl.
    eapply leb_trans; eassumption.
  - apply String.compare_eq_iff in E1. rewrite E1, E2. reflexivity.
  - apply String.compare_eq_iff in E2. rewrite <- E2, E1. reflexivity.
  - rewrite (compare_Lt_trans _ _ _ E1 E2). reflexivity.
Qed.

#[local] Instance row_le_trans : Transitive row_le.
Proof. intros p q r. unfold row_le. apply key_leb_trans. Qed.

Lemma insert_row_perm x l : Permutation (insert_row x l) (x :: l).
Proof.
  induction l as [|y l IH]; simpl; [reflexivity|].
  destruct (key_leb (sort_key x) (sort_key y)); [reflexivity|].
  rewrite IH. apply perm_swap.
Qed.

Lemma sort_rows_perm l : Permutation (sort_rows l) l.
Proof.
  induction l as [|x l IH]; simpl; [reflexivity|].
  rewrite insert_row_perm. now constructor.
Qed.

Lemma insert_row_sorted x l : Sorted row_le l -> Sorted row_le (insert_row x l).
Proof.
  induction 1 as [|y l Hl IH Hhd]; simpl.
  - repeat constructor.
  - destruct (key_leb (sort_key x) (sort_key y)) eqn:E.
    + constructor; [constructor; assumption|]. constructor. exact E.
    + constructor; [exact IH|].
      apply key_leb_total in E.
      destruct Hhd as [|z l' Hyz]; simpl.
      * constructor. exact E.
      * destruct (key_leb (sort_key x) (sort_key z)); constructor; assumption.
Qed.

Lemma sort_rows_sorted l : Sorted row_le (sort_rows l).
Proof.
  induction l as [|x l IH]; simpl; [constructor|].
  apply insert_row_sorted, IH.
Qed.

(** Sorting a sorted table changes nothing: the sort is stable and never
    moves a row over one with an equal key. *)
Lemma sort_rows_fixed l : Sorted row_le l -> sort_rows l = l.
Proof.
  induction 1 as [|x l Hl IH Hhd]; simpl; [reflexivity|].
  rewrite IH. destruct Hhd as [|y l' Hxy]; simpl; [reflexivity|].
  unfold row_le in Hxy. rewrite Hxy. reflexivity.
Qed.

End SortFacts.

(** ** The first loop of the filter pass *)

Section ScanFacts.

Lemma scan_step_drop st p : survives p = false -> scan_step st p = st.
Proof.
  unfold survives, row_token, row_sku, scan_step.
  rewrite Nat.leb_antisym.
  destruct (length p <? 3); [reflexivity|]. simpl.
  destruct (contains "TAP1" _ || contains "TAP2" _); [reflexivity|]. simpl.
  intros ->. reflexivity.
Qed.

Lemma scan_step_keep st p :
  survives p = true ->
  scan_step st p =
    {| kept := kept st ++ [p];
       base_has_3050 :=
         if String.eqb (row_token p) "3050"
         then <[row_base p := true]> (base_has_3050 st)
         else base_has_3050 st;
       base_first_row :=
         if ODict.mem (row_base p) (base_first_row st)
         then base_first_row st
         else ODict.set (row_base p) p (base_first_row st) |}.
Proof.
  unfold survives, row_base, row_token, row_sku, scan_step.
  rewrite Nat.leb_antisym.
  destruct (length p <? 3); [discriminate|]. simpl.
  destruct (contains "TAP1" _ || contains "TAP2" _); [discriminate|]. simpl.
  intros ->. reflexivity.
Qed.

Lemma scan_kept_from rows st :
  kept (fold_left scan_step rows st) = kept st ++ survivors rows.
Proof.
  revert st. induction rows as [|p rows IH]; intros st; simpl.
  - now rewrite app_nil_r.
  - destruct (survives p) eqn:E.
    + rewrite IH, (scan_step_keep _ _ E). simpl. now rewrite <- app_assoc.
    + rewrite (scan_step_drop _ _ E). apply IH.
Qed.

Lemma scan_kept rows : kept (scan rows) = survivors rows.
Proof. apply scan_kept_from. Qed.

Lemma has_3050_insert m k b :
  has_3050 (<[k := true]> m) b = String.eqb k b || has_3050 m b.
Proof.
  unfold has_3050. destruct (String.eqb_spec k b) as [->|Hne].
  - now rewrite lookup_insert_eq.
  - now rewrite lookup_insert_ne.
Qed.

Lemma scan_has_3050_from rows st b :
  has_3050 (base_has_3050 (fold_left scan_step rows st)) b
  = has_3050 (base_has_3050 st) b || existsb (is_3050_of b) (survivors rows).
Proof.
  revert st. induction rows as [|p rows IH]; intros st; simpl.
  - now rewrite orb_false_r.
  - destruct (survives p) eqn:E.
    + rewrite IH, (scan_step_keep _ _ E). simpl. unfold is_3050_of at 2.
      destruct (String.eqb (row_token p) "3050").
      * rewrite has_3050_insert, andb_true_r.
        destruct (has_3050 (base_has_3050 st) b), (String.eqb (row_base p) b);
          reflexivity.
      * now rewrite andb_false_r.
    + rewrite (scan_step_drop _ _ E). apply IH.
Qed.

Lemma scan_has_3050 rows b :
  has_3050 (base_has_3050 (scan rows)) b
  = existsb (is_3050_of b) (survivors rows).
Proof. unfold scan. rewrite scan_has_3050_from. reflexivity. Qed.

Lemma get_set_absent {V} k (v : V) d b :
  ODict.mem k d = false ->
  ODict.get b (ODict.set k v d)
  = match ODict.get b d with
    | Some w => Some w
    | None => if String.eqb k b then Some v else None
    end.
Proof.
  unfold ODict.mem. induction d as [|[k' v'] d IH]; simpl; [reflexivity|].
  destruct (String.eqb_spec k' k) as [->|Hne]; [discriminate|]. intros H. simpl.
  destruct (String.eqb k' b); [reflexivity|]. apply IH, H.
Qed.

Lemma set_absent {V} k (v : V) d :
  ODict.mem k d = false -> ODict.set k v d = d ++ [(k, v)].
Proof.
  unfold ODict.mem. induction d as [|[k' v'] d IH]; simpl; [reflexivity|].
  destruct (String.eqb k' k); [discriminate|]. intros H. now rewrite IH.
Qed.

Lemma get_None_keys {V} k (d : ODict.t V) :
  ODict.get k d = None <-> ~ In k (ODict.keys d).
Proof.
  induction d as [|[k' v'] d IH]; simpl; [tauto|].
  destruct (String.eqb_spec k' k) as [->|Hne].
  - split; [discriminate|]. intros H. exfalso. apply H. now left.
  - rewrite IH. tauto.
Qed.

Lemma get_In {V} k (v : V) d :
  NoDup (ODict.keys d) -> In (k, v) d -> ODict.get k d = Some v.
Proof.
  induction d as [|[k' v'] d IH]; simpl; [tauto|].
  intros Hnd [Heq|Hin].
  - inversion Heq; subst. now rewrite String.eqb_refl.
  - inversion Hnd as [|? ? Hni Hnd']; subst.
    destruct (String.eqb_spec k' k) as [->|Hne].
    + exfalso. apply Hni, list_elem_of_In.
      change k with (fst (k, v)). now apply in_map.
    + now apply IH.
Qed.

Lemma scan_first_row_from rows st b :
  ODict.get b (base_first_row (fold_left scan_step rows st))
  = match ODict.get b (base_first_row st) with
    | Some v => Some v
    | None => first_of_base b (survivors rows)
    end.
Proof.
  revert st. induction rows as [|p rows IH]; intros st; simpl.
  - now destruct (ODict.get b (base_first_row st)).
  - destruct (survives p) eqn:E.
    + rewrite IH, (scan_step_keep _ _ E). simpl.
      destruct (ODict.mem (row_base p) (base_first_row st)) eqn:M.
      * destruct (ODict.get b (base_first_row st)) eqn:G; [reflexivity|].
        destruct (String.eqb_spec (row_base p) b) as [<-|]; [|reflexivity].
        unfold ODict.mem in M. now rewrite G in M.
      * rewrite (get_set_absent _ _ _ _ M).
        destruct (ODict.get b (base_first_row st)); [reflexivity|].
        now destruct (String.eqb (row_base p) b).
    + rewrite (scan_step_drop _ _ E). apply IH.
Qed.

Lemma scan_first_row rows b :
  ODict.get b (base_first_row (scan rows)) = first_of_base b (survivors rows).
Proof. unfold scan. now rewrite scan_first_row_from. Qed.

Lemma scan_keys_nodup_from rows st :
  NoDup (ODict.keys (base_first_row st)) ->
  NoDup (ODict.keys (base_first_row (fold_left scan_step rows st))).
Proof.
  revert st. induction rows as [|p rows IH]; intros st Hnd; simpl; [exact Hnd|].
  apply IH. destruct (survives p) eqn:E.
  - rewrite (scan_step_keep _ _ E). simpl.
    destruct (ODict.mem (row_base p) (base_first_row st)) eqn:M; [exact Hnd|].
    rewrite (set_absent _ _ _ M). unfold ODict.keys. rewrite map_app. simpl.
    apply NoDup_app. split; [exact Hnd|]. split; [|apply NoDup_singleton].
    intros k Hk Hk'. apply list_elem_of_singleton in Hk'. subst k.
    unfold ODict.mem in M.
    destruct (ODict.get (row_base p) (base_first_row st)) eqn:G; [discriminate|].
    apply get_None_keys in G. apply G. now apply list_elem_of_In.
  - now rewrite (scan_step_drop _ _ E).
Qed.

Lemma scan_keys_nodup rows : NoDup (ODict.keys (base_first_row (scan rows))).
Proof. apply scan_keys_nodup_from. constructor. Qed.

(** Every entry of [base_first_row] holds the first kept row of its base. *)
Lemma scan_entry rows k v :
  In (k, v) (base_first_row (scan rows)) ->
  first_of_base k (survivors rows) = Some v.
Proof.
  intros Hin. rewrite <- scan_first_row.
  apply get_In; [apply scan_keys_nodup | exact Hin].
Qed.

Lemma first_of_base_Some b l v :
  first_of_base b l = Some v -> In v l /\ row_base v = b.
Proof.
  intros H. apply find_some in H. destruct H as [H1 H2].
  split; [exact H1|]. now apply String.eqb_eq.
Qed.

Lemma add_missing_eq mk st :
  add_missing mk st
  = kept st
    ++ map (fun kv => mk (fst kv) (snd kv))
         (List.filter (fun kv => negb (has_3050 (base_has_3050 st) (fst kv)))
            (base_first_row st)).
Proof.
  unfold add_missing. generalize (kept st) as acc.
  induction (base_first_row st) as [|kv d IH]; intros acc; simpl.
  - now rewrite app_nil_r.
  - destruct (negb (has_3050 (base_has_3050 st) (fst kv))); simpl.
    + rewrite IH, <- app_assoc. reflexivity.
    + apply IH.
Qed.

End ScanFacts.

(** ** Stripping, tokens and the SKU of a placeholder row *)

Section KeyFacts.

Lemma lstrip_fixed s : starts_nonspace s = true -> lstrip s = s.
Proof. destruct s as [|c s]; simpl; [reflexivity|]. now destruct (is_space c). Qed.

Lemma lstrip_starts s : starts_nonspace (lstrip s) = true.
Proof.
  induction s as [|c s IH]; simpl; [reflexivity|].
  destruct (is_space c) eqn:E; [exact IH|]. simpl. now rewrite E.
Qed.

Lemma rstrip_starts s : starts_nonspace s = true -> starts_nonspace (rstrip s) = true.
Proof.
  destruct s as [|c s]; simpl; [reflexivity|]. intros H.
  destruct (rstrip s); [|exact H].
  destruct (is_space c) eqn:E; [reflexivity|]. simpl. now rewrite E.
Qed.

Lemma strip_starts s : starts_nonspace (strip s) = true.
Proof. apply rstrip_starts, lstrip_starts. Qed.

Lemma rstrip_app_fixed a t :
  rstrip t = t -> t <> EmptyString -> rstrip (a +:+ t) = a +:+ t.
Proof.
  intros Ht Hne. induction a as [|c a IH]; simpl; [exact Ht|].
  rewrite IH. destruct (a +:+ t) eqn:E; [|reflexivity].
  destruct a; simpl in E; congruence.
Qed.

Lemma rstrip_idem s : rstrip (rstrip s) = rstrip s.
Proof.
  induction s as [|c s IH]; simpl; [reflexivity|].
  destruct (rstrip s) as [|c' r] eqn:E.
  - destruct (is_space c) eqn:Ec; simpl; [reflexivity|]. now rewrite Ec.
  - simpl in *. rewrite IH. reflexivity.
Qed.

Lemma strip_idem s : strip (strip s) = strip s.
Proof.
  unfold strip. rewrite (lstrip_fixed (rstrip (lstrip s))).
  - apply rstrip_idem.
  - apply rstrip_starts, lstrip_starts.
Qed.

Lemma join_snoc sep l x :
  l <> [] -> join sep (l ++ [x]) = join sep l +:+ sep +:+ x.
Proof.
  unfold join. induction l as [|y l IH]; [congruence|]. intros _.
  destruct l as [|z l]; [reflexivity|].
  change (String.concat sep ((y :: z :: l) ++ [x]))
    with (y +:+ sep +:+ String.concat sep ((z :: l) ++ [x])).
  rewrite IH by discriminate.
  change (String.concat sep (y :: z :: l))
    with (y +:+ sep +:+ String.concat sep (z :: l)).
  now rewrite !append_assoc.
Qed.

(** A SKU with a hyphen is its base key, a hyphen and its length token. *)
Lemma sku_decompose sku :
  contains "-" sku = true ->
  sku = make_key_from_sku sku +:+ String "-" (last_item (split "-" sku)).
Proof.
  intros H. rewrite make_key_from_sku_eq.
  pose proof (join_split "-" sku) as J.
  pose proof (split_length_contains "-" sku) as L.
  change (String "-" EmptyString) with "-"%string in L. rewrite H in L.
  rewrite (app_removelast_last EmptyString (split_not_nil "-" sku)) in J.
  rewrite join_snoc in J.
  - symmetry. exact J.
  - intros E. unfold all_but_last in *. simpl in L.
    destruct (split "-" sku) as [|a [|b l]]; simpl in *; congruence.
Qed.

Lemma split_3050 b : split "-" (b +:+ "-3050") = split "-" b ++ ["3050"].
Proof. apply (split_app "-" b "3050"). Qed.

Lemma make_key_3050 b : make_key_from_sku (b +:+ "-3050") = b.
Proof.
  rewrite make_key_from_sku_eq, split_3050. unfold all_but_last.
  rewrite removelast_snoc. apply (join_split "-").
Qed.

Lemma token_3050 b : last_item (split "-" (b +:+ "-3050")) = "3050".
Proof. rewrite split_3050. apply last_snoc. Qed.

(** The base key of a stripped SKU, extended by "-3050", is stripped. *)
Lemma strip_key_3050 x :
  strip (make_key_from_sku (strip x) +:+ "-3050")
  = make_key_from_sku (strip x) +:+ "-3050".
Proof.
  unfold strip at 1. rewrite lstrip_fixed.
  - apply rstrip_app_fixed; [reflexivity|discriminate].
  - destruct (contains "-" (strip x)) eqn:H.
    + pose proof (strip_starts x) as S.
      rewrite (sku_decompose _ H) in S.
      destruct (make_key_from_sku (strip x)); [reflexivity|exact S].
    + now rewrite (make_key_no_hyphen _ H).
Qed.

Lemma prefix_app_l sub b t :
  String.prefix sub b = true -> String.prefix sub (b +:+ t) = true.
Proof.
  revert b. induction sub as [|a sub IH]; intros b; [intros _; apply prefix_empty|].
  destruct b as [|c b]; simpl; [discriminate|].
  destruct (ascii_dec a c); [apply IH|discriminate].
Qed.

Lemma contains_app_l sub b t :
  contains sub b = true -> contains sub (b +:+ t) = true.
Proof.
  induction b as [|c b IH]; cbn [contains].
  - rewrite orb_false_r. intros H.
    destruct sub; [|discriminate]. destruct t; reflexivity.
  - intros H. apply orb_true_iff in H. apply orb_true_iff.
    destruct H as [H|H]; [left; apply (prefix_app_l sub (String c b) t H)|].
    right. apply IH, H.
Qed.

(** An occurrence of a hyphen-free marker in [b + "-" + t] that starts
    inside [b] lies inside [b]. *)
Lemma prefix_before_hyphen sub b t t' :
  contains "-" sub = false ->
  String.prefix sub (b +:+ String "-" t) = String.prefix sub (b +:+ String "-" t').
Proof.
  revert b. induction sub as [|a sub IH]; intros b Hs; [now rewrite !prefix_empty|].
  cbn [contains] in Hs. rewrite prefix_char in Hs.
  apply orb_false_iff in Hs. destruct Hs as [Ha Hs].
  destruct b as [|c b]; simpl.
  - destruct (ascii_dec a "-") as [->|]; [discriminate|reflexivity].
  - destruct (ascii_dec a c); [apply IH, Hs|reflexivity].
Qed.

Lemma contains_before_hyphen sub b t t' :
  contains "-" sub = false ->
  contains sub (b +:+ String "-" t) = true ->
  contains sub (b +:+ String "-" t') = true \/ contains sub (String "-" t) = true.
Proof.
  intros Hs. induction b as [|c b IH]; [now right|].
  change (String c b +:+ String "-" t) with (String c (b +:+ String "-" t)).
  change (String c b +:+ String "-" t') with (String c (b +:+ String "-" t')).
  cbn [contains]. intros H. apply orb_true_iff in H. destruct H as [H|H].
  - left. apply orb_true_iff. left.
    change (String c (b +:+ String "-" t')) with (String c b +:+ String "-" t').
    rewrite (prefix_before_hyphen sub (String c b) t' t Hs). exact H.
  - destruct (IH H) as [H'|H']; [left|now right].
    apply orb_true_iff. now right.
Qed.

(** Extending the base key of a marker-free SKU by "-3050" brings in no
    marker. *)
Lemma marker_free_3050 sub sku :
  contains "-" sub = false ->
  contains sub "-3050" = false ->
  contains sub sku = false ->
  contains sub (make_key_from_sku sku +:+ "-3050") = false.
Proof.
  intros Hs H3 Hsku. destruct (contains "-" sku) eqn:H.
  - destruct (contains sub (make_key_from_sku sku +:+ "-3050")) eqn:C; [|reflexivity].
    apply (contains_before_hyphen sub _ "3050" (last_item (split "-" sku)) Hs) in C.
    rewrite <- (sku_decompose _ H) in C. destruct C; congruence.
  - rewrite (make_key_no_hyphen _ H). exact H3.
Qed.

End KeyFacts.

(** ** Placeholder rows *)

Section PlaceholderFacts.

Lemma pad7_length r : length (pad7 r) = Nat.max 7 (length r).
Proof. unfold pad7. rewrite length_app, repeat_length. lia. Qed.

Lemma field_insert i j x (r : row) :
  field i (<[j := x]> r)
  = if (i =? j) && (j <? length r) then x else field i r.
Proof.
  unfold field. rewrite !nth_lookup.
  destruct (Nat.eqb_spec i j) as [->|Hne]; simpl.
  - destruct (Nat.ltb_spec j (length r)).
    + now rewrite list_lookup_insert_eq.
    + now rewrite list_insert_ge by lia.
  - now rewrite list_lookup_insert_ne by congruence.
Qed.

Lemma blank_numeric_length r : length (blank_numeric r) = length r.
Proof. unfold blank_numeric. now rewrite !length_insert. Qed.

Lemma new_3050_row_same b fp : new_3050_row_csv b fp = new_3050_row_txt b fp.
Proof.
  unfold new_3050_row_csv, new_3050_row_txt.
  rewrite length_insert, pad7_length.
  destruct (Nat.leb_spec 7 (Nat.max 7 (length fp))); [reflexivity|lia].
Qed.

(** The placeholder keeps id and description, takes the SKU [b + "-3050"],
    has fields 3 to 6 blank and keeps what the copied row has beyond. *)
Lemma new_3050_row_shape b fp :
  3 <= length fp ->
  new_3050_row_csv b fp
  = [field 0 fp; field 1 fp; b +:+ "-3050";
     EmptyString; EmptyString; EmptyString; EmptyString] ++ drop 7 fp.
Proof.
  intros H. rewrite new_3050_row_same. unfold new_3050_row_txt, pad7, field.
  destruct fp as [|f0 [|f1 [|f2 [|f3 [|f4 [|f5 [|f6 fp]]]]]]];
    simpl in H; try lia; try reflexivity.
  cbn. now rewrite app_nil_r.
Qed.

Lemma new_3050_row_length b fp : 7 <= length (new_3050_row_csv b fp).
Proof.
  rewrite new_3050_row_same. unfold new_3050_row_txt.
  rewrite blank_numeric_length, length_insert, pad7_length. lia.
Qed.

Lemma new_3050_row_sku b fp : field 2 (new_3050_row_csv b fp) = b +:+ "-3050".
Proof.
  rewrite new_3050_row_same. unfold new_3050_row_txt, blank_numeric.
  rewrite !field_insert, !length_insert, pad7_length. simpl.
  destruct (Nat.ltb_spec 2 (Nat.max 7 (length fp))); [reflexivity|lia].
Qed.

Lemma new_3050_row_stripped fp :
  row_sku (new_3050_row_csv (row_base fp) fp) = row_base fp +:+ "-3050".
Proof.
  unfold row_sku at 1. rewrite new_3050_row_sku.
  unfold row_base, row_sku. apply strip_key_3050.
Qed.

Lemma new_3050_row_base fp :
  row_base (new_3050_row_csv (row_base fp) fp) = row_base fp
  /\ row_token (new_3050_row_csv (row_base fp) fp) = "3050".
Proof.
  unfold row_base at 1, row_token. rewrite new_3050_row_stripped.
  split; [apply make_key_3050|apply token_3050].
Qed.

Lemma new_3050_row_survives fp :
  survives fp = true -> survives (new_3050_row_csv (row_base fp) fp) = true.
Proof.
  intros H. unfold survives in *.
  destruct (new_3050_row_base fp) as [_ Ht]. rewrite Ht.
  pose proof (new_3050_row_length (row_base fp) fp) as L.
  apply andb_true_iff in H. destruct H as [H _].
  apply andb_true_iff in H. destruct H as [_ H].
  apply negb_true_iff, orb_false_iff in H. destruct H as [H1 H2].
  rewrite new_3050_row_stripped. unfold row_base.
  rewrite (marker_free_3050 "TAP1" (row_sku fp)) by (reflexivity || assumption).
  rewrite (marker_free_3050 "TAP2" (row_sku fp)) by (reflexivity || assumption).
  fold (row_base fp).
  destruct (Nat.leb_spec 3 (length (new_3050_row_csv (row_base fp) fp)));
    [reflexivity|lia].
Qed.

Lemma survivors_In rows p : In p (survivors rows) <-> In p rows /\ survives p = true.
Proof. apply filter_In. Qed.

(** What the placeholder rows are, without the dictionaries. *)
Lemma placeholders_In mk rows q :
  In q (placeholders mk rows) <->
  exists b fp,
    first_of_base b (survivors rows) = Some fp
    /\ existsb (is_3050_of b) (survivors rows) = false
    /\ q = mk b fp.
Proof.
  unfold placeholders. rewrite in_map_iff. split.
  - intros [[b fp] [<- Hin]]. apply filter_In in Hin. destruct Hin as [Hin Hno].
    simpl in *. exists b, fp. rewrite <- scan_has_3050.
    split; [now apply scan_entry|]. split; [now apply negb_true_iff|reflexivity].
  - intros (b & fp & Hf & Hno & ->). exists (b, fp). split; [reflexivity|].
    apply filter_In. simpl. rewrite scan_has_3050, Hno. split; [|reflexivity].
    rewrite <- scan_first_row in Hf. clear Hno.
    induction (base_first_row (scan rows)) as [|[k v] d IH]; simpl in *; [discriminate|].
    destruct (String.eqb_spec k b) as [->|]; [left; congruence|right; now apply IH].
Qed.

Lemma clean_rows_perm mk rows :
  Permutation (clean_rows mk rows) (survivors rows ++ placeholders mk rows).
Proof.
  unfold clean_rows. rewrite sort_rows_perm, add_missing_eq, scan_kept. reflexivity.
Qed.

Lemma clean_rows_In mk rows p :
  In p (clean_rows mk rows) <-> In p (survivors rows) \/ In p (placeholders mk rows).
Proof.
  rewrite <- in_app_iff. split; apply Permutation_in;
    [|symmetry]; apply clean_rows_perm.
Qed.

(** Every row of the output passes the test of the first loop. *)
Lemma clean_rows_survive rows p :
  In p (clean_rows new_3050_row_csv rows) -> survives p = true.
Proof.
  rewrite clean_rows_In. intros [H|H].
  - now apply survivors_In in H.
  - apply placeholders_In in H. destruct H as (b & fp & Hf & _ & ->).
    apply first_of_base_Some in Hf. destruct Hf as [Hin <-].
    apply new_3050_row_survives. now apply survivors_In in Hin.
Qed.

End PlaceholderFacts.

(** ** Counting the 3050 rows of a base *)

Section CountFacts.

Lemma count_3050_app b l1 l2 :
  count_3050 b (l1 ++ l2) = count_3050 b l1 + count_3050 b l2.
Proof. unfold count_3050. now rewrite List.filter_app, length_app. Qed.

Lemma count_3050_perm b l1 l2 :
  Permutation l1 l2 -> count_3050 b l1 = count_3050 b l2.
Proof.
  unfold count_3050. induction 1 as [|x l l' _ IH|x y l|l l' l'' _ IH1 _ IH2]; simpl.
  - reflexivity.
  - destruct (is_3050_of b x); simpl; congruence.
  - destruct (is_3050_of b x), (is_3050_of b y); reflexivity.
  - congruence.
Qed.

Lemma count_3050_zero b l :
  count_3050 b l = 0 <-> existsb (is_3050_of b) l = false.
Proof.
  unfold count_3050. induction l as [|x l IH]; simpl; [tauto|].
  destruct (is_3050_of b x); simpl; [split; discriminate|exact IH].
Qed.

Lemma get_Some_keys {V} k (v : V) d :
  ODict.get k d = Some v -> In k (ODict.keys d).
Proof.
  induction d as [|[k' v'] d IH]; simpl; [discriminate|].
  destruct (String.eqb_spec k' k) as [->|]; [now left|]. intros H. right. now apply IH.
Qed.

Lemma count_key {V} b (d : ODict.t V) :
  NoDup (ODict.keys d) ->
  length (List.filter (fun kv => String.eqb (fst kv) b) d)
  = if ODict.mem b d then 1 else 0.
Proof.
  unfold ODict.mem. induction d as [|[k v] d IH]; simpl; [reflexivity|].
  intros Hnd. apply NoDup_cons in Hnd. destruct Hnd as [Hni Hnd].
  destruct (String.eqb_spec k b) as [->|Hne]; simpl.
  - rewrite (IH Hnd).
    destruct (ODict.get b d) eqn:G; [|reflexivity].
    exfalso. apply Hni, list_elem_of_In. eapply get_Some_keys, G.
  - apply IH, Hnd.
Qed.

Lemma length_filter_map {A B} (f : B -> bool) (g : A -> B) l :
  length (List.filter f (map g l)) = length (List.filter (fun x => f (g x)) l).
Proof.
  induction l as [|x l IH]; simpl; [reflexivity|].
  destruct (f (g x)); simpl; congruence.
Qed.

Lemma filter_filter_key {V} (f : string -> bool) b (d : ODict.t V) :
  List.filter (fun kv => String.eqb (fst kv) b)
    (List.filter (fun kv => f (fst kv)) d)
  = if f b then List.filter (fun kv => String.eqb (fst kv) b) d else [].
Proof.
  induction d as [|[k v] d IH]; simpl; [now destruct (f b)|].
  destruct (String.eqb_spec k b) as [->|Hne].
  - destruct (f b) eqn:E; simpl.
    + rewrite String.eqb_refl, IH. reflexivity.
    + exact IH.
  - destruct (f k); simpl; [|exact IH].
    destruct (String.eqb_spec k b); [congruence|exact IH].
Qed.

(** A base has one placeholder when rows of it are kept and none of them
    is a 3050 row, and none otherwise. *)
Lemma count_3050_placeholders rows b :
  count_3050 b (placeholders new_3050_row_csv rows)
  = if existsb (is_3050_of b) (survivors rows) then 0
    else match first_of_base b (survivors rows) with
         | Some _ => 1
         | None => 0
         end.
Proof.
  unfold count_3050, placeholders. rewrite length_filter_map.
  rewrite (filter_ext_in _ (fun kv => String.eqb (fst kv) b)).
  - rewrite (filter_filter_key (fun k => negb (has_3050 (base_has_3050 (scan rows)) k))).
    rewrite scan_has_3050.
    destruct (existsb (is_3050_of b) (survivors rows)); [reflexivity|]. simpl.
    rewrite count_key by apply scan_keys_nodup.
    unfold ODict.mem. rewrite scan_first_row.
    now destruct (first_of_base b (survivors rows)).
  - intros [k v] Hin. apply filter_In in Hin. destruct Hin as [Hin _]. simpl.
    apply scan_entry, first_of_base_Some in Hin. destruct Hin as [_ <-].
    unfold is_3050_of. destruct (new_3050_row_base v) as [-> ->].
    now rewrite andb_true_r.
Qed.

Lemma first_of_base_In b l p :
  In p l -> row_base p = b -> exists fp, first_of_base b l = Some fp.
Proof.
  intros Hin Hb. destruct (first_of_base b l) eqn:F; [eauto|].
  exfalso. apply (find_none _ _ F) in Hin. rewrite Hb, String.eqb_refl in Hin.
  discriminate.
Qed.

(** The base of an output row is the base of a kept row. *)
Lemma clean_rows_base rows p :
  In p (clean_rows new_3050_row_csv rows) ->
  exists fp, first_of_base (row_base p) (survivors rows) = Some fp.
Proof.
  rewrite clean_rows_In. intros [H|H].
  - eapply first_of_base_In; [exact H|reflexivity].
  - apply placeholders_In in H. destruct H as (b & fp & Hf & _ & ->).
    destruct (first_of_base_Some _ _ _ Hf) as [_ <-].
    destruct (new_3050_row_base fp) as [-> _]. eauto.
Qed.

Lemma count_3050_clean rows b :
  (exists p, In p (clean_rows new_3050_row_csv rows) /\ row_base p = b) ->
  count_3050 b (clean_rows new_3050_row_csv rows)
  = Nat.max 1 (count_3050 b (survivors rows)).
Proof.
  intros (p & Hp & <-). apply clean_rows_base in Hp. destruct Hp as [fp Hf].
  rewrite (count_3050_perm _ _ _ (clean_rows_perm _ rows)), count_3050_app.
  rewrite count_3050_placeholders, Hf.
  destruct (existsb _ (survivors rows)) eqn:E.
  - destruct (count_3050 (row_base p) (survivors rows)) eqn:C; [|lia].
    apply count_3050_zero in C. congruence.
  - apply count_3050_zero in E. rewrite E. reflexivity.
Qed.

End CountFacts.

(** ** The filter pass: sortedness and the 3050 invariant *)

Lemma row_le_lex p q :
  row_le p q <->
  String.compare (field 1 p) (field 1 q) = Lt
  \/ (field 1 p = field 1 q /\ String.leb (field 2 p) (field 2 q) = true).
Proof.
  unfold row_le, key_leb, sort_key. simpl.
  destruct (String.compare (field 1 p) (field 1 q)) eqn:E.
  - apply String.compare_eq_iff in E. split; [now right|].
    intros [H|[_ H]]; [discriminate|exact H].
  - split; [now left|reflexivity].
  - split; [discriminate|]. intros [H|[H _]]; [discriminate|].
    rewrite H, compare_refl in E. discriminate.
Qed.

(** C9: the rows written by the filter pass are in non-decreasing order of
    (description, SKU), each compared as a string, character by character
    ([row_le], spelled out by [row_le_lex]); every row is below or equal to
    every later row.  This holds for the comma-delimited pass and for the
    tab-delimited pass. *)
Theorem filter_output_sorted (lines : list string) :
  StronglySorted row_le (clean_csv_rows lines)
  /\ StronglySorted row_le (clean_txt_rows lines).
Proof.
  split; apply Sorted_StronglySorted;
    try (intros p q r; apply row_le_trans); apply sort_rows_sorted.
Qed.

(** C3, as stated, fails: two kept rows with the same "-3050" SKU are both
    written. *)
Lemma two_3050_rows_of_one_base :
  ~ (forall lines b,
        (exists p, In p (clean_csv_rows lines) /\ row_base p = b) ->
        count_3050 b (clean_csv_rows lines) = 1).
Proof.
  intros H.
  specialize (H ["7,Rail,A-20-3050,1,2,12.00,6.00";
                 "8,Rail,A-20-3050,1,2,13.00,6.50"] "A-20"%string).
  assert (count_3050 "A-20"
            (clean_csv_rows ["7,Rail,A-20-3050,1,2,12.00,6.00";
                             "8,Rail,A-20-3050,1,2,13.00,6.50"]) = 2) as E
    by (vm_compute; reflexivity).
  rewrite E in H. enough (2 = 1) by discriminate. apply H.
  exists ["7"; "Rail"; "A-20-3050"; "1"; "2"; "12.00"; "6.00"].
  split; vm_compute; auto.
Qed.

(** C3 (amended): for every base key present in the output of the filter
    pass, the output has at least one row of that base with length token
    "3050": as many as the kept input rows have, and one when they have
    none.  In that case the row is the placeholder built from the first kept
    row of the base: its id and description, the SKU [b + "-3050"], fields 3
    to 6 blank, and whatever the copied row holds from field 7 on. *)
Theorem at_least_one_3050_row_per_base (lines : list string) (b : string) :
  (exists p, In p (clean_csv_rows lines) /\ row_base p = b) ->
  count_3050 b (clean_csv_rows lines)
  = Nat.max 1 (count_3050 b (survivors (map parse_line_csv lines)))
  /\ (count_3050 b (survivors (map parse_line_csv lines)) = 0 ->
      exists fp,
        first_of_base b (survivors (map parse_line_csv lines)) = Some fp
        /\ In (new_3050_row_csv b fp) (clean_csv_rows lines)
        /\ new_3050_row_csv b fp
           = [field 0 fp; field 1 fp; b +:+ "-3050";
              EmptyString; EmptyString; EmptyString; EmptyString] ++ drop 7 fp).
Proof.
  intros Hb. unfold clean_csv_rows. split; [now apply count_3050_clean|].
  intros C. destruct Hb as (p & Hp & <-).
  destruct (clean_rows_base _ _ Hp) as [fp Hf]. exists fp.
  split; [exact Hf|]. split.
  - apply clean_rows_In. right. apply placeholders_In.
    exists (row_base p), fp. split; [exact Hf|]. split; [|reflexivity].
    now apply count_3050_zero.
  - apply new_3050_row_shape.
    apply first_of_base_Some in Hf. destruct Hf as [Hin _].
    apply survivors_In in Hin. destruct Hin as [_ Hs]. unfold survives in Hs.
    apply andb_true_iff in Hs. destruct Hs as [Hs _].
    apply andb_true_iff in Hs. destruct Hs as [Hs _].
    now apply Nat.leb_le.
Qed.

Lemma at_least_one_3050_row_per_base_witness :
  count_3050 "B-20" (clean_csv_rows ["2,Rail B,B-20-1000,1,2,10.00,5.00"]) = 1.
Proof.
  refine (proj1 (at_least_one_3050_row_per_base
                   ["2,Rail B,B-20-1000,1,2,10.00,5.00"] "B-20" _)).
  exists ["2"; "Rail B"; "B-20-1000"; "1"; "2"; "10.00"; "5.00"].
  split; vm_compute; auto.
Defined.

(** ** Characters of fields and lines *)

Section CharFacts.
Variable P : ascii -> bool.

Lemma all_chars_app a b : all_chars P (a +:+ b) = all_chars P a && all_chars P b.
Proof. induction a as [|c a IH]; simpl; [reflexivity|]. now rewrite IH, andb_assoc. Qed.

Lemma all_chars_lstrip s : all_chars P s = true -> all_chars P (lstrip s) = true.
Proof.
  induction s as [|c s IH]; simpl; [reflexivity|]. intros H.
  destruct (is_space c); [|exact H].
  apply andb_true_iff in H. now apply IH.
Qed.

Lemma all_chars_rstrip s : all_chars P s = true -> all_chars P (rstrip s) = true.
Proof.
  induction s as [|c s IH]; simpl; [reflexivity|]. intros H.
  apply andb_true_iff in H. destruct H as [Hc Hs]. specialize (IH Hs).
  destruct (rstrip s); simpl in *.
  - destruct (is_space c); simpl; [reflexivity|]. now rewrite Hc.
  - now rewrite Hc.
Qed.

Lemma all_chars_strip s : all_chars P s = true -> all_chars P (strip s) = true.
Proof. intros H. apply all_chars_rstrip, all_chars_lstrip, H. Qed.

Lemma all_chars_split sep s :
  all_chars P s = true -> Forall (fun w => all_chars P w = true) (split sep s).
Proof.
  induction s as [|c s IH]; simpl; intros H; [now repeat constructor|].
  apply andb_true_iff in H. destruct H as [Hc Hs]. specialize (IH Hs).
  destruct (Ascii.eqb c sep); [now constructor|].
  destruct (split sep s) as [|w ws]; [now repeat constructor; simpl; rewrite Hc|].
  inversion IH; subst. constructor; [simpl; now rewrite Hc|assumption].
Qed.

Lemma all_chars_join sep l :
  all_chars P sep = true ->
  Forall (fun w => all_chars P w = true) l ->
  all_chars P (join sep l) = true.
Proof.
  intros Hsep. unfold join. induction 1 as [|x l Hx Hl IH]; [reflexivity|].
  destruct l as [|y l]; [exact Hx|].
  change (String.concat sep (x :: y :: l))
    with (x +:+ sep +:+ String.concat sep (y :: l)).
  now rewrite !all_chars_app, Hx, Hsep, IH.
Qed.

Lemma all_chars_make_key s :
  all_chars P s = true -> all_chars P (make_key_from_sku s) = true.
Proof.
  intros H. destruct (contains "-" s) eqn:E.
  - rewrite (sku_decompose _ E), all_chars_app in H.
    now apply andb_true_iff in H.
  - now rewrite (make_key_no_hyphen _ E).
Qed.

End CharFacts.

Section SplitJoin.

Lemma split_parts_free sep s :
  Forall (fun w => all_chars (differs sep) w = true) (split sep s).
Proof.
  induction s as [|c s IH]; simpl; [now repeat constructor|].
  destruct (Ascii.eqb c sep) eqn:E; [now constructor|].
  destruct (split sep s) as [|w ws];
    [repeat constructor; simpl; unfold differs; now rewrite E|].
  inversion IH; subst. constructor; [|assumption].
  simpl. unfold differs at 1. now rewrite E.
Qed.

Lemma split_free sep s : all_chars (differs sep) s = true -> split sep s = [s].
Proof.
  induction s as [|c s IH]; simpl; [reflexivity|]. unfold differs at 1.
  destruct (Ascii.eqb c sep); simpl; [discriminate|]. intros H. now rewrite IH.
Qed.

(** Splitting a joined row gives the row back when no field holds the
    separator. *)
Lemma split_join sep l :
  l <> [] ->
  Forall (fun w => all_chars (differs sep) w = true) l ->
  split sep (join (String sep EmptyString) l) = l.
Proof.
  intros Hne H. unfold join. induction H as [|x l Hx Hl IH]; [congruence|].
  destruct l as [|y l]; [simpl; now apply split_free|].
  change (String.concat (String sep EmptyString) (x :: y :: l))
    with (x +:+ String sep (String.concat (String sep EmptyString) (y :: l))).
  rewrite split_app, IH by discriminate. now rewrite (split_free _ _ Hx).
Qed.

Lemma splitlines_line l rest :
  no_break l = true ->
  splitlines (l +:+ String "010" rest) = l :: splitlines rest.
Proof.
  unfold no_break. induction l as [|c l IH]; simpl.
  - intros _. now destruct rest.
  - intros H. apply andb_true_iff in H. destruct H as [Hc Hl].
    apply negb_true_iff in Hc. rewrite Hc, (IH Hl). reflexivity.
Qed.

Lemma splitlines_write ls :
  Forall (fun l => no_break l = true) ls ->
  ls <> [] ->
  splitlines (join NL ls +:+ NL) = ls.
Proof.
  unfold join, NL. induction 1 as [|l ls Hl Hls IH]; [congruence|]. intros _.
  destruct ls as [|l2 ls].
  - simpl. now rewrite splitlines_line.
  - change (String.concat (String "010" EmptyString) (l :: l2 :: ls))
      with (l +:+ String "010" (String.concat (String "010" EmptyString) (l2 :: ls))).
    rewrite append_assoc.
    change (String "010" (String.concat (String "010" "") (l2 :: ls)) +:+ String "010" "")
      with (String "010" (String.concat (String "010" "") (l2 :: ls) +:+ String "010" "")).
    rewrite splitlines_line by exact Hl. now rewrite IH.
Qed.

Lemma splitlines_no_break s : Forall (fun l => no_break l = true) (splitlines s).
Proof.
  assert (forall n s, String.length s <= n ->
            Forall (fun l => no_break l = true) (splitlines s)) as H.
  { clear s. induction n as [|n IH]; intros s Hs.
    - destruct s; [constructor|simpl in Hs; lia].
    - destruct s as [|c s]; [constructor|]. simpl in Hs. cbn [splitlines].
      destruct (is_linebreak c) eqn:E.
      + destruct s as [|c' s]; [now repeat constructor|].
        destruct (Ascii.eqb c "013" && Ascii.eqb c' "010").
        * constructor; [reflexivity|]. apply IH. simpl in Hs. lia.
        * constructor; [reflexivity|]. apply IH. lia.
      + assert (String.length s <= n) as Hs' by lia. specialize (IH s Hs').
        destruct (splitlines s) as [|l ls].
        * repeat constructor. unfold no_break. simpl. now rewrite E.
        * inversion IH; subst. constructor; [|assumption].
          unfold no_break in *. simpl. now rewrite E. }
  apply (H (String.length s)). lia.
Qed.

End SplitJoin.

(** ** Reading back what the filter pass wrote *)

Section RoundTrip.

Lemma rstrip_empty_spaces s : rstrip s = EmptyString -> all_chars is_space s = true.
Proof.
  induction s as [|c s IH]; simpl; [reflexivity|].
  destruct (rstrip s); [|discriminate].
  destruct (is_space c); [intros _; now apply IH|discriminate].
Qed.

Lemma lstrip_spaces s : all_chars is_space (lstrip s) = all_chars is_space s.
Proof.
  induction s as [|c s IH]; simpl; [reflexivity|].
  destruct (is_space c) eqn:E; simpl; [exact IH|now rewrite E].
Qed.

Lemma strip_empty_iff s : strip s = EmptyString <-> all_chars is_space s = true.
Proof.
  unfold strip. split.
  - intros H. apply rstrip_empty_spaces in H. now rewrite lstrip_spaces in H.
  - intros H. assert (lstrip s = EmptyString) as ->; [|reflexivity].
    induction s as [|c s IH]; simpl in *; [reflexivity|].
    apply andb_true_iff in H. destruct H as [-> H]. now apply IH.
Qed.

Lemma join_has_nonspace sep l w :
  In w l -> all_chars is_space w = false -> all_chars is_space (join sep l) = false.
Proof.
  unfold join. induction l as [|x l IH]; [intros []|]. intros Hin Hw.
  destruct l as [|y l].
  - destruct Hin as [->|[]]. exact Hw.
  - change (String.concat sep (x :: y :: l))
      with (x +:+ sep +:+ String.concat sep (y :: l)).
    rewrite !all_chars_app. destruct Hin as [->|Hin].
    + now rewrite Hw.
    + rewrite (IH Hin Hw). now rewrite !andb_false_r.
Qed.

Lemma survives_length p : survives p = true -> 3 <= length p.
Proof.
  unfold survives. intros H. apply andb_true_iff in H. destruct H as [H _].
  apply andb_true_iff in H. destruct H as [H _]. now apply Nat.leb_le.
Qed.

(** The line written for a kept row is not blank. *)
Lemma survives_nonblank sep p : survives p = true -> nonblank (join sep p) = true.
Proof.
  intros H. pose proof (survives_length _ H) as L.
  unfold nonblank. apply negb_true_iff, String.eqb_neq. intros E.
  apply strip_empty_iff in E.
  enough (all_chars is_space (join sep p) = false) by congruence.
  apply (join_has_nonspace sep p (field 2 p)); [apply nth_In; lia|].
  destruct (all_chars is_space (field 2 p)) eqn:S; [|reflexivity].
  apply strip_empty_iff in S. unfold survives, row_token, row_sku in H.
  rewrite S in H. simpl in H. now rewrite andb_false_r in H.
Qed.

Lemma filter_all {A} (f : A -> bool) l :
  Forall (fun x => f x = true) l -> List.filter f l = l.
Proof. induction 1 as [|x l Hx _ IH]; simpl; [reflexivity|]. now rewrite Hx, IH. Qed.

Lemma read_write sep rows :
  Forall (fun p => no_break (join sep p) = true /\ nonblank (join sep p) = true) rows ->
  read_lines (write_lines sep rows) = map (join sep) rows.
Proof.
  intros H. unfold read_lines, write_lines.
  destruct rows as [|p rows]; [reflexivity|].
  rewrite splitlines_write.
  - apply filter_all. apply Forall_map. eapply Forall_impl; [exact H|].
    intros q [_ Hq]. exact Hq.
  - apply Forall_map. eapply Forall_impl; [exact H|]. intros q [Hq _]. exact Hq.
  - discriminate.
Qed.

(** *** Tight rows: what [parse_line_csv] produces *)

Lemma rstrip_app_nonempty a t :
  rstrip t <> EmptyString -> rstrip (a +:+ t) = a +:+ rstrip t.
Proof.
  intros Ht. induction a as [|c a IH]; simpl; [reflexivity|].
  rewrite IH. destruct (a +:+ rstrip t) eqn:E; [|reflexivity].
  destruct a; simpl in E; congruence.
Qed.

Lemma rstrip_sep a c z :
  is_space c = false -> rstrip (a +:+ String c z) = a +:+ String c (rstrip z).
Proof.
  intros Hc.
  assert (rstrip (String c z) = String c (rstrip z)) as E.
  { simpl. destruct (rstrip z); [now rewrite Hc|reflexivity]. }
  rewrite rstrip_app_nonempty; rewrite E; [reflexivity|discriminate].
Qed.

Lemma split_hd_starts sep s :
  starts_nonspace s = true -> starts_nonspace (hd EmptyString (split sep s)) = true.
Proof.
  destruct s as [|c s]; simpl; [reflexivity|]. intros H.
  destruct (Ascii.eqb c sep); [reflexivity|].
  destruct (split sep s); exact H.
Qed.

Lemma split_last_rstrip sep s :
  rstrip s = s -> rstrip (last_item (split sep s)) = last_item (split sep s).
Proof.
  unfold last_item. induction s as [|c s IH]; [reflexivity|]. intros H.
  assert (rstrip s = s /\ (s = EmptyString -> is_space c = false)) as [Hs Hc].
  { simpl in H. destruct (rstrip s) eqn:E.
    - destruct (is_space c); [discriminate|]. inversion H; subst. now split.
    - inversion H as [H']. split; [congruence|]. intros E0. subst s. discriminate. }
  specialize (IH Hs). cbn [split].
  pose proof (split_not_nil sep s) as Hn.
  destruct (Ascii.eqb c sep).
  - destruct (split sep s) as [|w ws] eqn:E; [congruence|]. exact IH.
  - destruct (split sep s) as [|w ws] eqn:E; [congruence|].
    destruct ws as [|w' ws]; [|exact IH]. simpl in *.
    rewrite IH. destruct w; [|reflexivity].
    assert (s = EmptyString) as Hs0.
    { rewrite <- (join_split sep s), E. reflexivity. }
    now rewrite (Hc Hs0).
Qed.

Lemma starts_before_sep a c t t' :
  starts_nonspace (a +:+ String c t) = true ->
  starts_nonspace (a +:+ String c t') = true.
Proof. destruct a; exact id. Qed.

End RoundTrip.

Section Idempotence.

Lemma row_ok_split sep s : no_break s = true -> row_ok sep (split sep s).
Proof.
  intros H. unfold row_ok, field_ok.
  pose proof (split_parts_free sep s) as H1.
  pose proof (all_chars_split _ sep s H) as H2.
  induction H1 as [|w ws Hw _ IH]; [constructor|].
  inversion H2; subst. constructor; [|now apply IH].
  unfold no_break. now apply andb_true_iff.
Qed.

Lemma row_ok_parse_csv l : no_break l = true -> row_ok COMMA (parse_line_csv l).
Proof. intros H. apply row_ok_split. now apply all_chars_strip. Qed.

Lemma row_ok_parse_txt l : no_break l = true -> row_ok TAB (parse_line_txt l).
Proof. apply row_ok_split. Qed.

Lemma tight_parse_csv l : tight_row (parse_line_csv l).
Proof.
  split.
  - apply split_hd_starts, strip_starts.
  - apply split_last_rstrip. unfold strip. apply rstrip_idem.
Qed.

Lemma field_ok_nth sep p i : row_ok sep p -> field_ok sep (field i p) = true.
Proof.
  intros H. unfold field. destruct (Nat.lt_ge_cases i (length p)) as [Hi|Hi].
  - eapply (proj1 (List.Forall_forall _ _) H), nth_In, Hi.
  - now rewrite nth_overflow.
Qed.

Lemma field_ok_app sep a b :
  field_ok sep (a +:+ b) = field_ok sep a && field_ok sep b.
Proof.
  unfold field_ok, no_break. rewrite !all_chars_app.
  destruct (all_chars (differs sep) a), (all_chars (differs sep) b),
    (all_chars (fun c => negb (is_linebreak c)) a); reflexivity.
Qed.

Lemma field_ok_base sep w : field_ok sep w = true -> field_ok sep (make_key_from_sku (strip w)) = true.
Proof.
  unfold field_ok, no_break. intros H. apply andb_true_iff in H. destruct H as [H1 H2].
  apply andb_true_iff. split; apply all_chars_make_key, all_chars_strip; assumption.
Qed.

Lemma row_ok_placeholder sep fp :
  field_ok sep "-3050" = true -> row_ok sep fp -> 3 <= length fp ->
  row_ok sep (new_3050_row_csv (row_base fp) fp).
Proof.
  intros H3 H L. rewrite (new_3050_row_shape _ _ L). unfold row_ok.
  apply Forall_app. split; [|now apply Forall_drop].
  repeat constructor; try now apply field_ok_nth.
  rewrite field_ok_app, H3, andb_true_r. unfold row_base, row_sku.
  apply field_ok_base. now apply field_ok_nth.
Qed.

Lemma last_drop (l : row) n d : drop n l <> [] -> List.last (drop n l) d = List.last l d.
Proof.
  revert l. induction n as [|n IH]; intros l H; [reflexivity|].
  destruct l as [|x l]; [reflexivity|]. simpl in *. rewrite (IH l H).
  destruct l; [now destruct n|reflexivity].
Qed.

Lemma last_app_r (l1 l2 : row) d :
  l2 <> [] -> List.last (l1 ++ l2) d = List.last l2 d.
Proof.
  intros H. induction l1 as [|x l1 IH]; [reflexivity|]. simpl.
  destruct (l1 ++ l2) eqn:E; [|exact IH].
  destruct l1, l2; simpl in E; congruence.
Qed.

Lemma tight_placeholder b fp :
  tight_row fp -> 3 <= length fp -> tight_row (new_3050_row_csv b fp).
Proof.
  intros [H1 H2] L. rewrite (new_3050_row_shape _ _ L). split.
  - destruct fp; [simpl in L; lia|exact H1].
  - unfold last_item in *. destruct (drop 7 fp) eqn:E; [reflexivity|].
    rewrite <- E.
    rewrite last_app_r by (rewrite E; discriminate).
    rewrite last_drop by (rewrite E; discriminate). exact H2.
Qed.

Lemma no_break_join sep p :
  is_linebreak sep = false -> row_ok sep p -> no_break (join (String sep EmptyString) p) = true.
Proof.
  intros Hs H. apply all_chars_join; [simpl; now rewrite Hs|].
  eapply Forall_impl; [exact H|]. intros w Hw.
  unfold field_ok in Hw. now apply andb_true_iff in Hw.
Qed.

Lemma row_ok_free sep p : row_ok sep p -> Forall (fun w => all_chars (differs sep) w = true) p.
Proof.
  intros H. eapply Forall_impl; [exact H|]. intros w Hw.
  unfold field_ok in Hw. now apply andb_true_iff in Hw.
Qed.

Lemma txt_roundtrip p :
  row_ok TAB p -> p <> [] -> parse_line_txt (join (String TAB EmptyString) p) = p.
Proof. intros H Hn. apply split_join; [exact Hn|now apply row_ok_free]. Qed.

Lemma csv_roundtrip p :
  row_ok COMMA p -> tight_row p -> 2 <= length p ->
  parse_line_csv (join (String COMMA EmptyString) p) = p.
Proof.
  intros H [T1 T2] L. unfold parse_line_csv.
  assert (strip (join (String COMMA EmptyString) p) = join (String COMMA EmptyString) p) as ->.
  { assert (p <> []) as Hn by (destruct p; [simpl in L; lia|discriminate]).
    rewrite (app_removelast_last EmptyString Hn) in *.
    assert (removelast p <> []) as Hr.
    { destruct p as [|x [|y p]]; simpl in *; try lia; discriminate. }
    set (q := removelast p) in *. set (z := List.last p EmptyString) in *.
    unfold last_item in T2. rewrite last_snoc in T2.
    rewrite join_snoc by exact Hr. unfold strip.
    rewrite lstrip_fixed.
    - change (String COMMA EmptyString +:+ z) with (String COMMA z).
      rewrite rstrip_sep by reflexivity. now rewrite T2.
    - destruct q as [|x [|y q]]; [congruence| |].
      + simpl in *. destruct x; [reflexivity|exact T1].
      + unfold join.
        change (String.concat (String COMMA EmptyString) (x :: y :: q))
          with (x +:+ String COMMA (String.concat (String COMMA EmptyString) (y :: q))).
        simpl in T1. destruct x; [reflexivity|exact T1]. }
  apply split_join; [destruct p; [simpl in L; lia|discriminate]|now apply row_ok_free].
Qed.

Lemma clean_rows_txt_csv rows :
  clean_rows new_3050_row_txt rows = clean_rows new_3050_row_csv rows.
Proof.
  unfold clean_rows. rewrite !add_missing_eq. do 2 f_equal.
  apply map_ext. intros kv. symmetry. apply new_3050_row_same.
Qed.

(** An invariant of the kept rows that placeholders preserve holds of all
    output rows. *)
Lemma clean_rows_inv (Q : row -> Prop) rows :
  (forall p, In p rows -> survives p = true -> Q p) ->
  (forall fp, Q fp -> survives fp = true -> Q (new_3050_row_csv (row_base fp) fp)) ->
  forall p, In p (clean_rows new_3050_row_csv rows) -> Q p.
Proof.
  intros HQ Hmk p Hp. apply clean_rows_In in Hp. destruct Hp as [Hp|Hp].
  - apply survivors_In in Hp. now apply HQ.
  - apply placeholders_In in Hp. destruct Hp as (b & fp & Hf & _ & ->).
    apply first_of_base_Some in Hf. destruct Hf as [Hin <-].
    apply survivors_In in Hin. destruct Hin as [Hin Hs].
    apply Hmk; [now apply HQ|exact Hs].
Qed.

(** On rows: a second run keeps every row, adds no placeholder and leaves
    the order alone. *)
Lemma clean_rows_idem rows :
  let out := clean_rows new_3050_row_csv rows in
  survivors out = out
  /\ placeholders new_3050_row_csv out = []
  /\ clean_rows new_3050_row_csv out = out.
Proof.
  intros out.
  assert (survivors out = out) as Hs.
  { apply filter_all, List.Forall_forall. intros p Hp. eapply clean_rows_survive, Hp. }
  assert (placeholders new_3050_row_csv out = []) as Hp.
  { destruct (placeholders new_3050_row_csv out) as [|q l] eqn:E; [reflexivity|].
    exfalso. assert (In q (placeholders new_3050_row_csv out)) as Hq
      by (rewrite E; now left).
    apply placeholders_In in Hq. destruct Hq as (b & fp & Hf & Hno & _).
    rewrite Hs in *. apply first_of_base_Some in Hf. destruct Hf as [Hin Hb].
    apply count_3050_zero in Hno.
    unfold out in Hno. rewrite count_3050_clean in Hno by eauto. lia. }
  split; [exact Hs|]. split; [exact Hp|].
  unfold clean_rows at 1. rewrite add_missing_eq, scan_kept.
  fold (placeholders new_3050_row_csv out). rewrite Hs, Hp, app_nil_r.
  apply sort_rows_fixed, sort_rows_sorted.
Qed.

End Idempotence.

Section TextIdempotence.

Lemma map_fixed {A} (f : A -> A) l : (forall x, In x l -> f x = x) -> map f l = l.
Proof.
  induction l as [|x l IH]; intros H; simpl; [reflexivity|].
  rewrite H by now left. rewrite IH; [reflexivity|]. intros y Hy. apply H. now right.
Qed.

Lemma read_lines_no_break text l : In l (read_lines text) -> no_break l = true.
Proof.
  unfold read_lines. intros H. apply filter_In in H. destruct H as [H _].
  exact (proj1 (List.Forall_forall _ _) (splitlines_no_break text) l H).
Qed.

Lemma csv_rows_inv text p :
  In p (clean_csv_rows (read_lines text)) ->
  row_ok COMMA p /\ tight_row p /\ survives p = true.
Proof.
  intros Hp. split; [|split]; [| |eapply clean_rows_survive, Hp];
    revert p Hp; apply clean_rows_inv.
  - intros p Hp _. apply in_map_iff in Hp. destruct Hp as (l & <- & Hl).
    apply row_ok_parse_csv. eapply read_lines_no_break, Hl.
  - intros fp H Hs. apply row_ok_placeholder; [reflexivity|exact H|].
    now apply survives_length.
  - intros p Hp _. apply in_map_iff in Hp. destruct Hp as (l & <- & Hl).
    apply tight_parse_csv.
  - intros fp H Hs. apply tight_placeholder; [exact H|now apply survives_length].
Qed.

Lemma txt_rows_inv text p :
  In p (clean_txt_rows (read_lines text)) ->
  row_ok TAB p /\ survives p = true.
Proof.
  unfold clean_txt_rows. rewrite clean_rows_txt_csv.
  intros Hp. split; [|eapply clean_rows_survive, Hp].
  revert p Hp; apply clean_rows_inv.
  - intros p Hp _. apply in_map_iff in Hp. destruct Hp as (l & <- & Hl).
    apply row_ok_parse_txt. eapply read_lines_no_break, Hl.
  - intros fp H Hs. apply row_ok_placeholder; [reflexivity|exact H|].
    now apply survives_length.
Qed.

(** The comma-delimited pass reads back exactly the rows it wrote. *)
Lemma csv_read_back text :
  map parse_line_csv (read_lines (clean_csv text)) = clean_csv_rows (read_lines text).
Proof.
  unfold clean_csv. rewrite read_write.
  - rewrite map_map. apply map_fixed. intros p Hp.
    destruct (csv_rows_inv _ _ Hp) as (H1 & H2 & H3).
    apply csv_roundtrip; [exact H1|exact H2|].
    apply survives_length in H3. lia.
  - apply List.Forall_forall. intros p Hp.
    destruct (csv_rows_inv _ _ Hp) as (H1 & H2 & H3). split.
    + now apply no_break_join.
    + now apply survives_nonblank.
Qed.

Lemma txt_read_back text :
  map parse_line_txt (read_lines (clean_txt text)) = clean_txt_rows (read_lines text).
Proof.
  unfold clean_txt. rewrite read_write.
  - rewrite map_map. apply map_fixed. intros p Hp.
    destruct (txt_rows_inv _ _ Hp) as (H1 & H3).
    apply txt_roundtrip; [exact H1|].
    apply survives_length in H3. destruct p; [simpl in H3; lia|discriminate].
  - apply List.Forall_forall. intros p Hp.
    destruct (txt_rows_inv _ _ Hp) as (H1 & H3). split.
    + now apply no_break_join.
    + now apply survives_nonblank.
Qed.

End TextIdempotence.

(** C5: the filter pass is idempotent.  Run on the text it wrote, the
    comma-delimited pass writes the same text again, and so does the
    tab-delimited pass.  For the comma-delimited pass the second run reads
    back the rows of the first ([csv_read_back]), keeps all of them, builds
    no placeholder, and its sort changes nothing. *)
Theorem filter_pass_idempotent (text : string) :
  clean_csv (clean_csv text) = clean_csv text
  /\ clean_txt (clean_txt text) = clean_txt text
  /\ (let out := clean_csv_rows (read_lines text) in
      map parse_line_csv (read_lines (clean_csv text)) = out
      /\ survivors out = out
      /\ placeholders new_3050_row_csv out = []
      /\ sort_rows out = out).
Proof.
  pose proof (clean_rows_idem (map parse_line_csv (read_lines text))) as (H1 & H2 & H3).
  pose proof (clean_rows_idem (map parse_line_txt (read_lines text))) as (_ & _ & H4).
  fold (clean_csv_rows (read_lines text)) in H1, H2, H3.
  rewrite <- clean_rows_txt_csv in H4. fold (clean_txt_rows (read_lines text)) in H4.
  split; [|split].
  - unfold clean_csv at 1. unfold clean_csv_rows at 1.
    rewrite csv_read_back, H3. reflexivity.
  - unfold clean_txt at 1. unfold clean_txt_rows at 1.
    rewrite txt_read_back. rewrite clean_rows_txt_csv.
    unfold clean_txt_rows at 1. rewrite clean_rows_txt_csv.
    unfold clean_txt_rows in H4. rewrite clean_rows_txt_csv in H4. rewrite H4.
    unfold clean_txt, clean_txt_rows. now rewrite clean_rows_txt_csv.
  - cbv zeta. split; [apply csv_read_back|]. split; [exact H1|]. split; [exact H2|].
    apply sort_rows_fixed, sort_rows_sorted.
Qed.

(** ** The price backfill *)

Section BackfillFacts.




Lemma fill_fold_None pm rows : fold_left (fill_step pm) rows None = None.
Proof. induction rows as [|r rows IH]; [reflexivity|exact IH]. Qed.

Lemma fill_fold_inv pm rows s s' :
  fold_left (fill_step pm) rows (Some s) = Some s' ->
  reader_rows s' = reader_rows s ++ map (row_after pm) rows
  /\ updated s'
     = updated s + length (List.filter (fun r => is_update (fill_action pm r)) rows).
Proof.
  revert s. induction rows as [|r rows IH]; intros s; simpl.
  - intros H. inversion H; subst. now rewrite app_nil_r, Nat.add_0_r.
  - unfold row_after. destruct (fill_action pm r) eqn:A; simpl.
    + intros H. apply IH in H. simpl in H. now rewrite <- app_assoc in H.
    + intros H. apply IH in H. simpl in H. rewrite <- app_assoc in H.
      destruct H as [H1 H2]. split; [exact H1|]. rewrite H2. lia.
    + intros H. apply IH in H. simpl in H. now rewrite <- app_assoc in H.
    + rewrite fill_fold_None. discriminate.
Qed.

Lemma fill_fold_total pm rows s :
  (forall r, In r rows -> fill_action pm r <> Raise) ->
  exists s', fold_left (fill_step pm) rows (Some s) = Some s'.
Proof.
  revert s. induction rows as [|r rows IH]; intros s H; simpl; [eauto|].
  assert (fill_action pm r <> Raise) as Hr by (apply H; now left).
  destruct (fill_action pm r); try congruence; apply IH; intros r' Hr'; apply H; now right.
Qed.

Lemma fill_rows_inv reader s :
  fill_rows reader = Some s ->
  reader_rows s = map (row_after (price_map reader)) reader
  /\ updated s
     = length (List.filter (fun r => is_update (fill_action (price_map reader) r)) reader).
Proof. intros H. apply fill_fold_inv in H. exact H. Qed.

Lemma fill_action_Update pm r r' :
  fill_action pm r = Update r' ->
  3 <= length r
  /\ endswith "-3050" (strip (field 2 r)) = true
  /\ is_numeric (price_text r) = false
  /\ exists v s,
       pm !! replace "-3050" "-1000" (strip (field 2 r)) = Some v
       /\ PyFloat.round2 (PyFloat.fmul v RATIO) = Some s
       /\ r' = <[5 := s]> (pad6 r).
Proof.
  unfold fill_action. destruct (Nat.ltb_spec (length r) 3); [discriminate|].
  destruct (endswith "-3050" (strip (field 2 r))); [|discriminate]. cbn [negb].
  destruct (is_numeric (price_text r)); [discriminate|].
  destruct (pm !! replace "-3050" "-1000" (strip (field 2 r))) as [v|]; [|discriminate].
  destruct (PyFloat.round2 (PyFloat.fmul v RATIO)) as [s|] eqn:R; [|discriminate].
  intros Hu. inversion Hu; subst. repeat split; try lia. exists v, s. auto.
Qed.

Lemma field_pad r k j : field j (r ++ repeat EmptyString k) = field j r.
Proof.
  unfold field. destruct (Nat.lt_ge_cases j (length r)) as [Hj|Hj].
  - now rewrite app_nth1.
  - rewrite app_nth2, (nth_overflow r) by lia.
    generalize (j - length r). induction k as [|k IH]; intros [|n]; simpl; auto.
Qed.

Lemma field_update_other r s j : j <> 5 -> field j (<[5 := s]> (pad6 r)) = field j r.
Proof.
  intros Hj. rewrite field_insert. destruct (Nat.eqb_spec j 5); [congruence|].
  apply field_pad.
Qed.


End BackfillFacts.

(** C4, at a SKU whose base holds "-3050": the key looked up is not the base
    with suffix "-1000".  For the row with SKU "A-3050-3050" the script
    looks up "A-1000-1000", finds nothing, leaves the price blank and lists
    the SKU as missing, although the row "A-3050-1000" has the price
    "100.00". *)
Theorem backfill_replaces_every_3050 :
  let reader := [["1"; "Rail"; "A-3050-1000"; ""; ""; "100.00"; "50.00"];
                 ["2"; "Rail"; "A-3050-3050"; ""; ""; ""; ""]] in
  replace "-3050" "-1000" "A-3050-3050" = "A-1000-1000"
  /\ sku_base "A-3050-3050" +:+ "-1000" = "A-3050-1000"
  /\ price_map reader !! "A-3050-1000" = PyFloat.float_of_string "100.00"
  /\ fill_rows reader
     = Some {| reader_rows := reader; updated := 0;
               missing_source := ["A-3050-3050"] |}
  /\ stored_after_fill reader = reader.
Proof. vm_compute. repeat split; reflexivity. Qed.

(** C8: the backfill leaves the stored table as it was unless a row was
    updated; a run that stops with an exception writes nothing.  When it
    rewrites the file, the table keeps its rows in order, and a row differs
    from the input row only if its SKU ends in "-3050", and then only in
    field 5, the row being first padded with empty fields up to that
    column; read with missing fields as empty strings, every field other
    than 5 is as in the input. *)
Theorem backfill_frame (reader : table) :
  (match fill_rows reader with
   | Some s => updated s = 0
   | None => True
   end -> stored_after_fill reader = reader)
  /\ (stored_after_fill reader <> reader ->
      exists s, fill_rows reader = Some s /\ 0 < updated s
                /\ stored_after_fill reader = reader_rows s)
  /\ length (stored_after_fill reader) = length reader
  /\ forall i r r',
       reader !! i = Some r -> stored_after_fill reader !! i = Some r' ->
       (r' = r
        \/ (3 <= length r /\ endswith "-3050" (strip (field 2 r)) = true
            /\ exists s, r' = <[5 := s]> (pad6 r)))
       /\ forall j, j <> 5 -> field j r' = field j r.
Proof.
  unfold stored_after_fill. destruct (fill_rows reader) as [s|] eqn:F.
  - destruct (fill_rows_inv _ _ F) as [Hrows Hupd].
    destruct (Nat.ltb_spec 0 (updated s)) as [U|U].
    + split; [intros H0; lia|]. split; [eauto|].
      split; [rewrite Hrows; apply length_map|].
      intros i r r' Hi Hi'. rewrite Hrows in Hi'.
      change (map (row_after (price_map reader)) reader)
        with (row_after (price_map reader) <$> reader) in Hi'.
      rewrite list_lookup_fmap, Hi in Hi'. simpl in Hi'. inversion Hi'; subst r'.
      unfold row_after. destruct (fill_action (price_map reader) r) eqn:A;
        try (split; [now left|reflexivity]).
      apply fill_action_Update in A.
      destruct A as (L & E & _ & v & t & _ & _ & ->).
      split; [right; eauto|]. intros j Hj. now apply field_update_other.
    + split; [reflexivity|]. split; [congruence|]. split; [reflexivity|].
      intros i r r' Hi Hi'. rewrite Hi in Hi'. inversion Hi'; subst.
      split; [now left|reflexivity].
  - split; [reflexivity|]. split; [congruence|]. split; [reflexivity|].
    intros i r r' Hi Hi'. rewrite Hi in Hi'. inversion Hi'; subst.
    split; [now left|reflexivity].
Qed.

Lemma backfill_frame_witness :
  let reader := [["1"; "Rail A"; "A-20-1000"; "1"; "2"; "100.00"; "50.00"];
                 ["2"; "Rail A"; "A-20-3050"]] in
  stored_after_fill reader
  = [["1"; "Rail A"; "A-20-1000"; "1"; "2"; "100.00"; "50.00"];
     ["2"; "Rail A"; "A-20-3050"; ""; ""; "305.00"]]
  /\ field 4 ["2"; "Rail A"; "A-20-3050"; ""; ""; "305.00"]
     = field 4 ["2"; "Rail A"; "A-20-3050"].
Proof.
  intros reader. split; [vm_compute; reflexivity|].
  apply (proj2 (proj2 (proj2 (proj2 (backfill_frame reader)))
                  1 ["2"; "Rail A"; "A-20-3050"]
                  ["2"; "Rail A"; "A-20-3050"; ""; ""; "305.00"]
                  eq_refl ltac:(vm_compute; reflexivity))).
  lia.
Defined.




(** The condition on the run is needed: where [round2] raises, here on an
    infinite price of another base, the script stops before it writes, and
    the blank price of "A-20-3050" stays blank in the file. *)
Example backfill_stops_when_round2_raises :
  let reader := [["1"; "Rail A"; "A-20-1000"; "1"; "2"; "100.00"; "50.00"];
                 ["2"; "Rail A"; "A-20-3050"; "1"; "2"; ""; ""];
                 ["3"; "Rail B"; "B-20-1000"; "1"; "2"; "inf"; ""];
                 ["4"; "Rail B"; "B-20-3050"; "1"; "2"; ""; ""]] in
  fill_rows reader = None /\ stored_after_fill reader = reader.
Proof. vm_compute. split; reflexivity. Qed.

(** ** The spreadsheet sync: the rates *)

Section RateFacts.

Lemma set_rate_lookup m b v len base :
  set_rate m b v len !! base
  = match v with
    | Some x => if String.eqb b base then Some (PyFloat.fdiv x len) else m !! base
    | None => m !! base
    end.
Proof.
  unfold set_rate. destruct v as [x|]; [|reflexivity].
  destruct (String.eqb_spec b base) as [->|Hne].
  - apply lookup_insert_eq.
  - now apply lookup_insert_ne.
Qed.

Lemma is_rate_row_spec tok base r :
  is_rate_row tok base r = true <->
  3 <= length r /\ sku_base (strip (field 2 r)) = base
  /\ length_token (strip (field 2 r)) = tok.
Proof.
  unfold is_rate_row. rewrite !andb_true_iff, Nat.leb_le, !String.eqb_eq. tauto.
Qed.

Lemma step_1000_price st r base :
  price_per_mm (rate_step_1000 st r) !! base
  = if is_rate_row "1000" base r
    then match float_field 5 r with
         | Some x => Some (PyFloat.fdiv x F1000)
         | None => price_per_mm st !! base
         end
    else price_per_mm st !! base.
Proof.
  unfold rate_step_1000, is_rate_row. rewrite Nat.leb_antisym.
  destruct (length r <? 3); [reflexivity|]. cbn [negb andb].
  destruct (String.eqb (length_token (strip (field 2 r))) "1000");
    cbn [price_per_mm]; [|now rewrite andb_false_r].
  rewrite set_rate_lookup, andb_true_r.
  destruct (float_field 5 r); [|now destruct (String.eqb _ base)]. reflexivity.
Qed.

Lemma step_1000_cost st r base :
  cost_per_mm (rate_step_1000 st r) !! base
  = if is_rate_row "1000" base r
    then match float_field 6 r with
         | Some x => Some (PyFloat.fdiv x F1000)
         | None => cost_per_mm st !! base
         end
    else cost_per_mm st !! base.
Proof.
  unfold rate_step_1000, is_rate_row. rewrite Nat.leb_antisym.
  destruct (length r <? 3); [reflexivity|]. cbn [negb andb].
  destruct (String.eqb (length_token (strip (field 2 r))) "1000");
    cbn [cost_per_mm]; [|now rewrite andb_false_r].
  rewrite set_rate_lookup, andb_true_r.
  destruct (float_field 6 r); [|now destruct (String.eqb _ base)]. reflexivity.
Qed.

Lemma step_1500_price st r base :
  price_per_mm (rate_step_1500 st r) !! base
  = if fallback_open st base r
    then match float_field 5 r with
         | Some x => Some (PyFloat.fdiv x F1500)
         | None => price_per_mm st !! base
         end
    else price_per_mm st !! base.
Proof.
  unfold rate_step_1500, fallback_open, is_rate_row. rewrite Nat.leb_antisym.
  destruct (length r <? 3); [reflexivity|]. cbn [negb andb].
  destruct (String.eqb_spec (sku_base (strip (field 2 r))) base) as [E|E].
  - rewrite E. destruct (bool_decide (is_Some (price_per_mm st !! base)));
      [now rewrite andb_false_r|].
    destruct (String.eqb (length_token (strip (field 2 r))) "1500");
      cbn [price_per_mm andb negb]; [|reflexivity].
    rewrite set_rate_lookup, String.eqb_refl. reflexivity.
  - cbn [andb].
    destruct (bool_decide (is_Some (price_per_mm st !! _))); [reflexivity|].
    destruct (String.eqb (length_token (strip (field 2 r))) "1500");
      cbn [price_per_mm]; [|reflexivity].
    rewrite set_rate_lookup.
    destruct (String.eqb_spec (sku_base (strip (field 2 r))) base); [congruence|].
    now destruct (float_field 5 r).
Qed.

Lemma step_1500_cost st r base :
  cost_per_mm (rate_step_1500 st r) !! base
  = if fallback_open st base r
    then match float_field 6 r with
         | Some x => Some (PyFloat.fdiv x F1500)
         | None => cost_per_mm st !! base
         end
    else cost_per_mm st !! base.
Proof.
  unfold rate_step_1500, fallback_open, is_rate_row. rewrite Nat.leb_antisym.
  destruct (length r <? 3); [reflexivity|]. cbn [negb andb].
  destruct (String.eqb_spec (sku_base (strip (field 2 r))) base) as [E|E].
  - rewrite E. destruct (bool_decide (is_Some (price_per_mm st !! base)));
      [now rewrite andb_false_r|].
    destruct (String.eqb (length_token (strip (field 2 r))) "1500");
      cbn [cost_per_mm andb negb]; [|reflexivity].
    rewrite set_rate_lookup, String.eqb_refl. reflexivity.
  - cbn [andb].
    destruct (bool_decide (is_Some (price_per_mm st !! _))); [reflexivity|].
    destruct (String.eqb (length_token (strip (field 2 r))) "1500");
      cbn [cost_per_mm]; [|reflexivity].
    rewrite set_rate_lookup.
    destruct (String.eqb_spec (sku_base (strip (field 2 r))) base); [congruence|].
    now destruct (float_field 6 r).
Qed.

(** Once a base has a price rate, the second loop leaves both its rates
    alone. *)
Lemma fallback_frozen rows st base :
  is_Some (price_per_mm st !! base) ->
  price_per_mm (fold_left rate_step_1500 rows st) !! base = price_per_mm st !! base
  /\ cost_per_mm (fold_left rate_step_1500 rows st) !! base = cost_per_mm st !! base.
Proof.
  revert st. induction rows as [|r rows IH]; intros st H; simpl; [now split|].
  assert (fallback_open st base r = false) as G.
  { unfold fallback_open. rewrite (bool_decide_eq_true_2 _ H). apply andb_false_r. }
  pose proof (step_1500_price st r base) as P.
  pose proof (step_1500_cost st r base) as C. rewrite G in P, C.
  rewrite <- P, <- C. apply IH. now rewrite P.
Qed.

(** The rate the first loop leaves for a base whose "-1000" rows with a
    numeric price all carry [v]. *)
Lemma rates_1000_price rows base v :
  (exists r, In r rows /\ is_rate_row "1000" base r = true
             /\ float_field 5 r = Some v) ->
  (forall r x, In r rows -> is_rate_row "1000" base r = true ->
               float_field 5 r = Some x -> x = v) ->
  price_per_mm (rates_1000 rows) !! base = Some (PyFloat.fdiv v F1000).
Proof.
  intros Hex Hall. unfold rates_1000.
  assert (forall rows st,
             (price_per_mm st !! base = Some (PyFloat.fdiv v F1000)
              \/ exists r, In r rows /\ is_rate_row "1000" base r = true
                           /\ float_field 5 r = Some v) ->
             (forall r x, In r rows -> is_rate_row "1000" base r = true ->
                          float_field 5 r = Some x -> x = v) ->
             price_per_mm (fold_left rate_step_1000 rows st) !! base
             = Some (PyFloat.fdiv v F1000)) as G.
  { clear. induction rows as [|r rows IH]; intros st H1 H2; simpl.
    - destruct H1 as [H1|(r & [] & _)]. exact H1.
    - apply IH; [|intros r' x Hr'; apply H2; now right].
      rewrite step_1000_price.
      destruct (is_rate_row "1000" base r) eqn:E.
      + destruct (float_field 5 r) as [x|] eqn:F.
        * left. now rewrite (H2 r x (or_introl eq_refl) E F).
        * destruct H1 as [H1|(r' & [<-|Hin] & E' & F')];
            [now left|congruence|right; eauto].
      + destruct H1 as [H1|(r' & [<-|Hin] & E' & F')];
          [now left|congruence|right; eauto]. }
  apply G; [now right|exact Hall].
Qed.

Lemma rates_1000_no_price rows base :
  (forall r, In r rows -> is_rate_row "1000" base r = true ->
             float_field 5 r = None) ->
  price_per_mm (rates_1000 rows) !! base = None.
Proof.
  intros Hall. unfold rates_1000.
  assert (forall rows st,
             price_per_mm st !! base = None ->
             (forall r, In r rows -> is_rate_row "1000" base r = true ->
                        float_field 5 r = None) ->
             price_per_mm (fold_left rate_step_1000 rows st) !! base = None) as G.
  { clear. induction rows as [|r rows IH]; intros st H1 H2; simpl; [exact H1|].
    apply IH; [|intros r' Hr'; apply H2; now right].
    rewrite step_1000_price. destruct (is_rate_row "1000" base r) eqn:E; [|exact H1].
    now rewrite (H2 r (or_introl eq_refl) E). }
  apply G; [apply lookup_empty|exact Hall].
Qed.

(** The price rate the second loop gives a base that had none, when its
    "-1500" rows with a numeric price all carry [v]. *)
Lemma fallback_price rows st base v :
  price_per_mm st !! base = None ->
  (exists r, In r rows /\ is_rate_row "1500" base r = true
             /\ float_field 5 r = Some v) ->
  (forall r x, In r rows -> is_rate_row "1500" base r = true ->
               float_field 5 r = Some x -> x = v) ->
  price_per_mm (fold_left rate_step_1500 rows st) !! base
  = Some (PyFloat.fdiv v F1500).
Proof.
  intros Hn Hex Hall.
  assert (forall rows st,
             (price_per_mm st !! base = Some (PyFloat.fdiv v F1500)
              \/ (price_per_mm st !! base = None
                  /\ exists r, In r rows /\ is_rate_row "1500" base r = true
                               /\ float_field 5 r = Some v)) ->
             (forall r x, In r rows -> is_rate_row "1500" base r = true ->
                          float_field 5 r = Some x -> x = v) ->
             price_per_mm (fold_left rate_step_1500 rows st) !! base
             = Some (PyFloat.fdiv v F1500)) as G.
  { clear. induction rows as [|r rows IH]; intros st H1 H2; simpl.
    - destruct H1 as [H1|(_ & r & [] & _)]. exact H1.
    - apply IH; [|intros r' x Hr'; apply H2; now right].
      rewrite step_1500_price. unfold fallback_open.
      destruct H1 as [H1|(H1 & r' & Hin & E' & F')].
      + left. rewrite H1. rewrite bool_decide_eq_true_2 by eauto.
        now rewrite andb_false_r.
      + rewrite H1. rewrite bool_decide_eq_false_2 by (intros [? ?]; congruence).
        rewrite andb_true_r.
        destruct (is_rate_row "1500" base r) eqn:E.
        * destruct (float_field 5 r) as [x|] eqn:F.
          -- left. now rewrite (H2 r x (or_introl eq_refl) E F).
          -- right. split; [reflexivity|].
             destruct Hin as [<-|Hin]; [congruence|eauto].
        * right. split; [reflexivity|].
          destruct Hin as [<-|Hin]; [congruence|eauto]. }
  apply G; [right; now split|exact Hall].
Qed.

(** The cost rate the second loop gives a base without a price rate whose
    "-1500" rows all carry the numeric cost [c]. *)
Lemma fallback_cost rows st base c :
  price_per_mm st !! base = None ->
  (exists r, In r rows /\ is_rate_row "1500" base r = true) ->
  (forall r, In r rows -> is_rate_row "1500" base r = true ->
             float_field 6 r = Some c) ->
  cost_per_mm (fold_left rate_step_1500 rows st) !! base
  = Some (PyFloat.fdiv c F1500).
Proof.
  intros Hn Hex Hall.
  assert (forall rows st,
             (cost_per_mm st !! base = Some (PyFloat.fdiv c F1500)
              \/ (price_per_mm st !! base = None
                  /\ exists r, In r rows /\ is_rate_row "1500" base r = true)) ->
             (forall r, In r rows -> is_rate_row "1500" base r = true ->
                        float_field 6 r = Some c) ->
             cost_per_mm (fold_left rate_step_1500 rows st) !! base
             = Some (PyFloat.fdiv c F1500)) as G.
  { clear. induction rows as [|r rows IH]; intros st H1 H2; simpl.
    - destruct H1 as [H1|(_ & r & [] & _)]. exact H1.
    - apply IH; [|intros r' Hr'; apply H2; now right].
      rewrite step_1500_cost, step_1500_price. unfold fallback_open.
      destruct (is_rate_row "1500" base r) eqn:E; cbn [andb].
      + rewrite (H2 r (or_introl eq_refl) E).
        destruct (bool_decide (is_Some (price_per_mm st !! base))) eqn:B; cbn [negb].
        * destruct H1 as [H1|(H1 & _)]; [now left|].
          apply bool_decide_eq_true_1 in B. destruct B as [? B]. congruence.
        * now left.
      + destruct H1 as [H1|(H1 & r' & [<-|Hin] & E')];
          [now left|congruence|right; split; eauto]. }
  apply G; [right; now split|exact Hall].
Qed.

End RateFacts.

(** ** The spreadsheet sync: the rows written *)

Section SyncFacts.

Lemma sync_row_length st r : 7 <= length (sync_row st r).
Proof.
  unfold sync_row. pose proof (pad7_length r) as L. cbv zeta.
  repeat case_match; rewrite ?length_insert; lia.
Qed.

Lemma length_token_empty : length_token EmptyString <> "3050"%string.
Proof. discriminate. Qed.

(** The price written for a "-3050" row without a numeric price whose base
    has the price rate [x]. *)
Lemma sync_row_price st r base x :
  is_rate_row "3050" base r = true ->
  to_float (field 5 r) = None ->
  price_per_mm st !! base = Some x ->
  field 5 (sync_row st r) = scaled_text x.
Proof.
  intros H P R. apply is_rate_row_spec in H. destruct H as (L & B & T).
  assert (forall j, field j (pad7 r) = field j r) as Fp
    by (intros j; apply field_pad).
  unfold sync_row. pose proof (pad7_length r) as L7. cbv zeta.
  destruct (Nat.ltb_spec 2 (length (pad7 r))) as [_|]; [|lia].
  rewrite !Fp.
  destruct (String.eqb_spec (strip (field 2 r)) EmptyString) as [E|E].
  { rewrite E in T. now apply length_token_empty in T. }
  rewrite T, B, P, R. change (String.eqb "3050" "3050") with true. cbv iota.
  assert (field 5 (<[5 := scaled_text x]> (pad7 r)) = scaled_text x) as F5.
  { rewrite field_insert. simpl.
    destruct (Nat.ltb_spec 5 (length (pad7 r))); [reflexivity|lia]. }
  destruct (to_float (field 6 r)); [exact F5|].
  destruct (cost_per_mm st !! base); [|exact F5].
  rewrite field_insert. exact F5.
Qed.

End SyncFacts.

(** C1, as stated, fails: the base "A" gets its price rate from the "-1000"
    row, which has no numeric cost; the "-1500" row has the numeric cost
    "75", and yet no cost rate is derived for "A". *)
Lemma cost_fallback_skipped_after_price :
  ~ (forall (rows : table) (base : string) (r : row) (c : spec_float),
        cost_per_mm (rates_1000 rows) !! base = None ->
        In r rows -> is_rate_row "1500" base r = true ->
        float_field 6 r = Some c ->
        cost_per_mm (rates_of rows) !! base = Some (PyFloat.fdiv c F1500)).
Proof.
  intros H.
  destruct (PyFloat.float_of_string "75") as [c|] eqn:C; [|discriminate].
  specialize (H [["1"; "Rail"; "A-1000"; ""; ""; "120"; ""];
                 ["2"; "Rail"; "A-1500"; ""; ""; "150"; "75"]]
                "A"%string ["2"; "Rail"; "A-1500"; ""; ""; "150"; "75"] c).
  assert (cost_per_mm
            (rates_of [["1"; "Rail"; "A-1000"; ""; ""; "120"; ""];
                       ["2"; "Rail"; "A-1500"; ""; ""; "150"; "75"]]) !! "A"
          = None) as E by (vm_compute; reflexivity).
  rewrite E in H. enough (None = Some (PyFloat.fdiv c F1500)) by discriminate.
  apply H; [vm_compute; reflexivity|right; now left|vm_compute; reflexivity|exact C].
Qed.

Section FallbackOrder.

Lemma numeric_fields_app k tok base l1 l2 :
  numeric_fields k tok base (l1 ++ l2)
  = numeric_fields k tok base l1 ++ numeric_fields k tok base l2.
Proof. apply flat_map_app. Qed.

Lemma numeric_fields_one k tok base r :
  numeric_fields k tok base [r]
  = if is_rate_row tok base r
    then match float_field k r with Some x => [x] | None => [] end
    else [].
Proof. unfold numeric_fields. cbn [flat_map]. apply app_nil_r. Qed.

Lemma numeric_fields_nil k tok base rows :
  numeric_fields k tok base rows = [] <->
  forall q, In q rows -> is_rate_row tok base q = true -> float_field k q = None.
Proof.
  induction rows as [|r rows IH].
  - split; [intros _ q []|reflexivity].
  - change (r :: rows) with ([r] ++ rows).
    rewrite numeric_fields_app, numeric_fields_one. split.
    + intros H. apply app_eq_nil in H. destruct H as [H1 H2].
      intros q [<-|Hq] E; [|now apply (proj1 IH H2)].
      rewrite E in H1. now destruct (float_field k r).
    + intros H. rewrite (proj2 IH) by (intros q Hq; apply H; now right).
      rewrite app_nil_r. destruct (is_rate_row tok base r) eqn:E; [|reflexivity].
      now rewrite (H r (or_introl eq_refl) E).
Qed.

(** The second loop over rows none of which gives the base a price: the
    base stays without a price rate, and each "-1500" row of the base with a
    numeric cost sets the cost rate. *)
Lemma fallback_scan rows st base :
  price_per_mm st !! base = None ->
  numeric_fields 5 "1500" base rows = [] ->
  price_per_mm (fold_left rate_step_1500 rows st) !! base = None
  /\ cost_per_mm (fold_left rate_step_1500 rows st) !! base
     = match last (numeric_fields 6 "1500" base rows) with
       | Some c => Some (PyFloat.fdiv c F1500)
       | None => cost_per_mm st !! base
       end.
Proof.
  intros Hn. induction rows as [|r rows IH] using rev_ind; [now split|].
  rewrite numeric_fields_app. intros H. apply app_eq_nil in H.
  destruct H as [H1 H2]. destruct (IH H1) as [IHp IHc]. clear IH.
  rewrite fold_left_app. cbn [fold_left].
  rewrite step_1500_price, step_1500_cost. unfold fallback_open.
  rewrite IHp, bool_decide_eq_false_2 by (intros [? ?]; congruence).
  rewrite andb_true_r, numeric_fields_app, last_app.
  rewrite numeric_fields_one in H2. rewrite numeric_fields_one.
  destruct (is_rate_row "1500" base r); [|now split].
  destruct (float_field 5 r); [discriminate|]. split; [reflexivity|].
  destruct (float_field 6 r); [reflexivity|exact IHc].
Qed.

(** The second loop stops reading the "-1500" rows of a base at the first
    one with a numeric price. *)
Lemma fallback_stop pre r post st base p :
  price_per_mm st !! base = None ->
  numeric_fields 5 "1500" base pre = [] ->
  is_rate_row "1500" base r = true ->
  float_field 5 r = Some p ->
  price_per_mm (fold_left rate_step_1500 (pre ++ r :: post) st) !! base
  = Some (PyFloat.fdiv p F1500)
  /\ cost_per_mm (fold_left rate_step_1500 (pre ++ r :: post) st) !! base
     = match last (numeric_fields 6 "1500" base (pre ++ [r])) with
       | Some c => Some (PyFloat.fdiv c F1500)
       | None => cost_per_mm st !! base
       end.
Proof.
  intros Hn Hpre E P.
  destruct (fallback_scan pre st base Hn Hpre) as [Sp Sc].
  rewrite fold_left_app. cbn [fold_left].
  assert (price_per_mm (rate_step_1500 (fold_left rate_step_1500 pre st) r) !! base
          = Some (PyFloat.fdiv p F1500)) as Hp.
  { rewrite step_1500_price. unfold fallback_open.
    rewrite E, Sp, bool_decide_eq_false_2 by (intros [? ?]; congruence).
    cbn [andb negb]. now rewrite P. }
  destruct (fallback_frozen post (rate_step_1500 (fold_left rate_step_1500 pre st) r)
              base) as [Fp Fc]; [rewrite Hp; eauto|].
  rewrite Fp, Fc. split; [exact Hp|].
  rewrite step_1500_cost. unfold fallback_open.
  rewrite E, Sp, bool_decide_eq_false_2 by (intros [? ?]; congruence).
  cbn [andb negb]. rewrite numeric_fields_app, last_app, numeric_fields_one, E.
  destruct (float_field 6 r); [reflexivity|exact Sc].
Qed.

End FallbackOrder.

(** C1 (amended): the fallback to the "-1500" rows is not resolved for price
    and cost apart: one test on the price rate, made anew at every row of
    the second loop, guards both.  A base that has a price rate after the
    "-1000" rows keeps both its rates as those rows left them, so no cost
    rate is derived from a "-1500" row for it.  For a base without a price
    rate after the "-1000" rows, the "-1500" rows of the base are read in
    table order up to the first one with a numeric price, that one
    included, and none after it: the price rate is that price divided by
    1500, and the cost rate is the last numeric cost among the rows read,
    divided by 1500, or else the cost rate the "-1000" rows left.  When no
    "-1500" row of such a base has a numeric price, all of them are read.
    In particular, when the "-1500" rows of such a base all carry the
    numeric cost [c], the cost rate is [c / 1500]. *)
Theorem fallback_gated_by_price_rate (rows : table) (base : string) :
  (is_Some (price_per_mm (rates_1000 rows) !! base) ->
   price_per_mm (rates_of rows) !! base = price_per_mm (rates_1000 rows) !! base
   /\ cost_per_mm (rates_of rows) !! base = cost_per_mm (rates_1000 rows) !! base)
  /\ (price_per_mm (rates_1000 rows) !! base = None ->
      (forall pre r post p,
          rows = pre ++ r :: post ->
          (forall q, In q pre -> is_rate_row "1500" base q = true ->
                     float_field 5 q = None) ->
          is_rate_row "1500" base r = true ->
          float_field 5 r = Some p ->
          price_per_mm (rates_of rows) !! base = Some (PyFloat.fdiv p F1500)
          /\ cost_per_mm (rates_of rows) !! base
             = match last (numeric_fields 6 "1500" base (pre ++ [r])) with
               | Some c => Some (PyFloat.fdiv c F1500)
               | None => cost_per_mm (rates_1000 rows) !! base
               end)
      /\ ((forall q, In q rows -> is_rate_row "1500" base q = true ->
                     float_field 5 q = None) ->
          price_per_mm (rates_of rows) !! base = None
          /\ cost_per_mm (rates_of rows) !! base
             = match last (numeric_fields 6 "1500" base rows) with
               | Some c => Some (PyFloat.fdiv c F1500)
               | None => cost_per_mm (rates_1000 rows) !! base
               end)
      /\ (forall c,
             (exists r, In r rows /\ is_rate_row "1500" base r = true) ->
             (forall r, In r rows -> is_rate_row "1500" base r = true ->
                        float_field 6 r = Some c) ->
             cost_per_mm (rates_of rows) !! base = Some (PyFloat.fdiv c F1500))).
Proof.
  split; [apply fallback_frozen|]. intros Hn. split; [|split].
  - intros pre r post p Hrows Hpre E P. unfold rates_of.
    rewrite Hrows at 1 3.
    apply fallback_stop; [exact Hn|now apply numeric_fields_nil|exact E|exact P].
  - intros Hall. apply fallback_scan; [exact Hn|now apply numeric_fields_nil].
  - intros c. now apply fallback_cost.
Qed.

Lemma fallback_gated_by_price_rate_witness :
  cost_per_mm (rates_of [["1"; "Rail"; "A-1000"; ""; ""; "120"; ""];
                         ["2"; "Rail"; "A-1500"; ""; ""; "150"; "75"]]) !! "A"
  = cost_per_mm (rates_1000 [["1"; "Rail"; "A-1000"; ""; ""; "120"; ""];
                             ["2"; "Rail"; "A-1500"; ""; ""; "150"; "75"]]) !! "A"
  /\ exists p c,
       PyFloat.float_of_string "150" = Some p
       /\ PyFloat.float_of_string "75" = Some c
       /\ price_per_mm (rates_of [["1"; "Rail"; "A-1500"; ""; ""; "150"; "75"];
                                  ["2"; "Rail"; "A-1500"; ""; ""; "160"; "99"]]) !! "A"
          = Some (PyFloat.fdiv p F1500)
       /\ cost_per_mm (rates_of [["1"; "Rail"; "A-1500"; ""; ""; "150"; "75"];
                                 ["2"; "Rail"; "A-1500"; ""; ""; "160"; "99"]]) !! "A"
          = Some (PyFloat.fdiv c F1500).
Proof.
  split.
  - apply (proj1 (fallback_gated_by_price_rate
                    [["1"; "Rail"; "A-1000"; ""; ""; "120"; ""];
                     ["2"; "Rail"; "A-1500"; ""; ""; "150"; "75"]] "A")).
    vm_compute. eauto.
  - destruct (PyFloat.float_of_string "150") as [p|] eqn:P; [|discriminate].
    destruct (PyFloat.float_of_string "75") as [c|] eqn:C; [|discriminate].
    exists p, c. split; [reflexivity|]. split; [reflexivity|].
    destruct (proj1 (proj2 (fallback_gated_by_price_rate
                              [["1"; "Rail"; "A-1500"; ""; ""; "150"; "75"];
                               ["2"; "Rail"; "A-1500"; ""; ""; "160"; "99"]] "A")
                             ltac:(vm_compute; reflexivity))
                [] ["1"; "Rail"; "A-1500"; ""; ""; "150"; "75"]
                [["2"; "Rail"; "A-1500"; ""; ""; "160"; "99"]] p
                eq_refl ltac:(intros q []) ltac:(vm_compute; reflexivity) P)
      as [Hp Hc].
    split; [exact Hp|]. rewrite Hc.
    vm_compute in C. inversion C; subst c. vm_compute. reflexivity.
Defined.

Section ShortRows.

(** The third loop of [main] pads a row of fewer than three fields and
    changes nothing else in it. *)
Lemma sync_row_short st r : length r < 3 -> sync_row st r = pad7 r.
Proof.
  intros L. unfold sync_row. cbv zeta.
  assert (strip (field 2 (pad7 r)) = EmptyString) as E.
  { unfold pad7. rewrite field_pad. unfold field. now rewrite nth_overflow by lia. }
  rewrite E. destruct (2 <? length (pad7 r)); reflexivity.
Qed.

End ShortRows.

(** C2, as stated, fails for the sync pass: a row of two fields is not
    discarded; it is written to the sheet, padded with empty fields. *)
Lemma short_row_written_by_sync :
  ~ (forall (file : table) (r : row),
        In r file -> length r < 3 -> ~ In (pad7 r) (main file)).
Proof.
  intros H. apply (H [["x"; "y"]] ["x"; "y"]).
  - now left.
  - simpl. lia.
  - vm_compute. now left.
Qed.

(** C2 (amended): no row of fewer than three fields is in the output of the
    filter pass, comma- or tab-delimited: a line that splits into fewer than
    three fields is discarded.  The sync pass discards no such row: a row of
    one or two fields is written to the sheet, at its place among the
    non-empty rows, padded with empty fields to seven and otherwise as it
    was.  So every row the sync pass writes has seven fields at least. *)
Theorem short_rows_filtered_not_synced :
  (forall lines r,
      In r (clean_csv_rows lines) \/ In r (clean_txt_rows lines) -> 3 <= length r)
  /\ (forall lines l,
         length (parse_line_csv l) < 3 ->
         ~ In (parse_line_csv l) (clean_csv_rows lines))
  /\ (forall lines l,
         length (parse_line_txt l) < 3 ->
         ~ In (parse_line_txt l) (clean_txt_rows lines))
  /\ (forall file i r,
         read_csv_rows file !! i = Some r -> length r < 3 ->
         main file !! i = Some (pad7 r))
  /\ (forall file r,
         In r file -> r <> [] -> length r < 3 -> In (pad7 r) (main file))
  /\ (forall file r, In r (main file) -> 7 <= length r).
Proof.
  assert (forall lines r,
             In r (clean_csv_rows lines) \/ In r (clean_txt_rows lines) ->
             3 <= length r) as Hlen.
  { intros lines r [H|H].
    - apply survives_length. eapply clean_rows_survive, H.
    - unfold clean_txt_rows in H. rewrite clean_rows_txt_csv in H.
      apply survives_length. eapply clean_rows_survive, H. }
  split; [exact Hlen|]. split; [|split; [|split; [|split]]].
  - intros lines l L H. specialize (Hlen lines _ (or_introl H)). lia.
  - intros lines l L H. specialize (Hlen lines _ (or_intror H)). lia.
  - intros file i r Hi L. unfold main.
    change (map (sync_row (rates_of (read_csv_rows file))) (read_csv_rows file))
      with (sync_row (rates_of (read_csv_rows file)) <$> read_csv_rows file).
    rewrite list_lookup_fmap, Hi. cbn [fmap option_fmap option_map].
    now rewrite sync_row_short.
  - intros file r Hin Hne L. unfold main. apply in_map_iff.
    exists r. split; [now apply sync_row_short|].
    unfold read_csv_rows. apply filter_In. split; [exact Hin|now destruct r].
  - intros file r H. unfold main in H. apply in_map_iff in H.
    destruct H as (r0 & <- & _). apply sync_row_length.
Qed.

Lemma short_rows_filtered_not_synced_witness :
  ~ In ["x"; "y"] (clean_csv_rows ["2,Rail B,B-20-1000,1,2,10.00,5.00"; "x,y"])
  /\ main [["1"; "Rail"; "A-1000"; ""; ""; "120"; "60"]; []; ["x"; "y"]] !! 1
     = Some ["x"; "y"; ""; ""; ""; ""; ""]
  /\ In ["x"; "y"; ""; ""; ""; ""; ""] (main [["x"; "y"]]).
Proof.
  split; [|split].
  - apply (proj1 (proj2 short_rows_filtered_not_synced)
             ["2,Rail B,B-20-1000,1,2,10.00,5.00"; "x,y"] "x,y").
    vm_compute. lia.
  - apply (proj1 (proj2 (proj2 (proj2 short_rows_filtered_not_synced)))
             [["1"; "Rail"; "A-1000"; ""; ""; "120"; "60"]; []; ["x"; "y"]]
             1 ["x"; "y"]); [reflexivity|simpl; lia].
  - apply (proj1 (proj2 (proj2 (proj2 (proj2 short_rows_filtered_not_synced))))
             [["x"; "y"]] ["x"; "y"]); [now left|discriminate|simpl; lia].
Defined.

(** The filter pass drops a short input row; the sync pass pads it and
    writes it. *)
Example short_row_dropped_or_padded :
  clean_csv_rows ["x,y"] = [] /\ main [["x"; "y"]] = [["x"; "y"; ""; ""; ""; ""; ""]].
Proof. split; vm_compute; reflexivity. Qed.

(** C7: in the sync pass a "-3050" row with a blank price is filled from the
    rate of its base.  When the "-1000" rows of the base that have a numeric
    price carry 120, the price written is "366.00" (with or without "-1500"
    rows).  When no "-1000" row of the base has a numeric price and its
    "-1500" rows that have one carry 150, the price written is "305.00". *)
Theorem sync_fills_from_rate (file : table) (base : string) (v : spec_float) :
  let rows := read_csv_rows file in
  forall i r,
    rows !! i = Some r ->
    is_rate_row "3050" base r = true ->
    field 5 r = EmptyString ->
    ((exists q, In q rows /\ is_rate_row "1000" base q = true
                /\ float_field 5 q = Some v) ->
     (forall q x, In q rows -> is_rate_row "1000" base q = true ->
                  float_field 5 q = Some x -> x = v) ->
     to_float "120" = Some v ->
     exists r', main file !! i = Some r' /\ field 5 r' = "366.00"%string)
    /\ ((forall q, In q rows -> is_rate_row "1000" base q = true ->
                   float_field 5 q = None) ->
        (exists q, In q rows /\ is_rate_row "1500" base q = true
                   /\ float_field 5 q = Some v) ->
        (forall q x, In q rows -> is_rate_row "1500" base q = true ->
                     float_field 5 q = Some x -> x = v) ->
        to_float "150" = Some v ->
        exists r', main file !! i = Some r' /\ field 5 r' = "305.00"%string).
Proof.
  intros rows i r Hi H3 Hblank.
  assert (to_float (field 5 r) = None) as P by (rewrite Hblank; reflexivity).
  assert (main file !! i = Some (sync_row (rates_of rows) r)) as Hm.
  { unfold main. fold rows.
    change (map (sync_row (rates_of rows)) rows)
      with (sync_row (rates_of rows) <$> rows).
    now rewrite list_lookup_fmap, Hi. }
  split.
  - intros Hex Hall V. eexists. split; [exact Hm|].
    pose proof (rates_1000_price rows base v Hex Hall) as R1.
    destruct (fallback_frozen rows (rates_1000 rows) base) as [R _]; [eauto|].
    fold (rates_of rows) in R. rewrite R1 in R.
    rewrite (sync_row_price _ _ _ _ H3 P R).
    vm_compute in V. inversion V; subst v. vm_compute. reflexivity.
  - intros Hno Hex Hall V. eexists. split; [exact Hm|].
    pose proof (rates_1000_no_price rows base Hno) as R1.
    pose proof (fallback_price rows (rates_1000 rows) base v R1 Hex Hall) as R.
    fold (rates_of rows) in R.
    rewrite (sync_row_price _ _ _ _ H3 P R).
    vm_compute in V. inversion V; subst v. vm_compute. reflexivity.
Qed.

Lemma sync_fills_from_rate_witness :
  (exists r',
      main [["1"; "Rail"; "A-1000"; ""; ""; "120"; "60"];
            ["2"; "Rail"; "A-3050"; ""; ""; ""; ""]] !! 1 = Some r'
      /\ field 5 r' = "366.00"%string)
  /\ (exists r',
         main [["1"; "Rail"; "A-1500"; ""; ""; "150"; "75"];
               ["2"; "Rail"; "A-3050"; ""; ""; ""; ""]] !! 1 = Some r'
         /\ field 5 r' = "305.00"%string).
Proof.
  destruct (to_float "120") as [v|] eqn:V; [|discriminate].
  destruct (to_float "150") as [w|] eqn:W; [|discriminate].
  split.
  - apply (proj1 (sync_fills_from_rate
                    [["1"; "Rail"; "A-1000"; ""; ""; "120"; "60"];
                     ["2"; "Rail"; "A-3050"; ""; ""; ""; ""]] "A" v
                    1 ["2"; "Rail"; "A-3050"; ""; ""; ""; ""]
                    eq_refl eq_refl eq_refl)).
    + exists ["1"; "Rail"; "A-1000"; ""; ""; "120"; "60"].
      split; [now left|]. split; [reflexivity|exact V].
    + intros q x [<-|[<-|[]]] Hq Hx.
      * change (float_field 5 ["1"; "Rail"; "A-1000"; ""; ""; "120"; "60"])
          with (to_float "120") in Hx. congruence.
      * vm_compute in Hq. discriminate.
    + exact V.
  - apply (proj2 (sync_fills_from_rate
                    [["1"; "Rail"; "A-1500"; ""; ""; "150"; "75"];
                     ["2"; "Rail"; "A-3050"; ""; ""; ""; ""]] "A" w
                    1 ["2"; "Rail"; "A-3050"; ""; ""; ""; ""]
                    eq_refl eq_refl eq_refl)).
    + intros q [<-|[<-|[]]] Hq; vm_compute in Hq; discriminate.
    + exists ["1"; "Rail"; "A-1500"; ""; ""; "150"; "75"].
      split; [now left|]. split; [reflexivity|exact W].
    + intros q x [<-|[<-|[]]] Hq Hx.
      * change (float_field 5 ["1"; "Rail"; "A-1500"; ""; ""; "150"; "75"])
          with (to_float "150") in Hx. congruence.
      * vm_compute in Hq. discriminate.
    + exact W.
Defined.

(** ** Two runs on small files *)

Example clean_csv_text_ex :
  clean_csv ("2,Rail B,B-20-1000,1,2,10.00,5.00" +:+ NL +:+ "x,y" +:+ NL +:+ NL
             +:+ " 1,Rail A,A-20-3050,1,2,30.00,15.00 " +:+ NL
             +:+ "3,Rail A,A-20-TAP1-500,1,2,3,4")
  = "1,Rail A,A-20-3050,1,2,30.00,15.00" +:+ NL
    +:+ "2,Rail B,B-20-1000,1,2,10.00,5.00" +:+ NL
    +:+ "2,Rail B,B-20-3050,,,," +:+ NL.
Proof. vm_compute. reflexivity. Qed.

Example main_ex :
  main [["1"; "Rail"; "A-1000"; "1"; "2"; "120"; "60"];
        [];
        ["2"; "Rail"; "A-3050"];
        ["3"; "Rail"; "B-1500"; "1"; "2"; "150"; "x"];
        ["4"; "Rail"; "B-3050"; "1"; "2"; ""; ""]]
  = [["1"; "Rail"; "A-1000"; "1"; "2"; "120"; "60"];
     ["2"; "Rail"; "A-3050"; ""; ""; "366.00"; "183.00"];
     ["3"; "Rail"; "B-1500"; "1"; "2"; "150"; "x"];
     ["4"; "Rail"; "B-3050"; "1"; "2"; "305.00"; ""]].
Proof. vm_compute. reflexivity. Qed.

(* ================================================================== *)
(** * Further properties of the three scripts *)

(** ** Printed prices are numeric *)

Section NumericOutput.

Import PyFloat.

Lemma number_char_facts c :
  number_char c = true ->
  is_space c = false /\ is_float_space c = false /\ Ascii.eqb c "_" = false.
Proof.
  destruct c as [[] [] [] [] [] [] [] []]; vm_compute; intros H;
    try discriminate; auto.
Qed.

Lemma digit_cases c :
  is_ascii_digit c = true -> exists d, digit_val c = Some d.
Proof. unfold is_ascii_digit. destruct (digit_val c); [eauto|discriminate]. Qed.

Lemma digit_char_digit d : is_ascii_digit (digit_char (d mod 10)) = true.
Proof.
  pose proof (Z.mod_pos_bound d 10 eq_refl) as B.
  unfold digit_char. generalize dependent (d mod 10)%Z. intros m B.
  assert (Z.to_nat m < 10) as K by lia.
  generalize dependent (Z.to_nat m). intros k K.
  do 10 (destruct k as [|k]; [reflexivity|]). lia.
Qed.

Lemma digits_fuel_spec fuel n acc :
  exists ds,
    digits_fuel fuel n acc = ds +:+ acc
    /\ all_chars is_ascii_digit ds = true
    /\ (fuel <> 0 -> ds <> EmptyString).
Proof.
  revert n acc. induction fuel as [|f IH]; intros n acc.
  - exists EmptyString. repeat split. congruence.
  - cbn [digits_fuel]. destruct (n <? 10)%Z.
    + exists (String (digit_char (n mod 10)) EmptyString). repeat split.
      * cbn [all_chars]. now rewrite digit_char_digit.
      * discriminate.
    + destruct (IH (n / 10)%Z (String (digit_char (n mod 10)) acc)) as (ds & E & D & _).
      exists (ds +:+ String (digit_char (n mod 10)) EmptyString). repeat split.
      * rewrite E, append_assoc. reflexivity.
      * rewrite all_chars_app, D. cbn [all_chars andb]. now rewrite digit_char_digit.
      * intros _. destruct ds; discriminate.
Qed.

Lemma digits_of_spec n :
  all_chars is_ascii_digit (digits_of n) = true /\ digits_of n <> EmptyString.
Proof.
  unfold digits_of.
  destruct (digits_fuel_spec (S (Z.to_nat (Z.log2 n))) n EmptyString) as (ds & E & D & N).
  rewrite E, append_nil_r. split; [exact D|]. apply N. discriminate.
Qed.

(** The digits at the front of a string are taken whole. *)
Lemma take_digits_app ds rest acc cnt :
  all_chars is_ascii_digit ds = true ->
  match rest with
  | EmptyString => True
  | String c _ => is_ascii_digit c = false
  end ->
  exists acc', take_digits acc cnt (ds +:+ rest) = (acc', cnt + String.length ds, rest).
Proof.
  revert acc cnt. induction ds as [|c ds IH]; intros acc cnt D R.
  - exists acc. rewrite Nat.add_0_r. destruct rest as [|c r]; [reflexivity|].
    simpl. unfold is_ascii_digit in R. now destruct (digit_val c).
  - simpl in D. apply andb_true_iff in D. destruct D as [Dc D].
    change (String c ds +:+ rest) with (String c (ds +:+ rest)). cbn [take_digits].
    unfold is_ascii_digit in Dc. destruct (digit_val c) as [d|]; [|discriminate].
    destruct (IH (10 * acc + d)%Z (S cnt) D R) as [acc' E].
    exists acc'. rewrite E. simpl. f_equal. f_equal. lia.
Qed.

(** A numeral of digits, a point and digits is a decimal numeral. *)
Lemma parse_decimal_fixed ds fs :
  all_chars is_ascii_digit ds = true -> ds <> EmptyString ->
  all_chars is_ascii_digit fs = true ->
  exists me, parse_decimal (ds +:+ String "." fs) = Some me.
Proof.
  intros D N F. unfold parse_decimal.
  destruct (take_digits_app ds (String "." fs) 0%Z 0 D eq_refl) as [ip E].
  rewrite E.
  destruct (take_digits_app fs EmptyString ip 0 F I) as [m E'].
  rewrite append_nil_r in E'. rewrite E'.
  destruct ds as [|c ds]; [congruence|]. simpl. eauto.
Qed.

Lemma drop_underscores_none prev s :
  all_chars (fun c => negb (Ascii.eqb c "_")) s = true ->
  prev <> Some "_"%char ->
  drop_underscores prev s = Some s.
Proof.
  revert prev. induction s as [|c s IH]; intros prev H P; simpl.
  - destruct prev as [p|]; [|reflexivity].
    destruct (Ascii.eqb_spec p "_"); [congruence|].
    destruct p as [[] [] [] [] [] [] [] []]; try reflexivity. congruence.
  - simpl in H. apply andb_true_iff in H. destruct H as [Hc H].
    apply negb_true_iff in Hc. rewrite Hc.
    assert (drop_underscores (Some c) s = Some s) as E.
    { apply IH; [exact H|]. intros Q. inversion Q; subst. discriminate. }
    rewrite E.
    destruct prev as [p|]; [|reflexivity].
    destruct p as [[] [] [] [] [] [] [] []]; try reflexivity. congruence.
Qed.

Lemma lstrip_f_fixed s :
  all_chars (fun c => negb (is_float_space c)) s = true -> lstrip_f s = s.
Proof.
  destruct s as [|c s]; [reflexivity|]. simpl. intros H.
  apply andb_true_iff in H. destruct H as [H _]. apply negb_true_iff in H.
  now rewrite H.
Qed.

Lemma rstrip_f_fixed s :
  all_chars (fun c => negb (is_float_space c)) s = true -> rstrip_f s = s.
Proof.
  induction s as [|c s IH]; [reflexivity|]. simpl. intros H.
  apply andb_true_iff in H. destruct H as [Hc H]. apply negb_true_iff in Hc.
  rewrite (IH H). destruct s; [now rewrite Hc|reflexivity].
Qed.

Lemma strip_fixed s :
  all_chars (fun c => negb (is_space c)) s = true -> strip s = s.
Proof.
  intros H. unfold strip.
  assert (lstrip s = s) as ->.
  { destruct s as [|c s]; [reflexivity|]. simpl in *.
    apply andb_true_iff in H. destruct H as [H _]. apply negb_true_iff in H.
    now rewrite H. }
  induction s as [|c s IH]; [reflexivity|]. simpl in *.
  apply andb_true_iff in H. destruct H as [Hc H]. apply negb_true_iff in Hc.
  rewrite (IH H). destruct s; [now rewrite Hc|reflexivity].
Qed.

Lemma all_chars_impl (P Q : ascii -> bool) s :
  (forall c, P c = true -> Q c = true) ->
  all_chars P s = true -> all_chars Q s = true.
Proof.
  intros HPQ. induction s as [|c s IH]; [reflexivity|]. simpl. intros H.
  apply andb_true_iff in H. destruct H as [Hc H].
  now rewrite (HPQ c Hc), (IH H).
Qed.

Lemma digit_number_char c : is_ascii_digit c = true -> number_char c = true.
Proof. unfold number_char. now intros ->. Qed.

(** The shape of a printed amount. *)
Lemma print_hundredths_shape neg N :
  exists ds fs,
    print_hundredths neg N = (if neg then "-" else "") +:+ ds +:+ String "." fs
    /\ all_chars is_ascii_digit ds = true /\ ds <> EmptyString
    /\ all_chars is_ascii_digit fs = true.
Proof.
  unfold print_hundredths.
  destruct (digits_of_spec (N / 100)) as [D Nn].
  exists (digits_of (N / 100)),
    (String (digit_char (N mod 100 / 10)) (String (digit_char (N mod 10)) EmptyString)).
  split; [reflexivity|]. split; [exact D|]. split; [exact Nn|].
  cbn [all_chars]. rewrite digit_char_digit, !andb_true_r.
  replace (N mod 100 / 10)%Z with ((N mod 100 / 10) mod 10)%Z; [apply digit_char_digit|].
  pose proof (Z.mod_pos_bound N 100 eq_refl).
  apply Z.mod_small. split; [apply Z.div_pos; lia|apply Z.div_lt_upper_bound; lia].
Qed.

Lemma print_hundredths_chars neg N :
  all_chars number_char (print_hundredths neg N) = true.
Proof.
  destruct (print_hundredths_shape neg N) as (ds & fs & -> & D & _ & F).
  rewrite !all_chars_app. cbn [all_chars].
  rewrite (all_chars_impl _ _ ds digit_number_char D),
          (all_chars_impl _ _ fs digit_number_char F).
  now destruct neg.
Qed.

Lemma float_of_string_stripped s :
  all_chars number_char s = true ->
  drop_underscores None s = Some s /\ rstrip_f (lstrip_f s) = s.
Proof.
  intros H. split.
  - apply drop_underscores_none; [|discriminate].
    eapply all_chars_impl; [|exact H]. intros c Hc.
    apply number_char_facts in Hc. destruct Hc as (_ & _ & ->). reflexivity.
  - rewrite lstrip_f_fixed, rstrip_f_fixed; [reflexivity|..];
      (eapply all_chars_impl; [|exact H]); intros c Hc;
      apply number_char_facts in Hc; destruct Hc as (_ & -> & _); reflexivity.
Qed.

Lemma float_of_string_minus r :
  all_chars number_char (String "-" r) = true ->
  float_of_string (String "-" r) = parse_unsigned true r.
Proof.
  intros H. destruct (float_of_string_stripped _ H) as [E1 E2].
  unfold float_of_string. now rewrite E1, E2.
Qed.

Lemma float_of_string_digit c r :
  is_ascii_digit c = true ->
  all_chars number_char (String c r) = true ->
  float_of_string (String c r) = parse_unsigned false (String c r).
Proof.
  intros Dc H. destruct (float_of_string_stripped _ H) as [E1 E2].
  unfold float_of_string. rewrite E1, E2.
  destruct c as [[] [] [] [] [] [] [] []]; try discriminate Dc; reflexivity.
Qed.

(** A printed amount reads back as a float. *)
Lemma print_hundredths_numeric neg N :
  is_numeric (print_hundredths neg N) = true.
Proof.
  unfold is_numeric. pose proof (print_hundredths_chars neg N) as C.
  destruct (print_hundredths_shape neg N) as (ds & fs & E0 & D & Nn & F).
  rewrite E0 in *. clear E0.
  destruct (parse_decimal_fixed ds fs D Nn F) as [[m e] E].
  destruct neg.
  - change ("-" +:+ ds +:+ String "." fs) with (String "-" (ds +:+ String "." fs)) in *.
    rewrite (float_of_string_minus _ C). unfold parse_unsigned. now rewrite E.
  - change ("" +:+ ds +:+ String "." fs) with (ds +:+ String "." fs) in *.
    destruct ds as [|c ds]; [congruence|].
    change (String c ds +:+ String "." fs) with (String c (ds +:+ String "." fs)) in *.
    cbn [all_chars] in D. apply andb_true_iff in D. destruct D as [Dc _].
    rewrite (float_of_string_digit _ _ Dc C). unfold parse_unsigned. now rewrite E.
Qed.

Lemma print_hundredths_stripped neg N :
  strip (print_hundredths neg N) = print_hundredths neg N.
Proof.
  apply strip_fixed. eapply all_chars_impl; [|apply print_hundredths_chars].
  intros c Hc. apply number_char_facts in Hc. destruct Hc as (-> & _). reflexivity.
Qed.

(** Whatever [round2] returns, [is_numeric] accepts, also after [strip]. *)
Lemma round2_numeric v s :
  round2 v = Some s -> strip s = s /\ is_numeric s = true.
Proof.
  unfold round2. destruct v as [sg|sg| |sg m e].
  - intros H. inversion H.
    split; [apply print_hundredths_stripped|apply print_hundredths_numeric].
  - discriminate.
  - intros H. inversion H. split; vm_compute; reflexivity.
  - destruct (repr_decimal m e) as [d k].
    destruct (decimal_prec <? count_digits d + k + 2)%Z; [discriminate|].
    destruct (decimal_prec <? count_digits _)%Z; [discriminate|].
    intros H. inversion H.
    split; [apply print_hundredths_stripped|apply print_hundredths_numeric].
Qed.

(** What the sync pass writes into a cell reads back as a float. *)
Lemma scaled_text_numeric x : exists y, to_float (scaled_text x) = Some y.
Proof.
  unfold scaled_text, to_float.
  assert (forall z, is_numeric (format_2f z) = true) as H.
  { intros [sg|sg| |sg m e]; cbn [format_2f].
    - apply print_hundredths_numeric.
    - destruct sg; vm_compute; reflexivity.
    - vm_compute; reflexivity.
    - apply print_hundredths_numeric. }
  specialize (H (round_2 (fmul x F3050))). unfold is_numeric in H.
  destruct (float_of_string _); [eauto|discriminate].
Qed.

End NumericOutput.

(** ** The filter pass: what is written and what is not *)

Section FilterMore.

Lemma survives_spec p :
  survives p = true <->
  3 <= length p
  /\ contains "TAP1" (row_sku p) = false
  /\ contains "TAP2" (row_sku p) = false
  /\ In (row_token p) ALLOWED.
Proof.
  unfold survives, allowed.
  rewrite !andb_true_iff, negb_true_iff, orb_false_iff, Nat.leb_le, existsb_exists.
  split.
  - intros [[L [T1 T2]] (t & Hin & E)]. apply String.eqb_eq in E. subst t. tauto.
  - intros (L & T1 & T2 & Hin). split; [tauto|].
    exists (row_token p). split; [exact Hin|apply String.eqb_refl].
Qed.

Lemma write_lines_nil sep : write_lines sep [] = NL.
Proof. reflexivity. Qed.

Lemma clean_rows_nil_iff rows :
  clean_rows new_3050_row_csv rows = [] <-> survivors rows = [].
Proof.
  split.
  - intros H. pose proof (clean_rows_perm new_3050_row_csv rows) as P.
    rewrite H in P. apply Permutation_nil in P.
    now destruct (survivors rows).
  - intros H. assert (placeholders new_3050_row_csv rows = []) as E.
    { destruct (placeholders new_3050_row_csv rows) as [|q l] eqn:Q; [reflexivity|].
      assert (In q (placeholders new_3050_row_csv rows)) as Hq by (rewrite Q; now left).
      apply placeholders_In in Hq. destruct Hq as (b & fp & Hf & _).
      rewrite H in Hf. discriminate. }
    pose proof (clean_rows_perm new_3050_row_csv rows) as P.
    rewrite H, E in P. symmetry in P. now apply Permutation_nil in P.
Qed.

Lemma nonblank_nonempty l : nonblank l = true -> l <> EmptyString.
Proof. intros H E. subst l. discriminate. Qed.

Lemma write_lines_cons sep p rows :
  join sep p <> EmptyString -> write_lines sep (p :: rows) <> NL.
Proof.
  intros Hp. unfold write_lines, NL.
  assert (exists c t, join (String "010" EmptyString) (map (join sep) (p :: rows))
                      = String c t) as (c & t & E).
  { cbn [map]. destruct (join sep p) as [|c x] eqn:J; [congruence|].
    destruct (map (join sep) rows) as [|l ls]; [exists c, x; reflexivity|].
    exists c, (x +:+ String "010" EmptyString
                 +:+ join (String "010" EmptyString) (l :: ls)).
    reflexivity. }
  rewrite E. intros H. inversion H as [[Hc Ht]]. destruct t; discriminate.
Qed.

End FilterMore.

(** X1: a row written by the filter pass, comma- or tab-delimited, has at
    least three fields, a SKU without "TAP1" and without "TAP2", and a
    length token among 500, 1000, 1500 and 3050; this holds of the
    placeholder rows as well. *)
Theorem filter_output_rows_allowed (lines : list string) (p : list string) :
  In p (clean_csv_rows lines) \/ In p (clean_txt_rows lines) ->
  3 <= length p
  /\ contains "TAP1" (row_sku p) = false
  /\ contains "TAP2" (row_sku p) = false
  /\ In (row_token p) ["500"; "1000"; "1500"; "3050"].
Proof.
  intros H. apply survives_spec. destruct H as [H|H].
  - eapply clean_rows_survive, H.
  - unfold clean_txt_rows in H. rewrite clean_rows_txt_csv in H.
    eapply clean_rows_survive, H.
Qed.

Lemma filter_output_rows_allowed_witness :
  In (row_token ["2"; "Rail B"; "B-20-3050"; ""; ""; ""; ""])
     ["500"; "1000"; "1500"; "3050"].
Proof.
  apply (filter_output_rows_allowed
           ["2,Rail B,B-20-1000,1,2,10.00,5.00"; "3,Rail B,B-20-TAP1-500,1,2,3,4"]
           ["2"; "Rail B"; "B-20-3050"; ""; ""; ""; ""]).
  left. vm_compute. auto.
Defined.

(** X2: the rows written by the comma-delimited pass are the kept input
    rows, each as often as it occurs and unchanged, and the placeholder
    rows: one for each base whose kept rows have no "3050" row, built from
    the first kept row of that base. *)
Theorem filter_output_is_kept_plus_placeholders (lines : list string) :
  Permutation (clean_csv_rows lines)
    (survivors (map parse_line_csv lines)
     ++ placeholders new_3050_row_csv (map parse_line_csv lines))
  /\ (forall q,
        In q (placeholders new_3050_row_csv (map parse_line_csv lines)) <->
        exists b fp,
          first_of_base b (survivors (map parse_line_csv lines)) = Some fp
          /\ count_3050 b (survivors (map parse_line_csv lines)) = 0
          /\ q = new_3050_row_csv b fp)
  /\ (forall b,
        count_3050 b (placeholders new_3050_row_csv (map parse_line_csv lines)) <= 1).
Proof.
  split; [apply clean_rows_perm|]. split.
  - intros q. rewrite placeholders_In. split; intros (b & fp & H1 & H2 & H3);
      exists b, fp; (split; [exact H1|]); (split; [|exact H3]);
      now apply count_3050_zero.
  - intros b. rewrite count_3050_placeholders.
    destruct (existsb _ _); [lia|]. destruct (first_of_base _ _); lia.
Qed.

(** X3: the comma-delimited and the tab-delimited pass build the same
    placeholder row and treat a table alike: from lines that split into the
    same rows they write the same rows.  (The length test that only
    [clean_csv] makes before blanking the numeric fields always succeeds.) *)
Theorem filter_passes_agree (csv_lines txt_lines : list string) :
  map parse_line_csv csv_lines = map parse_line_txt txt_lines ->
  clean_csv_rows csv_lines = clean_txt_rows txt_lines.
Proof.
  intros H. unfold clean_csv_rows, clean_txt_rows.
  rewrite H. symmetry. apply clean_rows_txt_csv.
Qed.

Lemma filter_passes_agree_witness :
  clean_csv_rows ["2,Rail B,B-20-1000,1,2,10.00,5.00"]
  = clean_txt_rows [String "2" (String TAB ("Rail B" +:+ String TAB ("B-20-1000"
      +:+ String TAB ("1" +:+ String TAB ("2" +:+ String TAB ("10.00"
      +:+ String TAB "5.00"))))))].
Proof. apply filter_passes_agree. vm_compute. reflexivity. Defined.

(** X4: a line is split into at least one field, and joining the fields
    gives back the line: stripped of surrounding white space in the
    comma-delimited pass, as it was in the tab-delimited pass. *)
Theorem parse_line_round_trip (line : string) :
  parse_line_csv line <> []
  /\ join (String COMMA EmptyString) (parse_line_csv line) = strip line
  /\ parse_line_txt line <> []
  /\ join (String TAB EmptyString) (parse_line_txt line) = line.
Proof.
  unfold parse_line_csv, parse_line_txt. repeat split;
    try apply split_not_nil; apply join_split.
Qed.

(** X5: the comma-delimited pass writes a file of one empty line exactly
    when it keeps no row of the input; this is what it makes of an empty
    file. *)
Theorem clean_csv_empty_iff (text : string) :
  clean_csv text = NL <-> survivors (map parse_line_csv (read_lines text)) = [].
Proof.
  unfold clean_csv, clean_csv_rows. rewrite <- clean_rows_nil_iff. split.
  - intros H. destruct (clean_rows _ _) as [|p rows] eqn:E; [reflexivity|].
    apply write_lines_cons in H; [contradiction|].
    apply nonblank_nonempty, survives_nonblank.
    apply (clean_rows_survive (map parse_line_csv (read_lines text))).
    rewrite E. now left.
  - intros ->. reflexivity.
Qed.

(** X6: splitting a SKU into base key and length token and gluing the two
    with a hyphen are inverse to each other, for both base-key utilities. *)
Theorem sku_base_token_round_trip :
  (forall b tok,
      contains "-" tok = false ->
      make_key_from_sku (b +:+ String "-" tok) = b
      /\ sku_base (b +:+ String "-" tok) = b
      /\ length_token (b +:+ String "-" tok) = tok)
  /\ (forall sku,
        contains "-" sku = true ->
        sku = sku_base sku +:+ String "-" (length_token sku)
        /\ contains "-" (length_token sku) = false).
Proof.
  split.
  - intros b tok H.
    assert (split "-" (b +:+ String "-" tok) = split "-" b ++ [tok]) as E
      by (rewrite split_app, (split_no_sep _ _ H); reflexivity).
    split; [|split].
    + rewrite make_key_from_sku_eq, E. unfold all_but_last.
      rewrite removelast_snoc. apply (join_split "-").
    + unfold sku_base. rewrite E, length_app. cbn [length].
      pose proof (split_not_nil "-" b) as Hn.
      destruct (split "-" b) as [|x l] eqn:S; [congruence|].
      replace (length (x :: l) + 1 <=? 1) with false
        by (symmetry; apply Nat.leb_gt; simpl; lia).
      rewrite <- S. unfold all_but_last. rewrite removelast_snoc. apply (join_split "-").
    + unfold length_token, last_item. rewrite E. apply last_snoc.
  - intros sku H. split.
    + rewrite (sku_base_hyphen _ H). rewrite <- make_key_from_sku_eq.
      apply (sku_decompose _ H).
    + unfold length_token, last_item.
      pose proof (split_parts_free "-" sku) as F.
      pose proof (split_not_nil "-" sku) as Hn.
      rewrite (app_removelast_last EmptyString Hn) in F.
      apply Forall_app in F. destruct F as [_ F]. inversion F as [|x l Hx _]; subst.
      clear - Hx. induction (List.last (split "-" sku) EmptyString) as [|c s IH];
        [reflexivity|].
      cbn [all_chars] in Hx. apply andb_true_iff in Hx. destruct Hx as [Hc Hs].
      cbn [contains]. rewrite prefix_char. unfold differs in Hc.
      apply negb_true_iff in Hc. rewrite Hc. now apply IH.
Qed.

Lemma sku_base_token_round_trip_witness :
  sku_base "V-20-40-1000" = "V-20-40"%string
  /\ "V-20-40-1000"%string
     = sku_base "V-20-40-1000" +:+ String "-" (length_token "V-20-40-1000").
Proof.
  split.
  - apply (proj1 (proj2 (proj1 sku_base_token_round_trip "V-20-40" "1000" eq_refl))).
  - apply (proj1 (proj2 sku_base_token_round_trip "V-20-40-1000" eq_refl)).
Defined.

(** ** The backfill: accounting, sources and a second run *)

Section BackfillMore.

Lemma endswith_exclusive s :
  endswith "-3050" s = true -> endswith "-1000" s = false.
Proof.
  induction s as [|c s IH]; [discriminate|].
  cbn [endswith]. intros H. apply orb_true_iff in H. destruct H as [H|H].
  - apply String.eqb_eq in H. inversion H; subst. reflexivity.
  - rewrite (IH H), orb_false_r.
    destruct (String.eqb_spec (String c s) "-1000") as [E|E]; [|reflexivity].
    inversion E; subst. discriminate.
Qed.

Lemma fill_action_spec pm r :
  fill_action pm r
  = if needs_price r then
      match pm !! replace "-3050" "-1000" (strip (field 2 r)) with
      | Some base =>
          match PyFloat.round2 (PyFloat.fmul base RATIO) with
          | Some t => Update (<[5 := t]> (pad6 r))
          | None => Raise
          end
      | None => Missing (strip (field 2 r))
      end
    else Skip.
Proof.
  unfold fill_action, needs_price. rewrite Nat.leb_antisym.
  destruct (length r <? 3); [reflexivity|]. cbn [negb andb].
  destruct (endswith "-3050" (strip (field 2 r))); [|reflexivity]. cbn [negb andb].
  now destruct (is_numeric (price_text r)).
Qed.

Lemma pad6_length r : length (pad6 r) = Nat.max 6 (length r).
Proof. unfold pad6. rewrite length_app, repeat_length. lia. Qed.

Lemma updated_row_price r t : strip t = t -> price_text (<[5 := t]> (pad6 r)) = t.
Proof.
  intros H. unfold price_text. rewrite length_insert, pad6_length.
  destruct (Nat.ltb_spec 5 (Nat.max 6 (length r))); [|lia].
  rewrite field_insert, pad6_length. cbn [Nat.eqb andb].
  destruct (Nat.ltb_spec 5 (Nat.max 6 (length r))); [exact H|lia].
Qed.

(** A row the backfill has updated is skipped when met again. *)
Lemma fill_action_after pm r :
  fill_action pm r <> Raise ->
  fill_action pm (row_after pm r)
  = match fill_action pm r with
    | Update _ => Skip
    | a => a
    end.
Proof.
  intros HR. unfold row_after. destruct (fill_action pm r) eqn:A; try assumption.
  apply fill_action_Update in A.
  destruct A as (L & E & _ & v & t & _ & R & ->).
  destruct (round2_numeric _ _ R) as [S N].
  rewrite fill_action_spec. unfold needs_price.
  rewrite (updated_row_price _ _ S), N, andb_false_r. reflexivity.
Qed.

Lemma price_map_step_after pm m r :
  price_map_step m (row_after pm r) = price_map_step m r.
Proof.
  unfold row_after. destruct (fill_action pm r) eqn:A; try reflexivity.
  apply fill_action_Update in A. destruct A as (L & E & _ & v & t & _ & _ & ->).
  unfold price_map_step. rewrite length_insert, pad6_length.
  destruct (Nat.ltb_spec (Nat.max 6 (length r)) 3); [lia|].
  destruct (Nat.ltb_spec (length r) 3); [lia|].
  rewrite field_update_other by lia.
  now rewrite (endswith_exclusive _ E).
Qed.

Lemma price_map_after pm rows m :
  fold_left price_map_step (map (row_after pm) rows) m
  = fold_left price_map_step rows m.
Proof.
  revert m. induction rows as [|r rows IH]; intros m; [reflexivity|].
  cbn [map fold_left]. now rewrite price_map_step_after, IH.
Qed.

Lemma fill_fold_no_raise pm rows s s' :
  fold_left (fill_step pm) rows (Some s) = Some s' ->
  forall r, In r rows -> fill_action pm r <> Raise.
Proof.
  revert s. induction rows as [|r rows IH]; intros s H q []; subst.
  - intros A. cbn [fold_left fill_step] in H. rewrite A, fill_fold_None in H.
    discriminate.
  - cbn [fold_left fill_step] in H.
    destruct (fill_action pm r); try (eapply IH; eassumption).
    rewrite fill_fold_None in H. discriminate.
Qed.

Lemma fill_fold_missing pm rows s s' :
  fold_left (fill_step pm) rows (Some s) = Some s' ->
  missing_source s'
  = missing_source s
    ++ map (fun r => strip (field 2 r))
         (List.filter (fun r => needs_price r && negb (has_source pm r)) rows)
  /\ updated s'
     = updated s
       + length (List.filter (fun r => needs_price r && has_source pm r) rows).
Proof.
  revert s. induction rows as [|r rows IH]; intros s H.
  - inversion H; subst. cbn. now rewrite app_nil_r, Nat.add_0_r.
  - cbn [fold_left fill_step] in H. cbn [List.filter].
    rewrite fill_action_spec in H.
    destruct (needs_price r); cbn [andb].
    + destruct (pm !! replace "-3050" "-1000" (strip (field 2 r))) as [v|] eqn:P.
      * assert (has_source pm r = true) as -> by (unfold has_source; now rewrite P).
        destruct (PyFloat.round2 (PyFloat.fmul v RATIO)).
        -- apply IH in H. cbn [missing_source updated] in H. destruct H as [H1 H2].
           split; [exact H1|]. rewrite H2. cbn [negb length]. lia.
        -- rewrite fill_fold_None in H. discriminate.
      * assert (has_source pm r = false) as -> by (unfold has_source; now rewrite P).
        apply IH in H. cbn [missing_source updated] in H. destruct H as [H1 H2].
        split; [|exact H2]. rewrite H1. cbn [negb map]. now rewrite <- app_assoc.
    + apply IH in H. exact H.
Qed.

Lemma price_map_fold_sound rows m k v :
  fold_left price_map_step rows m !! k = Some v ->
  m !! k = Some v
  \/ (endswith "-1000" k = true
      /\ exists r, In r rows /\ 3 <= length r /\ strip (field 2 r) = k
                   /\ PyFloat.float_of_string (price_text r) = Some v).
Proof.
  revert m. induction rows as [|r rows IH]; intros m H; [now left|].
  cbn [fold_left] in H. apply IH in H. destruct H as [H|(E & q & Hq & Rest)].
  - unfold price_map_step in H.
    destruct (Nat.ltb_spec (length r) 3) as [L|L]; [now left|].
    destruct (endswith "-1000" (strip (field 2 r))) eqn:E; [|now left].
    destruct (PyFloat.float_of_string (price_text r)) as [x|] eqn:F; [|now left].
    destruct (String.eqb_spec (strip (field 2 r)) k) as [K|K].
    + subst k. rewrite lookup_insert_eq in H. inversion H; subst x.
      right. split; [exact E|]. exists r. repeat split; auto. now left.
    + rewrite lookup_insert_ne in H by exact K. now left.
  - right. split; [exact E|]. exists q. split; [now right|exact Rest].
Qed.

Lemma price_map_fold_complete rows m k :
  is_Some (m !! k)
  \/ (endswith "-1000" k = true
      /\ exists r, In r rows /\ 3 <= length r /\ strip (field 2 r) = k
                   /\ is_numeric (price_text r) = true) ->
  is_Some (fold_left price_map_step rows m !! k).
Proof.
  revert m. induction rows as [|r rows IH]; intros m H.
  - destruct H as [H|(_ & r & [] & _)]. exact H.
  - cbn [fold_left]. apply IH.
    unfold price_map_step. destruct (Nat.ltb_spec (length r) 3) as [L|L].
    + destruct H as [H|(E & q & [<-|Hq] & L' & Rest)]; [now left|lia|].
      right. split; [exact E|]. exists q. tauto.
    + destruct H as [H|(E & q & [<-|Hq] & L' & K & N)].
      * left. destruct (endswith "-1000" (strip (field 2 r))); [|exact H].
        destruct (PyFloat.float_of_string (price_text r)); [|exact H].
        destruct (String.eqb_spec (strip (field 2 r)) k) as [->|K].
        -- rewrite lookup_insert_eq. eauto.
        -- now rewrite lookup_insert_ne.
      * left. rewrite K, E. unfold is_numeric in N.
        destruct (PyFloat.float_of_string (price_text r)); [|discriminate].
        rewrite lookup_insert_eq. eauto.
      * right. split; [exact E|]. exists q. tauto.
Qed.

End BackfillMore.

(** X7: the backfill never touches a row of fewer than three fields, a row
    whose SKU does not end in "-3050", or a row whose price is numeric
    already: after a run that ends, such a row is in its place as it was. *)
Theorem backfill_keeps_other_rows (reader : table) (s : fill_state)
    (i : nat) (r : list string) :
  fill_rows reader = Some s ->
  reader !! i = Some r ->
  length r < 3 \/ endswith "-3050" (strip (field 2 r)) = false
  \/ is_numeric (price_text r) = true ->
  reader_rows s !! i = Some r.
Proof.
  intros F Hi H. destruct (fill_rows_inv _ _ F) as [-> _].
  change (map (row_after (price_map reader)) reader)
    with (row_after (price_map reader) <$> reader).
  rewrite list_lookup_fmap, Hi. cbn. f_equal.
  unfold row_after. rewrite fill_action_spec.
  assert (needs_price r = false) as ->; [|reflexivity].
  unfold needs_price. destruct H as [H|[H|H]].
  - destruct (Nat.leb_spec 3 (length r)); [lia|reflexivity].
  - now rewrite H, andb_false_r.
  - now rewrite H, andb_false_r.
Qed.

Lemma backfill_keeps_other_rows_witness :
  exists s,
    fill_rows [["1"; "Rail A"; "A-20-1000"; "1"; "2"; "100.00"; "50.00"];
               ["2"; "Rail A"; "A-20-3050"; "1"; "2"; "299.99"; ""]] = Some s
    /\ reader_rows s !! 1 = Some ["2"; "Rail A"; "A-20-3050"; "1"; "2"; "299.99"; ""].
Proof.
  eexists. split; [vm_compute; reflexivity|].
  apply (backfill_keeps_other_rows
           [["1"; "Rail A"; "A-20-1000"; "1"; "2"; "100.00"; "50.00"];
            ["2"; "Rail A"; "A-20-3050"; "1"; "2"; "299.99"; ""]]).
  - vm_compute. reflexivity.
  - reflexivity.
  - right. right. vm_compute. reflexivity.
Defined.

(** X8: after a run that ends, every row that wanted a price (three fields
    at least, SKU ending in "-3050", no numeric price) is accounted for
    once: [updated] counts those whose looked-up key is in [price_map], and
    [missing_source] lists, in table order, the SKUs of the others. *)
Theorem backfill_accounting (reader : table) (s : fill_state) :
  fill_rows reader = Some s ->
  updated s
  = length (List.filter
              (fun r => needs_price r && has_source (price_map reader) r) reader)
  /\ missing_source s
     = map (fun r => strip (field 2 r))
         (List.filter
            (fun r => needs_price r && negb (has_source (price_map reader) r))
            reader)
  /\ updated s + length (missing_source s)
     = length (List.filter needs_price reader).
Proof.
  intros F. apply fill_fold_missing in F. cbn in F. destruct F as [M U].
  split; [exact U|]. split; [exact M|].
  rewrite U, M, length_map. clear. generalize (price_map reader) as pm. intros pm.
  induction reader as [|r rows IH]; [reflexivity|]. cbn [List.filter].
  destruct (needs_price r); cbn [andb]; [|exact IH].
  destruct (has_source pm r); cbn [negb length]; lia.
Qed.

Lemma backfill_accounting_witness :
  exists s,
    fill_rows [["1"; "Rail A"; "A-20-1000"; "1"; "2"; "100.00"; "50.00"];
               ["2"; "Rail A"; "A-20-3050"];
               ["3"; "Rail B"; "B-20-3050"; "1"; "2"; "n/a"]] = Some s
    /\ updated s = 1 /\ missing_source s = ["B-20-3050"].
Proof.
  eexists. split; [vm_compute; reflexivity|].
  destruct (backfill_accounting
              [["1"; "Rail A"; "A-20-1000"; "1"; "2"; "100.00"; "50.00"];
               ["2"; "Rail A"; "A-20-3050"];
               ["3"; "Rail B"; "B-20-3050"; "1"; "2"; "n/a"]] _
              ltac:(vm_compute; reflexivity)) as (U & M & _).
  split; [exact U|exact M].
Defined.

(** X9: [price_map] holds a price for a key exactly when the key ends in
    "-1000" and is the stripped SKU of a row of three fields at least with
    a numeric price; the price it holds is the float of the price text of
    such a row. *)
Theorem price_map_sources (reader : table) (k : string) :
  (forall v,
      price_map reader !! k = Some v ->
      endswith "-1000" k = true
      /\ exists r, In r reader /\ 3 <= length r /\ strip (field 2 r) = k
                   /\ PyFloat.float_of_string (price_text r) = Some v)
  /\ (is_Some (price_map reader !! k) <->
      endswith "-1000" k = true
      /\ exists r, In r reader /\ 3 <= length r /\ strip (field 2 r) = k
                   /\ is_numeric (price_text r) = true).
Proof.
  assert (forall v,
             price_map reader !! k = Some v ->
             endswith "-1000" k = true
             /\ exists r, In r reader /\ 3 <= length r /\ strip (field 2 r) = k
                          /\ PyFloat.float_of_string (price_text r) = Some v) as S.
  { intros v H. apply price_map_fold_sound in H.
    destruct H as [H|H]; [now rewrite lookup_empty in H|exact H]. }
  split; [exact S|]. split.
  - intros [v H]. destruct (S v H) as (E & r & Hin & L & K & F).
    split; [exact E|]. exists r. repeat split; auto.
    unfold is_numeric. now rewrite F.
  - intros H. apply price_map_fold_complete. now right.
Qed.

Lemma price_map_sources_witness :
  exists r,
    In r [["1"; "Rail A"; "A-20-1000"; "1"; "2"; "100.00"; "50.00"];
          ["2"; "Rail A"; "A-20-3050"]]
    /\ strip (field 2 r) = "A-20-1000"%string.
Proof.
  destruct (PyFloat.float_of_string "100.00") as [v|] eqn:V; [|discriminate].
  destruct (proj1 (price_map_sources
                     [["1"; "Rail A"; "A-20-1000"; "1"; "2"; "100.00"; "50.00"];
                      ["2"; "Rail A"; "A-20-3050"]] "A-20-1000") v)
    as (_ & r & Hin & _ & K & _).
  - rewrite <- V. vm_compute. reflexivity.
  - exists r. split; [exact Hin|exact K].
Defined.

(** X10: a row the backfill updates is the input row, padded with empty
    fields up to column 5, with field 5 set to [round2] of 3.05 times the
    price recorded for the looked-up key; the price it then holds is
    numeric. *)
Theorem backfill_update_is_scaled_source (reader : table) (s : fill_state)
    (i : nat) (r : list string) :
  fill_rows reader = Some s ->
  reader !! i = Some r ->
  needs_price r = true ->
  has_source (price_map reader) r = true ->
  exists v t,
    price_map reader !! replace "-3050" "-1000" (strip (field 2 r)) = Some v
    /\ PyFloat.round2 (PyFloat.fmul v RATIO) = Some t
    /\ reader_rows s !! i = Some (<[5 := t]> (pad6 r))
    /\ price_text (<[5 := t]> (pad6 r)) = t
    /\ is_numeric t = true.
Proof.
  intros F Hi N S.
  pose proof (fill_fold_no_raise _ _ _ _ F r) as NR.
  destruct (fill_rows_inv _ _ F) as [-> _].
  assert (In r reader) as Hin by (eapply list_elem_of_In, list_elem_of_lookup_2, Hi).
  specialize (NR Hin). rewrite fill_action_spec, N in NR.
  unfold has_source in S.
  destruct (price_map reader !! replace "-3050" "-1000" (strip (field 2 r)))
    as [v|] eqn:P; [|discriminate].
  destruct (PyFloat.round2 (PyFloat.fmul v RATIO)) as [t|] eqn:R; [|congruence].
  exists v, t. split; [reflexivity|]. split; [exact R|].
  destruct (round2_numeric _ _ R) as [St Nt].
  split; [|split; [now apply updated_row_price|exact Nt]].
  change (map (row_after (price_map reader)) reader)
    with (row_after (price_map reader) <$> reader).
  rewrite list_lookup_fmap, Hi. cbn. f_equal.
  unfold row_after. now rewrite fill_action_spec, N, P, R.
Qed.

Lemma backfill_update_is_scaled_source_witness :
  exists s v t,
    fill_rows [["1"; "Rail A"; "A-20-1000"; "1"; "2"; "100.00"; "50.00"];
               ["2"; "Rail A"; "A-20-3050"]] = Some s
    /\ PyFloat.round2 (PyFloat.fmul v RATIO) = Some t
    /\ reader_rows s !! 1 = Some (<[5 := t]> (pad6 ["2"; "Rail A"; "A-20-3050"])).
Proof.
  destruct (backfill_update_is_scaled_source
              [["1"; "Rail A"; "A-20-1000"; "1"; "2"; "100.00"; "50.00"];
               ["2"; "Rail A"; "A-20-3050"]]
              {| reader_rows :=
                   [["1"; "Rail A"; "A-20-1000"; "1"; "2"; "100.00"; "50.00"];
                    ["2"; "Rail A"; "A-20-3050"; ""; ""; "305.00"]];
                 updated := 1; missing_source := [] |}
              1 ["2"; "Rail A"; "A-20-3050"])
    as (v & t & _ & R & H & _).
  - vm_compute. reflexivity.
  - reflexivity.
  - vm_compute. reflexivity.
  - vm_compute. reflexivity.
  - eexists _, v, t. split; [vm_compute; reflexivity|]. split; [exact R|exact H].
Defined.

(** X11: the backfill is idempotent on the stored table: run on the table
    it left, it finds the same prices, updates nothing and leaves the table
    as it is (or stops with the same exception as before, the table being
    the input still). *)
Theorem backfill_idempotent (reader : table) :
  stored_after_fill (stored_after_fill reader) = stored_after_fill reader
  /\ price_map (stored_after_fill reader) = price_map reader
  /\ match fill_rows (stored_after_fill reader) with
     | Some s' => updated s' = 0
     | None => fill_rows reader = None
     end.
Proof.
  unfold stored_after_fill at 2 3 4 5.
  destruct (fill_rows reader) as [s|] eqn:F.
  2:{ split; [|split; [reflexivity|now rewrite F]].
      unfold stored_after_fill. now rewrite F. }
  destruct (Nat.ltb_spec 0 (updated s)) as [U|U].
  2:{ split; [|split; [reflexivity|rewrite F; lia]].
      unfold stored_after_fill. rewrite F.
      destruct (Nat.ltb_spec 0 (updated s)); [lia|reflexivity]. }
  destruct (fill_rows_inv _ _ F) as [Hrows _].
  pose proof (fill_fold_no_raise _ _ _ _ F) as NR.
  set (pm := price_map reader) in *.
  assert (price_map (reader_rows s) = pm) as Hpm.
  { rewrite Hrows. unfold price_map. apply price_map_after. }
  assert (forall q, In q (reader_rows s) ->
                    fill_action pm q <> Raise /\ is_update (fill_action pm q) = false
                    /\ row_after pm q = q) as Hq.
  { intros q Hin. rewrite Hrows in Hin. apply in_map_iff in Hin.
    destruct Hin as (r & <- & Hin). specialize (NR r Hin).
    pose proof (fill_action_after pm r NR) as A.
    unfold row_after at 3. rewrite A.
    destruct (fill_action pm r); try congruence; repeat split; congruence. }
  destruct (fill_fold_total pm (reader_rows s)
              {| reader_rows := []; updated := 0; missing_source := [] |})
    as [s' F'].
  { intros q Hin. now apply Hq. }
  assert (fill_rows (reader_rows s) = Some s') as F2
    by (unfold fill_rows; rewrite Hpm; exact F').
  destruct (fill_fold_inv _ _ _ _ F') as [R' U']. cbn in R', U'.
  assert (updated s' = 0) as U0.
  { rewrite U'. clear - Hq. induction (reader_rows s) as [|q l IH]; [reflexivity|].
    cbn [List.filter]. destruct (Hq q (or_introl eq_refl)) as (_ & -> & _).
    apply IH. intros q' Hq'. apply Hq. now right. }
  split; [|split; [exact Hpm|now rewrite F2]].
  unfold stored_after_fill. rewrite F2, U0. reflexivity.
Qed.

(** ** The sync pass: frame, sources of rates and a second run *)

Section SyncMore.

Lemma pad7_fixed r : 7 <= length r -> pad7 r = r.
Proof.
  intros H. unfold pad7. replace (7 - length r) with 0 by lia.
  apply app_nil_r.
Qed.

Lemma field_pad7 j r : field j (pad7 r) = field j r.
Proof. apply field_pad. Qed.

Lemma length_token_nil : length_token EmptyString = EmptyString.
Proof. reflexivity. Qed.

(** The third loop without its two tests on the emptiness of the SKU,
    which change nothing. *)
Lemma sync_row_spec st r :
  sync_row st r
  = if String.eqb (length_token (strip (field 2 r))) "3050" then
      let base := sku_base (strip (field 2 r)) in
      let r1 :=
        match to_float (field 5 r), price_per_mm st !! base with
        | None, Some x => <[5 := scaled_text x]> (pad7 r)
        | _, _ => pad7 r
        end in
      match to_float (field 6 r), cost_per_mm st !! base with
      | None, Some x => <[6 := scaled_text x]> r1
      | _, _ => r1
      end
    else pad7 r.
Proof.
  unfold sync_row. cbv zeta. pose proof (pad7_length r) as L.
  destruct (Nat.ltb_spec 2 (length (pad7 r))) as [_|]; [|lia].
  rewrite !field_pad7.
  destruct (String.eqb_spec (strip (field 2 r)) EmptyString) as [E|E];
    [|reflexivity].
  rewrite E. reflexivity.
Qed.

Lemma sync_row_length_eq st r : length (sync_row st r) = Nat.max 7 (length r).
Proof.
  rewrite sync_row_spec. cbv zeta. pose proof (pad7_length r) as L.
  repeat case_match; rewrite ?length_insert; exact L.
Qed.

Lemma field_sync_other st r j :
  j <> 5 -> j <> 6 -> field j (sync_row st r) = field j r.
Proof.
  intros H5 H6. rewrite sync_row_spec. cbv zeta.
  assert (forall x t, field j (<[5 := t]> x) = field j x) as I5.
  { intros x t. rewrite field_insert. destruct (Nat.eqb_spec j 5); [lia|reflexivity]. }
  assert (forall x t, field j (<[6 := t]> x) = field j x) as I6.
  { intros x t. rewrite field_insert. destruct (Nat.eqb_spec j 6); [lia|reflexivity]. }
  repeat case_match; rewrite ?I6, ?I5; apply field_pad7.
Qed.

Lemma insert_pad7_field r i t : i < 7 -> field i (<[i := t]> (pad7 r)) = t.
Proof.
  intros H. rewrite field_insert, Nat.eqb_refl, pad7_length.
  destruct (Nat.ltb_spec i (Nat.max 7 (length r))); [reflexivity|lia].
Qed.

(** The price cell of a row after the third loop. *)
Lemma sync_field5 st r :
  field 5 (sync_row st r)
  = if String.eqb (length_token (strip (field 2 r))) "3050" then
      match to_float (field 5 r), price_per_mm st !! sku_base (strip (field 2 r)) with
      | None, Some x => scaled_text x
      | _, _ => field 5 r
      end
    else field 5 r.
Proof.
  rewrite sync_row_spec. cbv zeta.
  assert (forall x t, field 5 (<[6 := t]> x) = field 5 x) as I6
    by (intros x t; now rewrite field_insert).
  repeat case_match; rewrite ?I6, ?field_pad7; try reflexivity;
    now rewrite insert_pad7_field by lia.
Qed.

(** The cost cell of a row after the third loop. *)
Lemma sync_field6 st r :
  field 6 (sync_row st r)
  = if String.eqb (length_token (strip (field 2 r))) "3050" then
      match to_float (field 6 r), cost_per_mm st !! sku_base (strip (field 2 r)) with
      | None, Some x => scaled_text x
      | _, _ => field 6 r
      end
    else field 6 r.
Proof.
  rewrite sync_row_spec. cbv zeta.
  assert (forall x t, field 6 (<[5 := t]> x) = field 6 x) as I5
    by (intros x t; now rewrite field_insert).
  assert (forall x t, 7 <= length x -> field 6 (<[6 := t]> x) = t) as I6.
  { intros x t H. rewrite field_insert, Nat.eqb_refl.
    destruct (Nat.ltb_spec 6 (length x)); [reflexivity|lia]. }
  pose proof (pad7_length r) as L.
  repeat case_match; rewrite ?I6, ?I5, ?field_pad7; try reflexivity;
    rewrite ?length_insert; lia.
Qed.

Lemma nth_ext_rows (a b : list string) :
  length a = length b -> (forall j, field j a = field j b) -> a = b.
Proof.
  intros L H. apply (nth_ext a b EmptyString EmptyString L). intros j _. apply H.
Qed.

(** A row is changed by the third loop in its cells 5 and 6 at most. *)
Lemma sync_row_fixed st r :
  7 <= length r ->
  field 5 (sync_row st r) = field 5 r ->
  field 6 (sync_row st r) = field 6 r ->
  sync_row st r = r.
Proof.
  intros L H5 H6. apply nth_ext_rows.
  - rewrite sync_row_length_eq. lia.
  - intros j. destruct (Nat.eq_dec j 5) as [->|N5]; [exact H5|].
    destruct (Nat.eq_dec j 6) as [->|N6]; [exact H6|].
    now apply field_sync_other.
Qed.

(** The third loop, run on a row it has produced, with the same rates,
    changes nothing. *)
Lemma sync_row_idem st st' r :
  price_per_mm st' = price_per_mm st ->
  cost_per_mm st' = cost_per_mm st ->
  sync_row st' (sync_row st r) = sync_row st r.
Proof.
  intros Hp Hc. apply sync_row_fixed.
  - rewrite sync_row_length_eq. lia.
  - rewrite (sync_field5 st'), (field_sync_other st r 2) by lia.
    destruct (String.eqb (length_token (strip (field 2 r))) "3050") eqn:T;
      [|reflexivity].
    rewrite Hp. rewrite (sync_field5 st r), T.
    destruct (to_float (field 5 r)) as [p|] eqn:P.
    + now rewrite P.
    + destruct (price_per_mm st !! sku_base (strip (field 2 r))) as [x|] eqn:R.
      * destruct (scaled_text_numeric x) as [y ->]. reflexivity.
      * now rewrite P.
  - rewrite (sync_field6 st'), (field_sync_other st r 2) by lia.
    destruct (String.eqb (length_token (strip (field 2 r))) "3050") eqn:T;
      [|reflexivity].
    rewrite Hc. rewrite (sync_field6 st r), T.
    destruct (to_float (field 6 r)) as [p|] eqn:P.
    + now rewrite P.
    + destruct (cost_per_mm st !! sku_base (strip (field 2 r))) as [x|] eqn:R.
      * destruct (scaled_text_numeric x) as [y ->]. reflexivity.
      * now rewrite P.
Qed.

Lemma float_field_pad7 i r : i < 7 -> float_field i (pad7 r) = float_field i r.
Proof.
  intros H. unfold float_field. rewrite pad7_length, field_pad7.
  destruct (Nat.ltb_spec i (Nat.max 7 (length r))); [|lia].
  destruct (Nat.ltb_spec i (length r)); [reflexivity|].
  unfold field. now rewrite nth_overflow by lia.
Qed.

(** The first two loops read a row the third loop has produced as they read
    the row it was made from. *)
Lemma rate_row_sync tok base st r :
  tok <> "3050"%string -> tok <> EmptyString ->
  is_rate_row tok base (sync_row st r) = is_rate_row tok base r
  /\ (is_rate_row tok base r = true ->
      float_field 5 (sync_row st r) = float_field 5 r
      /\ float_field 6 (sync_row st r) = float_field 6 r).
Proof.
  intros T3 Te. split.
  - unfold is_rate_row. rewrite sync_row_length_eq, field_sync_other by lia.
    destruct (Nat.leb_spec 3 (Nat.max 7 (length r))); [|lia].
    destruct (Nat.leb_spec 3 (length r)) as [L|L]; [reflexivity|].
    cbn [andb]. unfold field. rewrite nth_overflow by lia.
    change (strip EmptyString) with EmptyString. rewrite length_token_nil.
    destruct (String.eqb_spec EmptyString tok); [congruence|].
    now rewrite andb_false_r.
  - intros H. apply is_rate_row_spec in H. destruct H as (_ & _ & T).
    rewrite sync_row_spec, T.
    destruct (String.eqb_spec tok "3050"); [congruence|].
    split; apply float_field_pad7; lia.
Qed.

Lemma rates_1000_sync f rows st1 st2 :
  (forall base r, is_rate_row "1000" base (f r) = is_rate_row "1000" base r
     /\ (is_rate_row "1000" base r = true ->
         float_field 5 (f r) = float_field 5 r
         /\ float_field 6 (f r) = float_field 6 r)) ->
  price_per_mm st1 = price_per_mm st2 -> cost_per_mm st1 = cost_per_mm st2 ->
  price_per_mm (fold_left rate_step_1000 (map f rows) st1)
  = price_per_mm (fold_left rate_step_1000 rows st2)
  /\ cost_per_mm (fold_left rate_step_1000 (map f rows) st1)
     = cost_per_mm (fold_left rate_step_1000 rows st2).
Proof.
  intros Hf. revert st1 st2. induction rows as [|r rows IH]; intros st1 st2 Hp Hc;
    [now split|].
  cbn [map fold_left]. apply IH; apply map_eq; intros base;
    rewrite ?step_1000_price, ?step_1000_cost;
    destruct (Hf base r) as [-> F];
    (destruct (is_rate_row "1000" base r); [|now rewrite ?Hp, ?Hc]);
    destruct (F eq_refl) as [F5 F6]; now rewrite ?F5, ?F6, ?Hp, ?Hc.
Qed.

Lemma rates_1500_sync f rows st1 st2 :
  (forall base r, is_rate_row "1500" base (f r) = is_rate_row "1500" base r
     /\ (is_rate_row "1500" base r = true ->
         float_field 5 (f r) = float_field 5 r
         /\ float_field 6 (f r) = float_field 6 r)) ->
  price_per_mm st1 = price_per_mm st2 -> cost_per_mm st1 = cost_per_mm st2 ->
  price_per_mm (fold_left rate_step_1500 (map f rows) st1)
  = price_per_mm (fold_left rate_step_1500 rows st2)
  /\ cost_per_mm (fold_left rate_step_1500 (map f rows) st1)
     = cost_per_mm (fold_left rate_step_1500 rows st2).
Proof.
  intros Hf. revert st1 st2. induction rows as [|r rows IH]; intros st1 st2 Hp Hc;
    [now split|].
  cbn [map fold_left]. apply IH; apply map_eq; intros base;
    rewrite ?step_1500_price, ?step_1500_cost; unfold fallback_open;
    destruct (Hf base r) as [-> F]; rewrite Hp;
    (destruct (is_rate_row "1500" base r); [|now rewrite ?Hp, ?Hc]);
    destruct (F eq_refl) as [F5 F6]; now rewrite ?F5, ?F6, ?Hp, ?Hc.
Qed.

(** The rates derived from the rows written are the rates derived from the
    rows read. *)
Lemma rates_of_sync st rows :
  price_per_mm (rates_of (map (sync_row st) rows)) = price_per_mm (rates_of rows)
  /\ cost_per_mm (rates_of (map (sync_row st) rows)) = cost_per_mm (rates_of rows).
Proof.
  unfold rates_of, rates_1000.
  destruct (rates_1000_sync (sync_row st) rows rates_init rates_init) as [P C];
    try reflexivity.
  { intros base r. apply rate_row_sync; discriminate. }
  apply rates_1500_sync; [|exact P|exact C].
  intros base r. apply rate_row_sync; discriminate.
Qed.

Lemma read_csv_rows_In file r : In r (read_csv_rows file) <-> In r file /\ r <> [].
Proof.
  unfold read_csv_rows. rewrite filter_In. split; intros [H1 H2]; (split; [exact H1|]).
  - intros ->. discriminate.
  - now destruct r.
Qed.

Lemma read_csv_rows_main file : read_csv_rows (main file) = main file.
Proof.
  unfold read_csv_rows at 1. apply filter_all, List.Forall_forall.
  intros r H. unfold main in H. apply in_map_iff in H. destruct H as (r0 & <- & _).
  pose proof (sync_row_length (rates_of (read_csv_rows file)) r0) as L.
  destruct (sync_row _ r0); [simpl in L; lia|reflexivity].
Qed.

(** Where the rates come from: the first loop. *)
Lemma rates_1000_sound rows st base x :
  (price_per_mm (fold_left rate_step_1000 rows st) !! base = Some x ->
   price_per_mm st !! base = Some x
   \/ exists r p, In r rows /\ is_rate_row "1000" base r = true
                  /\ float_field 5 r = Some p /\ x = PyFloat.fdiv p F1000)
  /\ (cost_per_mm (fold_left rate_step_1000 rows st) !! base = Some x ->
      cost_per_mm st !! base = Some x
      \/ exists r p, In r rows /\ is_rate_row "1000" base r = true
                     /\ float_field 6 r = Some p /\ x = PyFloat.fdiv p F1000).
Proof.
  revert st. induction rows as [|r rows IH]; intros st; [split; now left|].
  cbn [fold_left]. destruct (IH (rate_step_1000 st r)) as [IHp IHc].
  split; intros H.
  - apply IHp in H. destruct H as [H|(q & p & Hq & Rest)].
    + rewrite step_1000_price in H.
      destruct (is_rate_row "1000" base r) eqn:E; [|now left].
      destruct (float_field 5 r) as [p|] eqn:F; [|now left].
      inversion H. right. exists r, p. repeat split; auto. now left.
    + right. exists q, p. split; [now right|exact Rest].
  - apply IHc in H. destruct H as [H|(q & p & Hq & Rest)].
    + rewrite step_1000_cost in H.
      destruct (is_rate_row "1000" base r) eqn:E; [|now left].
      destruct (float_field 6 r) as [p|] eqn:F; [|now left].
      inversion H. right. exists r, p. repeat split; auto. now left.
    + right. exists q, p. split; [now right|exact Rest].
Qed.

(** Where the rates come from: the second loop. *)
Lemma rates_1500_sound rows st base x :
  (price_per_mm (fold_left rate_step_1500 rows st) !! base = Some x ->
   price_per_mm st !! base = Some x
   \/ exists r p, In r rows /\ is_rate_row "1500" base r = true
                  /\ float_field 5 r = Some p /\ x = PyFloat.fdiv p F1500)
  /\ (cost_per_mm (fold_left rate_step_1500 rows st) !! base = Some x ->
      cost_per_mm st !! base = Some x
      \/ exists r p, In r rows /\ is_rate_row "1500" base r = true
                     /\ float_field 6 r = Some p /\ x = PyFloat.fdiv p F1500).
Proof.
  revert st. induction rows as [|r rows IH]; intros st; [split; now left|].
  cbn [fold_left]. destruct (IH (rate_step_1500 st r)) as [IHp IHc].
  split; intros H.
  - apply IHp in H. destruct H as [H|(q & p & Hq & Rest)].
    + rewrite step_1500_price in H. unfold fallback_open in H.
      destruct (is_rate_row "1500" base r) eqn:E; [|now left].
      cbn [andb] in H. destruct (negb _); [|now left].
      destruct (float_field 5 r) as [p|] eqn:F; [|now left].
      inversion H. right. exists r, p. repeat split; auto. now left.
    + right. exists q, p. split; [now right|exact Rest].
  - apply IHc in H. destruct H as [H|(q & p & Hq & Rest)].
    + rewrite step_1500_cost in H. unfold fallback_open in H.
      destruct (is_rate_row "1500" base r) eqn:E; [|now left].
      cbn [andb] in H. destruct (negb _); [|now left].
      destruct (float_field 6 r) as [p|] eqn:F; [|now left].
      inversion H. right. exists r, p. repeat split; auto. now left.
    + right. exists q, p. split; [now right|exact Rest].
Qed.

End SyncMore.

(** X12: the sync pass writes one row for every non-empty row of the file,
    in the same order, and drops the empty ones.  The row written has the
    fields of the row read, padded with empty fields to seven; only its
    cells 5 and 6 can differ, and only in a row whose length token is
    "3050". *)
Theorem main_keeps_rows (file : table) :
  length (main file) = length (read_csv_rows file)
  /\ (forall r, In r (read_csv_rows file) <-> In r file /\ r <> [])
  /\ forall i r,
       read_csv_rows file !! i = Some r ->
       exists r',
         main file !! i = Some r'
         /\ length r' = Nat.max 7 (length r)
         /\ (forall j, j <> 5 -> j <> 6 -> field j r' = field j r)
         /\ (length_token (strip (field 2 r)) <> "3050"%string -> r' = pad7 r).
Proof.
  split; [unfold main; apply length_map|]. split; [apply read_csv_rows_In|].
  intros i r Hi. exists (sync_row (rates_of (read_csv_rows file)) r).
  split; [|split; [apply sync_row_length_eq|split]].
  - unfold main.
    change (map (sync_row (rates_of (read_csv_rows file))) (read_csv_rows file))
      with (sync_row (rates_of (read_csv_rows file)) <$> read_csv_rows file).
    now rewrite list_lookup_fmap, Hi.
  - intros j. apply field_sync_other.
  - intros T. rewrite sync_row_spec.
    destruct (String.eqb_spec (length_token (strip (field 2 r))) "3050");
      [congruence|reflexivity].
Qed.

Lemma main_keeps_rows_witness :
  exists r',
    main [["3"; "Rail"; "B-1500"; "1"]; []; ["4"; "Rail"; "B-3050"]] !! 0 = Some r'
    /\ r' = pad7 ["3"; "Rail"; "B-1500"; "1"].
Proof.
  destruct (proj2 (proj2 (main_keeps_rows
                            [["3"; "Rail"; "B-1500"; "1"]; [];
                             ["4"; "Rail"; "B-3050"]]))
              0 ["3"; "Rail"; "B-1500"; "1"] eq_refl) as (r' & H & _ & _ & E).
  exists r'. split; [exact H|]. apply E. vm_compute. discriminate.
Defined.

(** X13: the sync pass changes a price cell only to fill it: the cell of a
    row written is the cell of the row read, unless the row has length
    token "3050", its price is not numeric and its base has a price rate;
    then it is the rate times 3050, rounded and printed with two decimals.
    The same holds of the cost cell, with the cost rate. *)
Theorem main_fills_cells_only (file : table) (i : nat) (r r' : list string) :
  read_csv_rows file !! i = Some r ->
  main file !! i = Some r' ->
  (field 5 r' = field 5 r
   \/ (length_token (strip (field 2 r)) = "3050"%string
       /\ to_float (field 5 r) = None
       /\ exists x,
            price_per_mm (rates_of (read_csv_rows file))
              !! sku_base (strip (field 2 r)) = Some x
            /\ field 5 r' = scaled_text x))
  /\ (field 6 r' = field 6 r
      \/ (length_token (strip (field 2 r)) = "3050"%string
          /\ to_float (field 6 r) = None
          /\ exists x,
               cost_per_mm (rates_of (read_csv_rows file))
                 !! sku_base (strip (field 2 r)) = Some x
               /\ field 6 r' = scaled_text x)).
Proof.
  intros Hi Hm. unfold main in Hm.
  change (map (sync_row (rates_of (read_csv_rows file))) (read_csv_rows file))
    with (sync_row (rates_of (read_csv_rows file)) <$> read_csv_rows file) in Hm.
  rewrite list_lookup_fmap, Hi in Hm. cbn in Hm. inversion Hm; subst r'. clear Hm.
  rewrite sync_field5, sync_field6.
  destruct (String.eqb_spec (length_token (strip (field 2 r))) "3050") as [T|T];
    [|split; now left].
  split.
  - destruct (to_float (field 5 r)); [now left|].
    destruct (price_per_mm _ !! _) as [x|]; [|now left].
    right. repeat split; eauto.
  - destruct (to_float (field 6 r)); [now left|].
    destruct (cost_per_mm _ !! _) as [x|]; [|now left].
    right. repeat split; eauto.
Qed.

Lemma main_fills_cells_only_witness :
  field 5 ["2"; "Rail"; "A-3050"; ""; ""; "12.50"; ""] = "12.50"%string.
Proof.
  destruct (main_fills_cells_only
              [["1"; "Rail"; "A-1000"; "1"; "2"; "120"; "60"];
               ["2"; "Rail"; "A-3050"; ""; ""; "12.50"; ""]] 1
              ["2"; "Rail"; "A-3050"; ""; ""; "12.50"; ""]
              ["2"; "Rail"; "A-3050"; ""; ""; "12.50"; "183.00"]
              eq_refl ltac:(vm_compute; reflexivity)) as [[H|(_ & H & _)] _].
  - exact H.
  - vm_compute in H. discriminate.
Defined.

(** X14: after the sync pass a "3050" row lacks a numeric price only if its
    base has no price rate, and lacks a numeric cost only if its base has
    no cost rate. *)
Theorem main_leaves_blank_only_without_rate (file : table) (r' : list string) :
  In r' (main file) ->
  length_token (strip (field 2 r')) = "3050"%string ->
  (to_float (field 5 r') = None ->
   price_per_mm (rates_of (read_csv_rows file)) !! sku_base (strip (field 2 r'))
   = None)
  /\ (to_float (field 6 r') = None ->
      cost_per_mm (rates_of (read_csv_rows file)) !! sku_base (strip (field 2 r'))
      = None).
Proof.
  intros Hin T. unfold main in Hin. apply in_map_iff in Hin.
  destruct Hin as (r & <- & _).
  rewrite (field_sync_other _ r 2) in * by lia.
  rewrite sync_field5, sync_field6, T. cbn [String.eqb Ascii.eqb Bool.eqb andb].
  change (String.eqb "3050" "3050") with true. cbv iota.
  split; intros H.
  - destruct (to_float (field 5 r)) eqn:P; [congruence|].
    destruct (price_per_mm _ !! _) as [x|]; [|reflexivity].
    destruct (scaled_text_numeric x) as [y Hy]. congruence.
  - destruct (to_float (field 6 r)) eqn:P; [congruence|].
    destruct (cost_per_mm _ !! _) as [x|]; [|reflexivity].
    destruct (scaled_text_numeric x) as [y Hy]. congruence.
Qed.

Lemma main_leaves_blank_only_without_rate_witness :
  price_per_mm (rates_of (read_csv_rows [["2"; "Rail"; "A-3050"]]))
    !! sku_base (strip (field 2 ["2"; "Rail"; "A-3050"; ""; ""; ""; ""]))
  = None.
Proof.
  apply (proj1 (main_leaves_blank_only_without_rate
                  [["2"; "Rail"; "A-3050"]]
                  ["2"; "Rail"; "A-3050"; ""; ""; ""; ""]
                  ltac:(vm_compute; auto) eq_refl)).
  vm_compute. reflexivity.
Defined.

(** X15: a rate of a base comes from a row of that base: a price rate is
    the numeric price of one of its "-1000" rows divided by 1000 or of one
    of its "-1500" rows divided by 1500, and a cost rate likewise from a
    numeric cost. *)
Theorem rates_have_sources (rows : table) (base : string) (x : spec_float) :
  (price_per_mm (rates_of rows) !! base = Some x ->
   exists r p,
     In r rows /\ float_field 5 r = Some p
     /\ ((is_rate_row "1000" base r = true /\ x = PyFloat.fdiv p F1000)
         \/ (is_rate_row "1500" base r = true /\ x = PyFloat.fdiv p F1500)))
  /\ (cost_per_mm (rates_of rows) !! base = Some x ->
      exists r p,
        In r rows /\ float_field 6 r = Some p
        /\ ((is_rate_row "1000" base r = true /\ x = PyFloat.fdiv p F1000)
            \/ (is_rate_row "1500" base r = true /\ x = PyFloat.fdiv p F1500))).
Proof.
  unfold rates_of, rates_1000.
  destruct (rates_1500_sound rows (fold_left rate_step_1000 rows rates_init) base x)
    as [P5 C5].
  destruct (rates_1000_sound rows rates_init base x) as [P0 C0].
  split; intros H.
  - apply P5 in H. destruct H as [H|(r & p & Hin & E & F & ->)].
    + apply P0 in H. destruct H as [H|(r & p & Hin & E & F & ->)].
      * cbn in H. now rewrite lookup_empty in H.
      * exists r, p. auto.
    + exists r, p. auto.
  - apply C5 in H. destruct H as [H|(r & p & Hin & E & F & ->)].
    + apply C0 in H. destruct H as [H|(r & p & Hin & E & F & ->)].
      * cbn in H. now rewrite lookup_empty in H.
      * exists r, p. auto.
    + exists r, p. auto.
Qed.

Lemma rates_have_sources_witness :
  exists r p,
    In r [["1"; "Rail"; "A-1000"; "1"; "2"; "120"; "60"]]
    /\ float_field 5 r = Some p.
Proof.
  destruct (to_float "120") as [v|] eqn:V; [|discriminate].
  destruct (proj1 (rates_have_sources
                     [["1"; "Rail"; "A-1000"; "1"; "2"; "120"; "60"]] "A"
                     (PyFloat.fdiv v F1000))) as (r & p & Hin & F & _).
  - vm_compute in V. inversion V; subst v. vm_compute. reflexivity.
  - exists r, p. split; [exact Hin|exact F].
Defined.

(** X16: the sync pass is idempotent on the table: run on the rows it
    wrote, it derives the same rates and writes the same rows. *)
Theorem main_idempotent (file : table) :
  main (main file) = main file
  /\ price_per_mm (rates_of (read_csv_rows (main file)))
     = price_per_mm (rates_of (read_csv_rows file))
  /\ cost_per_mm (rates_of (read_csv_rows (main file)))
     = cost_per_mm (rates_of (read_csv_rows file)).
Proof.
  assert (price_per_mm (rates_of (read_csv_rows (main file)))
          = price_per_mm (rates_of (read_csv_rows file))
          /\ cost_per_mm (rates_of (read_csv_rows (main file)))
             = cost_per_mm (rates_of (read_csv_rows file))) as [P C].
  { rewrite read_csv_rows_main. unfold main. apply rates_of_sync. }
  split; [|now split].
  unfold main at 1. rewrite read_csv_rows_main.
  unfold main at 2 3. rewrite map_map. apply map_ext.
  intros r. apply sync_row_idem.
  - unfold main in P. rewrite <- P. f_equal. f_equal.
    now rewrite <- read_csv_rows_main at 1.
  - unfold main in C. rewrite <- C. f_equal. f_equal.
    now rewrite <- read_csv_rows_main at 1.
Qed.
